(** * Record extraction and response gate of the loan / WordPress scrapers

    A shallow embedding of
      - [parse_local_html.py]   ([parse_loan_html], [extract_loan_data], [parse_amount]),
      - [propublica_scraper.py] ([PropublicaLoanSpider.parse], [_extract_loan_data], [_parse_amount]),
      - [wordpress_scraper.py]  ([WordPressSpider.parse], [_is_cloudflare_challenge],
                                 [_handle_http_error]),
    followed by the properties of the extraction engine and of the response gate.

    Conventions of the embedding.
      - A Python [str] is a [string]; the model covers ASCII text (code points
        below 128), on which [str.lower], [str.strip] and the regular
        expression class [\s] are the functions defined in [PyStr].
      - An exception is a value [exn]; code that may raise returns [res A].
        Only classes deriving from [Exception] are modelled.
      - [datetime.now().isoformat()] reads an explicit [Clock].
      - The HTML tree is the external query adapter: a [Node] carries the
        answer the adapter gives to each selector asked inside it. *)

From Stdlib Require Import String Ascii List Bool Arith ZArith QArith Lia DecimalString Sorted.
Import ListNotations.
Close Scope Q_scope.
Open Scope string_scope.

(* ================================================================== *)
(** ** Python strings *)

Module PyStr.

(** Truth value of a string: [if s:] holds for a non-empty string. *)
Definition truthy (s : string) : bool :=
  match s with EmptyString => false | String _ _ => true end.

(** [c.isspace()] on ASCII: TAB..CR, FS..US and the blank. *)
Definition is_space (c : ascii) : bool :=
  let n := N_of_ascii c in
  ((9 <=? n) && (n <=? 13) || (28 <=? n) && (n <=? 32))%N.

Definition is_digit (c : ascii) : bool :=
  let n := N_of_ascii c in ((48 <=? n) && (n <=? 57))%N.

Definition digit_val (c : ascii) : Z := Z.of_N (N_of_ascii c) - 48.

Fixpoint lstrip (s : string) : string :=
  match s with
  | EmptyString => EmptyString
  | String c s' => if is_space c then lstrip s' else s
  end.

Fixpoint rstrip (s : string) : string :=
  match s with
  | EmptyString => EmptyString
  | String c s' =>
      let r := rstrip s' in
      if is_space c && negb (truthy r) then EmptyString else String c r
  end.

(** [s.strip()] *)
Definition strip (s : string) : string := rstrip (lstrip s).

(** [s.split(sep)] for a one-character separator: never the empty list. *)
Fixpoint split (sep : ascii) (s : string) : list string :=
  match s with
  | EmptyString => [EmptyString]
  | String c s' =>
      if Ascii.eqb c sep then EmptyString :: split sep s'
      else match split sep s' with
           | h :: t => String c h :: t
           | [] => [String c EmptyString]
           end
  end.

(** [s.startswith(p)] *)
Definition startswith (p s : string) : bool := String.prefix p s.

(** [needle in hay] *)
Fixpoint str_in (needle hay : string) : bool :=
  String.prefix needle hay
  || match hay with
     | EmptyString => false
     | String _ hay' => str_in needle hay'
     end.

Definition lower_char (c : ascii) : ascii :=
  let n := N_of_ascii c in
  if ((65 <=? n) && (n <=? 90))%N then ascii_of_N (n + 32) else c.

(** [s.lower()] *)
Fixpoint lower (s : string) : string :=
  match s with
  | EmptyString => EmptyString
  | String c s' => String (lower_char c) (lower s')
  end.

(** [str(n)] for a non-negative integer. *)
Definition str_of_nat (n : nat) : string :=
  NilEmpty.string_of_uint (Nat.to_uint n).

(** [re.sub(r'[$,\s]', '', s)]: every dollar sign, comma and whitespace
    character is deleted. *)
Fixpoint remove_money_chars (s : string) : string :=
  match s with
  | EmptyString => EmptyString
  | String c s' =>
      if Ascii.eqb c "$" || Ascii.eqb c "," || is_space c
      then remove_money_chars s'
      else String c (remove_money_chars s')
  end.

End PyStr.

(* ================================================================== *)
(** ** Exceptions *)

Module PyExn.

Inductive exn_class := ValueError | TypeError | OtherError.

(** An exception: its class and [str(e)]. *)
Record exn := MkExn { exn_cls : exn_class; exn_str : string }.

Inductive res (A : Type) : Type :=
| Ok (a : A)
| Raise (e : exn).
Arguments Ok {A} a.
Arguments Raise {A} e.

Definition bind {A B} (m : res A) (k : A -> res B) : res B :=
  match m with
  | Ok a => k a
  | Raise e => Raise e
  end.

End PyExn.
Import PyExn.

Declare Scope res_scope.
Delimit Scope res_scope with res.
Notation "x <- m ;; k" := (bind m (fun x => k))
  (at level 100, m at next level, right associativity) : res_scope.
Notation "' p <- m ;; k" := (bind m (fun p => k))
  (at level 100, p pattern, m at next level, right associativity) : res_scope.
Open Scope res_scope.

(* ================================================================== *)
(** ** [float(str)] *)

Module PyFloat.
Import PyStr.

(** The value [float] returns.  [FFinite q] carries the decimal value [q]
    the text denotes.  Python returns the binary64 number nearest to [q]:
    that is [q] itself where [q] is a binary64 number, as every integer of
    magnitude up to 2^53 is, and an infinity where [q] lies beyond the
    binary64 range.  The rounding is not part of the model, so a value is
    only stated where none takes place. *)
Inductive pyfloat :=
| FFinite (q : Q)
| FInf (negative : bool)
| FNan.

(** [digit (["_"] digit)*] after its first digit was seen: the further
    digits and the unread rest. *)
Fixpoint digits_tail (l : list ascii) : list ascii * list ascii :=
  match l with
  | [] => ([], [])
  | c :: l' =>
      if is_digit c then
        let (ds, r) := digits_tail l' in (c :: ds, r)
      else if Ascii.eqb c "_" then
        match l' with
        | d :: l'' =>
            if is_digit d then
              let (ds, r) := digits_tail l'' in (d :: ds, r)
            else ([], l)
        | [] => ([], l)
        end
      else ([], l)
  end.

(** [digitpart]: [None] when the input does not start with a digit. *)
Definition digitpart (l : list ascii) : option (list ascii * list ascii) :=
  match l with
  | c :: l' =>
      if is_digit c then
        let (ds, r) := digits_tail l' in Some (c :: ds, r)
      else None
  | [] => None
  end.

Definition digits_value (ds : list ascii) : Z :=
  fold_left (fun acc c => 10 * acc + digit_val c)%Z ds 0%Z.

(** An optional sign: is it negative, and the rest. *)
Definition take_sign (l : list ascii) : bool * list ascii :=
  match l with
  | c :: l' =>
      if Ascii.eqb c "-" then (true, l')
      else if Ascii.eqb c "+" then (false, l')
      else (false, l)
  | [] => (false, [])
  end.

(** [[exponent]] then the end of the text: the exponent read, [None] on
    anything else. *)
Definition exponent_then_end (l : list ascii) : option Z :=
  match l with
  | [] => Some 0%Z
  | c :: l' =>
      if Ascii.eqb c "e" || Ascii.eqb c "E" then
        let (neg, l'') := take_sign l' in
        match digitpart l'' with
        | Some (ds, []) =>
            Some (if neg then - digits_value ds else digits_value ds)%Z
        | _ => None
        end
      else None
  end.

(** [m * 10^e] as a reduced fraction. *)
Definition scale10 (m e : Z) : Q :=
  if (0 <=? e)%Z then Qred (inject_Z (m * 10 ^ e))
  else Qred (Qmake m (Z.to_pos (10 ^ (- e)))).

(** [number [exponent]]: [[digitpart] "." digitpart | digitpart ["."]]. *)
Definition floatnumber (l : list ascii) : option Q :=
  let finish (ip fp : list ascii) (rest : list ascii) :=
    match exponent_then_end rest with
    | Some e =>
        Some (scale10 (digits_value (ip ++ fp))
                      (e - Z.of_nat (List.length fp)))
    | None => None
    end in
  match digitpart l with
  | Some (ip, r) =>
      match r with
      | c :: r' =>
          if Ascii.eqb c "." then
            match digitpart r' with
            | Some (fp, r'') => finish ip fp r''
            | None => finish ip [] r'
            end
          else finish ip [] r
      | [] => finish ip [] r
      end
  | None =>
      match l with
      | c :: r' =>
          if Ascii.eqb c "." then
            match digitpart r' with
            | Some (fp, r'') => finish [] fp r''
            | None => None
            end
          else None
      | [] => None
      end
  end.

Definition value_error (s : string) : exn :=
  MkExn ValueError ("could not convert string to float: " ++ s).

(** [float(s)]: surrounding whitespace is ignored; an optional sign, then
    [inf], [infinity] or [nan] in any letter case, or a decimal number.
    Anything else raises [ValueError]. *)
Definition float_of_str (s : string) : res pyfloat :=
  let (neg, body) := take_sign (list_ascii_of_string (strip s)) in
  let word := lower (string_of_list_ascii body) in
  if String.eqb word "inf" || String.eqb word "infinity" then Ok (FInf neg)
  else if String.eqb word "nan" then Ok FNan
  else match floatnumber body with
       | Some q => Ok (FFinite (if neg then Qred (- q)%Q else q))
       | None => Raise (value_error s)
       end.

(** [try: ... except (ValueError, TypeError): return None] *)
Definition catch_value_type {A} (m : res A) : res (option A) :=
  match m with
  | Ok a => Ok (Some a)
  | Raise e =>
      match exn_cls e with
      | ValueError | TypeError => Ok None
      | OtherError => Raise e
      end
  end.

(** [parse_amount] of [parse_local_html.py], and [_parse_amount] of
    [propublica_scraper.py], which has the same body. *)
Definition parse_amount (amount_str : string) : res (option pyfloat) :=
  if negb (truthy amount_str) then Ok None
  else catch_value_type
         (let cleaned := remove_money_chars amount_str in
          float_of_str cleaned).

Definition _parse_amount := parse_amount.

End PyFloat.

(* ================================================================== *)
(** ** The document query adapter *)

Module Dom.

(** A node as the core sees it: the text it stands for ([get()] of a text
    or attribute selection) and what the adapter answers to each selector
    asked inside it.  A selector that is not listed matches nothing; an
    answer may be an exception raised by the adapter. *)
#[warnings="-register-all"]
Inductive Node : Type :=
| MkNode (data : string) (answers : list (string * res (list Node))).

Definition data (n : Node) : string :=
  match n with MkNode d _ => d end.

Definition answers (n : Node) : list (string * res (list Node)) :=
  match n with MkNode _ a => a end.

(** [n.css(query)] on one selector. *)
Definition css (query : string) (n : Node) : res (list Node) :=
  match find (fun qa => String.eqb (fst qa) query) (answers n) with
  | Some (_, r) => r
  | None => Ok []
  end.

(** [sl.css(query)] on a selector list: the matches inside each element,
    in order. *)
Fixpoint sl_css (query : string) (sl : list Node) : res (list Node) :=
  match sl with
  | [] => Ok []
  | n :: rest =>
      here <- css query n ;;
      there <- sl_css query rest ;;
      Ok (here ++ there)%list
  end.

(** [sl.get(default)] *)
Definition get (default : string) (sl : list Node) : string :=
  match sl with
  | [] => default
  | n :: _ => data n
  end.

(** [sl.getall()] *)
Definition getall (sl : list Node) : list string := map data sl.

(** A text or attribute node. *)
Definition text_node (s : string) : Node := MkNode s [].

Definition dquote : string := String (ascii_of_nat 34) EmptyString.

(** The selectors the scrapers ask. *)
Definition sel_search_query : string :=
  "input[name=" ++ dquote ++ "q" ++ dquote ++ "]::attr(value)".
Definition sel_h1_text : string := "h1::text".
Definition sel_items : string := "li.list.pt3".
Definition sel_items_alt_local : string := "ul li.list".
Definition sel_items_alt_spider : string := "ul > li.list".
Definition sel_recipient_link : string := "div.tiempos-text.lh-title a".
Definition sel_text : string := "::text".
Definition sel_href : string := "::attr(href)".
Definition sel_flex : string := "div.flex.flex-wrap".
Definition sel_blocks : string :=
  "div[class*=" ++ dquote ++ "w-" ++ dquote ++ "]".
Definition sel_label_text : string := "div.f7::text".
Definition sel_value_text : string := "div.f5.tiempos-text::text".
Definition sel_value_divs : string := "div.f5.tiempos-text".
Definition sel_detail_blocks : string := "div.f6, div.w-25-l, div.w-15-l".

End Dom.

(* ================================================================== *)
(** ** The clock and the records the scrapers build *)

Module Env.

(** [datetime.now()]: the readings the process will obtain, and how many
    it has consumed. *)
Record Clock := MkClock { readings : nat -> string; ticks : nat }.

(** [datetime.now().isoformat()] *)
Definition now (c : Clock) : string * Clock :=
  (readings c (ticks c), MkClock (readings c) (S (ticks c))).

(** The dictionary a loan is stored as.  [scraped_at] is [None] where the
    dictionary has no such key. *)
Record LoanData := MkLoan {
  index : nat;
  recipient : string;
  detail_url : string;
  location : string;
  loan_status : string;
  loan_amount : string;
  loan_amount_numeric : option PyFloat.pyfloat;
  date_approved : string;
  scraped_at : option string
}.

(** An entry of the error ledger; an absent key is [None]. *)
Record ErrorInfo := MkError {
  err_url : option string;
  error_type : string;
  status_code : option nat;
  message : string;
  suggestion : option string;
  timestamp : string
}.

(** The four fields that have a structural lookup and a heuristic
    recognizer. *)
Inductive Field := FLocation | FStatus | FAmount | FDate.

Definition field_eqb (f g : Field) : bool :=
  match f, g with
  | FLocation, FLocation | FStatus, FStatus
  | FAmount, FAmount | FDate, FDate => true
  | _, _ => false
  end.

(** The local variables [location], [loan_status], [loan_amount] and
    [date_approved] of the extractor. *)
Record Slots := MkSlots {
  s_location : string;
  s_status : string;
  s_amount : string;
  s_date : string
}.

Definition empty_slots : Slots :=
  MkSlots EmptyString EmptyString EmptyString EmptyString.

Definition slot (f : Field) (st : Slots) : string :=
  match f with
  | FLocation => s_location st
  | FStatus => s_status st
  | FAmount => s_amount st
  | FDate => s_date st
  end.

Definition set_slot (f : Field) (v : string) (st : Slots) : Slots :=
  match f with
  | FLocation => MkSlots v (s_status st) (s_amount st) (s_date st)
  | FStatus => MkSlots (s_location st) v (s_amount st) (s_date st)
  | FAmount => MkSlots (s_location st) (s_status st) v (s_date st)
  | FDate => MkSlots (s_location st) (s_status st) (s_amount st) v
  end.

(** The value a loan dictionary holds for a field. *)
Definition loan_field (f : Field) (d : LoanData) : string :=
  match f with
  | FLocation => location d
  | FStatus => loan_status d
  | FAmount => loan_amount d
  | FDate => date_approved d
  end.

(** Which heuristic recognizers are switched on.  The sources hardcode
    all four ([all_on]); the switch only serves to say what the extractor
    would do without one of them. *)
Definition Recognizers := Field -> bool.

Definition all_on : Recognizers := fun _ => true.

Definition without (f : Field) (on : Recognizers) : Recognizers :=
  fun g => if field_eqb g f then false else on g.

Definition months : list string :=
  ["Jan"; "Feb"; "March"; "April"; "May"; "June";
   "July"; "Aug"; "Sept"; "Oct"; "Nov"; "Dec"].

(** [any(k in val for k in keys)] *)
Definition any_in (keys : list string) (val : string) : bool :=
  existsb (fun k => PyStr.str_in k val) keys.

(** The structural tier, shared by both extractors: inside the flex
    container, every block whose class mentions a width gives a label and
    a value, and the label decides the slot. *)
Definition by_label (st : Slots) (label value : string) : Slots :=
  if PyStr.str_in "Location" label then set_slot FLocation value st
  else if PyStr.str_in "Loan Status" label then set_slot FStatus value st
  else if PyStr.str_in "Loan Amount" label then set_slot FAmount value st
  else if PyStr.str_in "Date Approved" label then set_slot FDate value st
  else st.

(** The field a label selects, by the order of the tests of [by_label]. *)
Definition label_field (label : string) : option Field :=
  if PyStr.str_in "Location" label then Some FLocation
  else if PyStr.str_in "Loan Status" label then Some FStatus
  else if PyStr.str_in "Loan Amount" label then Some FAmount
  else if PyStr.str_in "Date Approved" label then Some FDate
  else None.

Definition selects (f : Field) (label : string) : bool :=
  match label_field label with
  | Some g => field_eqb g f
  | None => false
  end.

Definition read_block (block : Dom.Node) : res (string * string) :=
  l <- Dom.css Dom.sel_label_text block ;;
  let label := PyStr.strip (Dom.get EmptyString l) in
  v <- Dom.css Dom.sel_value_text block ;;
  let value := Dom.get EmptyString v in
  let value := if PyStr.truthy value then PyStr.strip value else value in
  Ok (label, value).

Fixpoint structural_loop (blocks : list Dom.Node) (st : Slots) : res Slots :=
  match blocks with
  | [] => Ok st
  | block :: rest =>
      ' (label, value) <- read_block block ;;
      structural_loop rest (by_label st label value)
  end.

(** [[v.strip() for v in all_values if v.strip()]] *)
Definition stripped_nonempty (vs : list string) : list string :=
  filter PyStr.truthy (map PyStr.strip vs).

(** What the engine passes to a spider's [parse]: a response whose body is
    text (a [TextResponse], as every HTML page is), or a plain [Response],
    of which only the address and the status matter here, because reading
    its [text] raises [AttributeError]. *)
Inductive Delivered (R : Type) : Type :=
| Text (response : R)
| NotText (url : string) (status : nat).

Arguments Text {R} _.
Arguments NotText {R} _ _.

(** The exception [response.text] raises on a plain [Response]. *)
Definition not_text : exn := MkExn OtherError "Response content isn't text".

End Env.

(* ================================================================== *)
(** ** [parse_local_html.py] *)

Module ParseLocal.
Import PyStr Dom Env.

Definition status_keywords : list string :=
  ["Forgiven"; "Active"; "Paid"; "Exempt"; "Cancelled"].

(** The structural tier: [location], [loan_status], [loan_amount] and
    [date_approved] after the loop over the detail blocks. *)
Definition structural (item : Node) : res Slots :=
  flex_container <- css sel_flex item ;;
  match flex_container with
  | [] => Ok empty_slots
  | _ :: _ =>
      blocks <- sl_css sel_blocks flex_container ;;
      structural_loop blocks empty_slots
  end.

(** The body of [for val in all_values]. *)
Definition heuristic_step (on : Recognizers) (st : Slots) (val : string) : Slots :=
  if on FLocation && negb (truthy (s_location st)) && str_in "," val
     && Nat.eqb (List.length (split "," val)) 2 then
    let parts := split "," val in
    if Nat.eqb (String.length (strip (nth 1 parts EmptyString))) 2
    then set_slot FLocation val st
    else st
  else if on FAmount && negb (truthy (s_amount st)) && startswith "$" val then
    set_slot FAmount val st
  else if on FStatus && negb (truthy (s_status st))
          && any_in status_keywords val then
    set_slot FStatus val st
  else if on FDate && negb (truthy (s_date st)) && any_in months val then
    set_slot FDate val st
  else st.

(** [if not location or not loan_amount:] and the scan it guards. *)
Definition fallback (on : Recognizers) (item : Node) (st : Slots) : res Slots :=
  if negb (truthy (s_location st)) || negb (truthy (s_amount st)) then
    all_values <- css sel_value_text item ;;
    let all_values := stripped_nonempty (getall all_values) in
    Ok (fold_left (heuristic_step on) all_values st)
  else Ok st.

Definition extract_loan_data_with
    (on : Recognizers) (item : Node) (index : nat) : res LoanData :=
  recipient_link <- css sel_recipient_link item ;;
  name_text <- sl_css sel_text recipient_link ;;
  let recipient_name := strip (get EmptyString name_text) in
  href <- sl_css sel_href recipient_link ;;
  let recipient_url := get EmptyString href in
  let recipient_url :=
    if truthy recipient_url && negb (startswith "http" recipient_url)
    then "https://projects.propublica.org" ++ recipient_url
    else recipient_url in
  st <- structural item ;;
  st <- fallback on item st ;;
  numeric <- PyFloat.parse_amount (s_amount st) ;;
  Ok {| index := index + 1;
        recipient := recipient_name;
        detail_url := recipient_url;
        location := s_location st;
        loan_status := s_status st;
        loan_amount := s_amount st;
        loan_amount_numeric := numeric;
        date_approved := s_date st;
        scraped_at := None |}.

(** [extract_loan_data(item, index)] *)
Definition extract_loan_data : Node -> nat -> res LoanData :=
  extract_loan_data_with all_on.

Definition extraction_error (idx : nat) (e : exn) (ts : string) : ErrorInfo :=
  {| err_url := None;
     error_type := "ExtractionError";
     status_code := None;
     message := "Failed to extract loan " ++ str_of_nat idx ++ ": " ++ exn_str e;
     suggestion := None;
     timestamp := ts |}.

(** The lists [loans] and [errors] while the loop runs, and the clock. *)
Record Acc := MkAcc {
  acc_loans : list LoanData;
  acc_errors : list ErrorInfo;
  acc_clock : Clock
}.

(** The body of [for idx, item in enumerate(loan_items)]. *)
Definition step (idx : nat) (item : Node) (acc : Acc) : Acc :=
  match extract_loan_data item idx with
  | Ok loan_data =>
      if truthy (recipient loan_data)
      then MkAcc (acc_loans acc ++ [loan_data])%list (acc_errors acc) (acc_clock acc)
      else acc
  | Raise e =>
      let (ts, c) := now (acc_clock acc) in
      MkAcc (acc_loans acc) (acc_errors acc ++ [extraction_error idx e ts])%list c
  end.

Fixpoint loop (idx : nat) (items : list Node) (acc : Acc) : Acc :=
  match items with
  | [] => acc
  | item :: rest => loop (S idx) rest (step idx item acc)
  end.

Record Result := MkResult {
  search_query : string;
  result_header : string;
  total_loans : nat;
  loans : list LoanData;
  errors : list ErrorInfo;
  parsed_at : string
}.

(** The fragments [parse_loan_html] iterates over. *)
Definition locate (selector : Node) : res (list Node) :=
  loan_items <- css sel_items selector ;;
  match loan_items with
  | [] => css sel_items_alt_local selector
  | _ :: _ => Ok loan_items
  end.

(** [parse_loan_html(html_content)], on the parsed document. *)
Definition parse_loan_html (selector : Node) (clock : Clock) : res (Result * Clock) :=
  q <- css sel_search_query selector ;;
  let search_query := get EmptyString q in
  h <- css sel_h1_text selector ;;
  let result_header := get EmptyString h in
  loan_items <- locate selector ;;
  let acc := loop 0 loan_items (MkAcc [] [] clock) in
  let (ts, c) := now (acc_clock acc) in
  Ok ({| search_query := search_query;
         result_header :=
           if truthy result_header then strip result_header else EmptyString;
         total_loans := List.length (acc_loans acc);
         loans := acc_loans acc;
         errors := acc_errors acc;
         parsed_at := ts |}, c).

End ParseLocal.

(* ================================================================== *)
(** ** [propublica_scraper.py] *)

Module Propublica.
Import PyStr Dom Env.

Record Response := MkResponse {
  url : string;
  status : nat;
  text : string;
  root : Node
}.

(** The lists the spider instance accumulates. *)
Record Spider := MkSpider {
  scraped_loans : list LoanData;
  errors : list ErrorInfo
}.

Section WithUrljoin.

(** [urllib.parse.urljoin]; it raises [ValueError] on some malformed
    references. *)
Variable urljoin : string -> string -> res string.

Definition structural (item : Node) : res Slots :=
  flex_container <- css sel_flex item ;;
  match flex_container with
  | [] => Ok empty_slots
  | _ :: _ =>
      detail_blocks <- sl_css sel_detail_blocks flex_container ;;
      blocks <- sl_css sel_blocks flex_container ;;
      structural_loop blocks empty_slots
  end.

(** The body of [for val in all_values]. *)
Definition heuristic_step (on : Recognizers) (st : Slots) (val : string) : Slots :=
  if on FLocation && negb (truthy (s_location st)) && str_in "," val
     && Nat.eqb (List.length (split "," val)) 2 then
    set_slot FLocation val st
  else if on FAmount && negb (truthy (s_amount st)) && startswith "$" val then
    set_slot FAmount val st
  else if on FStatus && negb (truthy (s_status st))
          && (str_in "Forgiven" val || str_in "Active" val || str_in "Paid" val) then
    set_slot FStatus val st
  else if on FDate && negb (truthy (s_date st)) && any_in months val then
    set_slot FDate val st
  else st.

(** [if not location and not loan_amount:] and the scan it guards. *)
Definition fallback (on : Recognizers) (item : Node) (st : Slots) : res Slots :=
  if negb (truthy (s_location st)) && negb (truthy (s_amount st)) then
    all_values <- css sel_value_text item ;;
    let all_values := stripped_nonempty (getall all_values) in
    Ok (fold_left (heuristic_step on) all_values st)
  else Ok st.

(** Everything [_extract_loan_data] computes before it reads the clock. *)
Definition extract_fields
    (on : Recognizers) (item : Node) (response : Response) (index : nat)
  : res (string -> LoanData) :=
  labels <- css sel_label_text item ;;
  recipient_link <- css sel_recipient_link item ;;
  name_text <- sl_css sel_text recipient_link ;;
  let recipient_name := strip (get EmptyString name_text) in
  href <- sl_css sel_href recipient_link ;;
  let recipient_url := get EmptyString href in
  recipient_url <- (if truthy recipient_url
                    then urljoin (url response) recipient_url
                    else Ok recipient_url) ;;
  value_divs <- css sel_value_divs item ;;
  st <- structural item ;;
  st <- fallback on item st ;;
  numeric <- PyFloat._parse_amount (s_amount st) ;;
  Ok (fun ts =>
        {| index := index + 1;
           recipient := recipient_name;
           detail_url := recipient_url;
           location := s_location st;
           loan_status := s_status st;
           loan_amount := s_amount st;
           loan_amount_numeric := numeric;
           date_approved := s_date st;
           scraped_at := Some ts |}).

Definition _extract_loan_data_with
    (on : Recognizers) (item : Node) (response : Response) (index : nat)
    (clock : Clock) : res LoanData * Clock :=
  match extract_fields on item response index with
  | Ok mk => let (ts, c) := now clock in (Ok (mk ts), c)
  | Raise e => (Raise e, clock)
  end.

(** [self._extract_loan_data(item, response, index)] *)
Definition _extract_loan_data :
  Node -> Response -> nat -> Clock -> res LoanData * Clock :=
  _extract_loan_data_with all_on.

Definition extraction_error (idx : nat) (e : exn) (ts : string) : ErrorInfo :=
  {| err_url := None;
     error_type := "ExtractionError";
     status_code := None;
     message := "Failed to extract loan " ++ str_of_nat idx ++ ": " ++ exn_str e;
     suggestion := None;
     timestamp := ts |}.

Definition http_error (response : Response) (ts : string) : ErrorInfo :=
  {| err_url := Some (url response);
     error_type := "HTTPError";
     status_code := Some (status response);
     message := "HTTP " ++ str_of_nat (status response) ++ " error";
     suggestion := None;
     timestamp := ts |}.

Definition no_data_found (response : Response) (ts : string) : ErrorInfo :=
  {| err_url := Some (url response);
     error_type := "NoDataFound";
     status_code := None;
     message := "No loan entries found on page. The page structure may have changed.";
     suggestion := None;
     timestamp := ts |}.

(** What one call of [parse] has yielded so far, the spider and the
    clock. *)
Record Acc := MkAcc {
  acc_yielded : list LoanData;
  acc_self : Spider;
  acc_clock : Clock
}.

Definition add_error (mk : string -> ErrorInfo) (acc : Acc) : Acc :=
  let (ts, c) := now (acc_clock acc) in
  MkAcc (acc_yielded acc)
        (MkSpider (scraped_loans (acc_self acc))
                  (errors (acc_self acc) ++ [mk ts])%list)
        c.

(** The body of [for idx, item in enumerate(loan_items)]. *)
Definition step (response : Response) (idx : nat) (item : Node) (acc : Acc) : Acc :=
  match _extract_loan_data item response idx (acc_clock acc) with
  | (Ok loan_data, c) =>
      if truthy (recipient loan_data)
      then MkAcc (acc_yielded acc ++ [loan_data])%list
                 (MkSpider (scraped_loans (acc_self acc) ++ [loan_data])%list
                           (errors (acc_self acc)))
                 c
      else MkAcc (acc_yielded acc) (acc_self acc) c
  | (Raise e, c) =>
      add_error (extraction_error idx e)
                (MkAcc (acc_yielded acc) (acc_self acc) c)
  end.

Fixpoint loop (response : Response) (idx : nat) (items : list Node) (acc : Acc) : Acc :=
  match items with
  | [] => acc
  | item :: rest => loop response (S idx) rest (step response idx item acc)
  end.

(** [self._extract_search_info(response)] *)
Definition _extract_search_info (response : Response) : res (string * string) :=
  q <- css sel_search_query (root response) ;;
  let search_value := get EmptyString q in
  h <- css sel_h1_text (root response) ;;
  let result_header := get EmptyString h in
  Ok (search_value,
      if truthy result_header then strip result_header else EmptyString).

(** The fragments [parse] iterates over. *)
Definition locate (response : Response) : res (list Node) :=
  loan_items <- css sel_items (root response) ;;
  match loan_items with
  | [] => css sel_items_alt_spider (root response)
  | _ :: _ => Ok loan_items
  end.

(** [PropublicaLoanSpider.parse(response)], run to the end of the
    generator: the exception that escapes it, if any, and what was
    yielded, the spider and the clock at that point. *)
Definition parse (self : Spider) (response : Response) (clock : Clock)
  : option exn * Acc :=
  let start := MkAcc [] self clock in
  if Nat.leb 400 (status response) then
    (None, add_error (http_error response) start)
  else
    match _extract_search_info response with
    | Raise e => (Some e, start)
    | Ok search_info =>
        match locate response with
        | Raise e => (Some e, start)
        | Ok [] => (None, add_error (no_data_found response) start)
        | Ok loan_items => (None, loop response 0 loan_items start)
        end
    end.

(** [parse] from its first lines, on whatever the engine delivers: the
    third log line takes [len(response.text)] before the status is looked
    at, so on a response without text the call ends there, with nothing
    yielded and nothing recorded.  On a text response it is [parse]. *)
Definition parse_delivered
    (self : Spider) (delivered : Delivered Response) (clock : Clock)
  : option exn * Acc :=
  match delivered with
  | Text response => parse self response clock
  | NotText _ _ => (Some not_text, MkAcc [] self clock)
  end.

End WithUrljoin.

End Propublica.

(* ================================================================== *)
(** ** [wordpress_scraper.py]: the response gate *)

Module WordPress.
Import PyStr Env.

(** What [parse] reads of a response.  [header_server] and
    [header_cf_ray] are [response.headers.get] of [Server] and [CF-RAY],
    [None] when the header is absent. *)
Record Response := MkResponse {
  url : string;
  status : nat;
  text : string;
  header_server : option string;
  header_cf_ray : option string
}.

Definition cloudflare_indicators : list string :=
  ["cf-browser-verification"; "cloudflare"; "cf_clearance";
   "Checking your browser"; "DDoS protection by Cloudflare"; "ray ID"].

Definition cloudflare_statuses : list nat := [503; 520; 521; 522; 523; 524].

(** [response.text.lower() if response.text else ''] *)
Definition body_text (response : Response) : string :=
  if truthy (text response) then lower (text response) else EmptyString.

(** The loop over [cloudflare_indicators]: some indicator, lowered,
    occurs in the lowered body. *)
Definition indicator_in_body (response : Response) : bool :=
  existsb (fun indicator => str_in (lower indicator) (body_text response))
          cloudflare_indicators.

(** The header check: the server names the vendor, a non-empty [CF-RAY]
    is present and the status is an error status. *)
Definition edge_header_match (response : Response) : bool :=
  let server_header :=
    match header_server response with Some s => s | None => EmptyString end in
  if str_in "cloudflare" (lower server_header) then
    match header_cf_ray response with
    | Some cf_ray => truthy cf_ray && Nat.leb 400 (status response)
    | None => false
    end
  else false.

(** [self._is_cloudflare_challenge(response)] *)
Definition _is_cloudflare_challenge (response : Response) : bool :=
  if existsb (Nat.eqb (status response)) cloudflare_statuses then true
  else if indicator_in_body response then true
  else edge_header_match response.

(** The table [error_messages] of [_handle_http_error]. *)
Definition error_messages : list (nat * (string * string)) :=
  [(400, ("Bad Request", "The server couldn't understand the request. Check URL format."));
   (401, ("Unauthorized", "Authentication required. The page might need login credentials."));
   (403, ("Forbidden", "Access denied. The server refuses to fulfill the request."));
   (404, ("Not Found", "The requested page doesn't exist. Check if the URL is correct."));
   (429, ("Too Many Requests", "Rate limited. Add delays between requests."));
   (500, ("Internal Server Error", "Server-side error. The website might be experiencing issues."));
   (502, ("Bad Gateway", "The server received an invalid response. Try again later."));
   (503, ("Service Unavailable", "Server temporarily unavailable. Could be maintenance or overload."))].

(** [error_messages.get(status, (f"HTTP Error {status}", ...))] *)
Definition lookup_message (status : nat) : string * string :=
  match find (fun kv => Nat.eqb (fst kv) status) error_messages with
  | Some (_, v) => v
  | None => ("HTTP Error " ++ str_of_nat status, "Unexpected HTTP error occurred.")
  end.

Definition http_error (response : Response) (ts : string) : ErrorInfo :=
  let (error_name, suggestion) := lookup_message (status response) in
  {| err_url := Some (url response);
     error_type := "HTTPError";
     status_code := Some (status response);
     message := error_name;
     suggestion := Some suggestion;
     timestamp := ts |}.

Definition cloudflare_error (response : Response) (ts : string) : ErrorInfo :=
  {| err_url := Some (url response);
     error_type := "CloudflareProtection";
     status_code := Some (status response);
     message := "Cloudflare anti-bot challenge detected";
     suggestion := None;
     timestamp := ts |}.

Definition page_error (response : Response) (e : exn) (ts : string) : ErrorInfo :=
  {| err_url := Some (url response);
     error_type := "ExtractionError";
     status_code := None;
     message := "Failed to extract data: " ++ exn_str e;
     suggestion := None;
     timestamp := ts |}.

Section WithExtractor.

(** The page dictionary and [self._extract_page_data]: the gate decides
    whether the extractor is called, not what it does, so it is taken
    as it comes. *)
Variable PageData : Type.
Variable _extract_page_data : Response -> Clock -> res PageData * Clock.

Record Spider := MkSpider {
  scraped_data : list PageData;
  errors : list ErrorInfo
}.

(** [self._handle_http_error(response)] *)
Definition _handle_http_error
    (self : Spider) (response : Response) (clock : Clock) : Spider * Clock :=
  let (ts, c) := now clock in
  (MkSpider (scraped_data self) (errors self ++ [http_error response ts])%list, c).

(** [WordPressSpider.parse(response)], run to the end of the generator:
    what it yielded, the spider and the clock. *)
Definition parse (self : Spider) (response : Response) (clock : Clock)
  : list PageData * Spider * Clock :=
  if _is_cloudflare_challenge response then
    let (ts, c) := now clock in
    ([], MkSpider (scraped_data self)
                  (errors self ++ [cloudflare_error response ts])%list, c)
  else if Nat.leb 400 (status response) then
    let (self', c) := _handle_http_error self response clock in
    ([], self', c)
  else
    match _extract_page_data response clock with
    | (Ok data, c) =>
        ([data], MkSpider (scraped_data self ++ [data])%list (errors self), c)
    | (Raise e, c) =>
        let (ts, c') := now c in
        ([], MkSpider (scraped_data self)
                      (errors self ++ [page_error response e ts])%list, c')
    end.

(** [parse] from its first statement, on whatever the engine delivers:
    [_is_cloudflare_challenge] reads [response.text] before it looks at the
    status, outside any [try], so on a response without text the exception
    escapes with nothing yielded and nothing recorded.  On a text response
    nothing escapes and the run is [parse]. *)
Definition parse_delivered
    (self : Spider) (delivered : Delivered Response) (clock : Clock)
  : option exn * (list PageData * Spider * Clock) :=
  match delivered with
  | Text response => (None, parse self response clock)
  | NotText _ _ => (Some not_text, ([], self, clock))
  end.

End WithExtractor.

Arguments MkSpider {PageData} _ _.
Arguments scraped_data {PageData} _.
Arguments errors {PageData} _.
Arguments _handle_http_error {PageData} _ _ _.
Arguments parse {PageData} _ _ _ _.
Arguments parse_delivered {PageData} _ _ _ _.

End WordPress.

(* ================================================================== *)
(** ** Sample documents *)

Module Samples.
Import PyStr Dom Env.

(** A clock whose n-th reading is the text [T] followed by [n]. *)
Definition ticking : Clock := MkClock (fun n => "T" ++ str_of_nat n) 0.

Definition value_block (label value : string) : Node :=
  MkNode EmptyString
    [(sel_label_text, Ok [text_node label]);
     (sel_value_text, Ok [text_node value])].

(** A list item: the recipient link (its text and address), the detail
    blocks of its flex container, and the loose value texts. *)
Definition item_of (name href : string) (blocks : list Node)
                   (values : list string) : Node :=
  MkNode EmptyString
    [(sel_recipient_link,
      Ok [MkNode EmptyString
            [(sel_text, Ok [text_node name]);
             (sel_href, Ok [text_node href])]]);
     (sel_flex, Ok [MkNode EmptyString [(sel_blocks, Ok blocks)]]);
     (sel_value_text, Ok (map text_node values))].

(** An item on which the adapter raises as soon as it is queried. *)
Definition broken_item : Node :=
  MkNode EmptyString
    [(sel_label_text, Raise (MkExn OtherError "boom"));
     (sel_recipient_link, Raise (MkExn OtherError "boom"))].

Definition page_of (items : list Node) : Node :=
  MkNode EmptyString
    [(sel_search_query, Ok [text_node "90210 medical"]);
     (sel_h1_text, Ok [text_node " Results "]);
     (sel_items, Ok items)].

(** [urljoin] on the sample pages: an absolute reference stands, any
    other is appended to the base. *)
Definition join (base ref : string) : res string :=
  if startswith "http" ref then Ok ref else Ok (base ++ ref).

Definition acme : Node :=
  item_of "ACME LLC" "/loans/1"
    [value_block "Location" "Austin, TX";
     value_block "Loan Amount" "$1,234,567.00"]
    ["Austin, TX"; "$1,234,567.00"; "Forgiven"; "April 3, 2020"].

Definition nameless : Node :=
  item_of " " "" [] ["Dallas, TX"].

Definition zenith : Node :=
  item_of "Zenith Inc" "http://z.example/2" [] ["Some Place, Texas"; "$5"].

(** An item whose blocks give the amount but not the location. *)
Definition halfway : Node :=
  item_of "Half Way Ltd" "/loans/3"
    [value_block "Loan Amount" "$10"]
    ["Waco, TX"; "$10"].

(** A page of four fragments: a record, a fragment the adapter fails on,
    a fragment without a name, a record. *)
Definition mixed_page : Node := page_of [acme; broken_item; nameless; zenith].

(** A page on which neither boundary selector finds a fragment. *)
Definition empty_page : Node := page_of [].

Definition spider_response (page : Node) : Propublica.Response :=
  Propublica.MkResponse "https://p.example/search" 200 EmptyString page.

Definition fresh_spider : Propublica.Spider := Propublica.MkSpider [] [].

(** Responses for the gate. *)
Definition unavailable : WordPress.Response :=
  WordPress.MkResponse "https://w.example/" 503 "<html>maintenance</html>" None None.

Definition missing_page : WordPress.Response :=
  WordPress.MkResponse "https://w.example/nothing" 404
    "<html>There is nothing here</html>" (Some "nginx") None.

Definition missing_page_behind_edge : WordPress.Response :=
  WordPress.MkResponse "https://w.example/nothing" 404
    "<html>There is nothing here. Performance by Cloudflare</html>" None None.

Definition ordinary_page : WordPress.Response :=
  WordPress.MkResponse "https://w.example/" 200
    "<html><h1>Hello</h1></html>" (Some "nginx") None.

(** A page extractor that returns the address of the response. *)
Definition address_of (r : WordPress.Response) (c : Clock) : res string * Clock :=
  (Ok (WordPress.url r), c).

(** A detail block with a label and an empty value element. *)
Definition label_block (label : string) : Node :=
  MkNode EmptyString [(sel_label_text, Ok [text_node label])].

(** An item with a loose value ahead of its flex container and two blocks
    labelled [Location], the second of them empty.  The loose values are the
    value texts of the whole item in document order. *)
Definition overwritten : Node :=
  item_of "Twice Ltd" "/loans/4"
    [value_block "Location" "Austin, TX"; label_block "Location"]
    ["Waco, TX"; "Austin, TX"].

(** A missing page with an ordinary body, served with the headers of the
    edge vendor. *)
Definition missing_page_edge_headers : WordPress.Response :=
  WordPress.MkResponse "https://w.example/nothing" 404
    "<html>There is nothing here</html>"
    (Some "cloudflare") (Some "8a1b2c3d4e5f-AMS").

(** Responses whose content is not text. *)
Definition image_503 : Delivered WordPress.Response :=
  NotText "https://w.example/logo.png" 503.

Definition image_404 : Delivered Propublica.Response :=
  NotText "https://p.example/logo.png" 404.

End Samples.

(* ================================================================== *)
(** ** What does not depend on the clock *)

Module Trace.
Import PyStr Dom Env.

(** An error entry without its time stamp. *)
Definition untimed (e : ErrorInfo) : ErrorInfo :=
  MkError (err_url e) (error_type e) (status_code e) (message e) (suggestion e)
          EmptyString.

(** A loan dictionary without its [scraped_at] key. *)
Definition unstamped (d : LoanData) : LoanData :=
  MkLoan (index d) (recipient d) (detail_url d) (location d) (loan_status d)
         (loan_amount d) (loan_amount_numeric d) (date_approved d) None.

(** The records the loop of [parse_loan_html] appends for the fragments
    [items], the first of which has position [idx]. *)
Fixpoint local_records (idx : nat) (items : list Node) : list LoanData :=
  match items with
  | [] => []
  | item :: rest =>
      match ParseLocal.extract_loan_data item idx with
      | Ok d =>
          if truthy (recipient d)
          then d :: local_records (S idx) rest
          else local_records (S idx) rest
      | Raise _ => local_records (S idx) rest
      end
  end.

(** The error entries it appends, without their time stamps. *)
Fixpoint local_failures (idx : nat) (items : list Node) : list ErrorInfo :=
  match items with
  | [] => []
  | item :: rest =>
      match ParseLocal.extract_loan_data item idx with
      | Ok _ => local_failures (S idx) rest
      | Raise e =>
          ParseLocal.extraction_error idx e EmptyString
          :: local_failures (S idx) rest
      end
  end.

(** The spider's accumulator with nothing yielded and nothing stored. *)
Definition blank (c : Clock) : Propublica.Acc :=
  Propublica.MkAcc [] (Propublica.MkSpider [] []) c.

Section Spider.

Variable urljoin : string -> string -> res string.
Variable response : Propublica.Response.

(** The records the loop of the spider yields, without their stamps. *)
Fixpoint spider_records (idx : nat) (items : list Node) : list LoanData :=
  match items with
  | [] => []
  | item :: rest =>
      match Propublica.extract_fields urljoin all_on item response idx with
      | Ok mk =>
          if truthy (recipient (mk EmptyString))
          then unstamped (mk EmptyString) :: spider_records (S idx) rest
          else spider_records (S idx) rest
      | Raise _ => spider_records (S idx) rest
      end
  end.

(** The error entries it appends, without their time stamps. *)
Fixpoint spider_failures (idx : nat) (items : list Node) : list ErrorInfo :=
  match items with
  | [] => []
  | item :: rest =>
      match Propublica.extract_fields urljoin all_on item response idx with
      | Ok _ => spider_failures (S idx) rest
      | Raise e =>
          Propublica.extraction_error idx e EmptyString
          :: spider_failures (S idx) rest
      end
  end.

End Spider.

End Trace.

(* ================================================================== *)
(** ** [wordpress_scraper.py]: the page extractors *)

Module WordPressPage.
Import PyStr Dom Env.

(** [sl.get()] without a default: [None] when nothing matched. *)
Definition get_opt (sl : list Node) : option string :=
  match sl with
  | [] => None
  | n :: _ => Some (data n)
  end.

(** Truth value of [None] or a string. *)
Definition truthy_opt (o : option string) : bool :=
  match o with
  | Some s => truthy s
  | None => false
  end.

(** [sep.join(xs)] *)
Fixpoint join_with (sep : string) (xs : list string) : string :=
  match xs with
  | [] => EmptyString
  | [x] => x
  | x :: rest => x ++ sep ++ join_with sep rest
  end.

(** A dictionary with string keys, in insertion order. *)
Definition dict (V : Type) : Type := list (string * V).

(** [d.get(k)] *)
Fixpoint dict_get {V : Type} (k : string) (d : dict V) : option V :=
  match d with
  | [] => None
  | (k', v) :: rest => if String.eqb k' k then Some v else dict_get k rest
  end.

(** [d[k] = v]: the value of an existing key is replaced where it stands, a
    new key goes to the end. *)
Fixpoint dict_set {V : Type} (k : string) (v : V) (d : dict V) : dict V :=
  match d with
  | [] => [(k, v)]
  | (k', v') :: rest =>
      if String.eqb k' k then (k, v) :: rest else (k', v') :: dict_set k v rest
  end.

(** The class attribute [WP_SELECTORS]. *)
Definition WP_SELECTORS : dict (list string) :=
  [("post_title", ["h1.entry-title"; "h1.post-title"; ".entry-header h1"; "article h1"]);
   ("post_content", [".entry-content"; ".post-content"; "article .content"; ".single-content"]);
   ("post_meta", [".entry-meta"; ".post-meta"; ".byline"]);
   ("categories", [".cat-links a"; ".post-categories a"; ".entry-categories a"]);
   ("tags", [".tag-links a"; ".post-tags a"; ".entry-tags a"]);
   ("author", [".author-name"; ".entry-author"; ".post-author a"]);
   ("date", [".entry-date"; ".post-date"; "time.published"]);
   ("comments", [".comments-area"; "#comments"; ".comment-list"])].

Definition wp_indicators : list string :=
  ["wp-content"; "wp-includes"; "wp-json"; "wordpress"; "/wp-admin"].

Definition sel_title_text : string := "title::text".
Definition sel_description : string :=
  "meta[name=" ++ dquote ++ "description" ++ dquote ++ "]::attr(content)".
Definition sel_canonical : string :=
  "link[rel=" ++ dquote ++ "canonical" ++ dquote ++ "]::attr(href)".
Definition sel_language : string := "html::attr(lang)".
Definition sel_anchors : string := "a[href]".
Definition sel_img : string := "img".
Definition sel_src : string := "::attr(src)".
Definition sel_alt : string := "::attr(alt)".
Definition sel_meta : string := "meta".
Definition sel_name : string := "::attr(name)".
Definition sel_property : string := "::attr(property)".
Definition sel_content : string := "::attr(content)".
Definition sel_all_text : string := "*::text".

(** The dictionary [_extract_basic_info] returns. *)
Record BasicInfo := MkBasicInfo {
  title : string;
  h1 : list string;
  description : string;
  canonical_url : string;
  language : string
}.

(** [self._extract_basic_info(response)] on the document of the response. *)
Definition _extract_basic_info (root : Node) : res BasicInfo :=
  t <- css sel_title_text root ;;
  h <- css sel_h1_text root ;;
  d <- css sel_description root ;;
  c <- css sel_canonical root ;;
  l <- css sel_language root ;;
  Ok {| title := strip (get EmptyString t);
        h1 := getall h;
        description := get EmptyString d;
        canonical_url := get EmptyString c;
        language := get EmptyString l |}.

(** The inner loop of [_extract_wordpress_content] over the selectors of
    one field, with its [else] branch: the texts of the first selector that
    matches anything, stripped, the empty ones left out. *)
Fixpoint first_content (root : Node) (selectors : list string) : res (list string) :=
  match selectors with
  | [] => Ok []
  | selector :: rest =>
      c <- css (selector ++ "::text") root ;;
      match getall c with
      | [] => first_content root rest
      | content => Ok (stripped_nonempty content)
      end
  end.

(** The outer loop over [WP_SELECTORS.items()]. *)
Fixpoint content_fields (root : Node) (table : dict (list string))
  : res (dict (list string)) :=
  match table with
  | [] => Ok []
  | (field, selectors) :: rest =>
      c <- first_content root selectors ;;
      r <- content_fields root rest ;;
      Ok ((field, c) :: r)
  end.

(** The loop that fills [main_content_text]: the first content selector
    with a match gives the texts inside its first match, joined by blanks;
    [None] when the key is not set.  The texts are those of the document
    re-read from the markup of the match. *)
Fixpoint main_content (root : Node) (selectors : list string) : res (option string) :=
  match selectors with
  | [] => Ok None
  | selector :: rest =>
      m <- css selector root ;;
      match m with
      | n :: _ =>
          if truthy (data n) then
            content_text <- css sel_all_text n ;;
            Ok (Some (join_with " " (stripped_nonempty (getall content_text))))
          else main_content root rest
      | [] => main_content root rest
      end
  end.

(** [self._detect_wordpress(response)] *)
Definition _detect_wordpress (response : WordPress.Response) : bool :=
  let body :=
    if truthy (WordPress.text response)
    then lower (WordPress.text response) else EmptyString in
  existsb (fun indicator => str_in indicator body) wp_indicators.

(** The dictionary [_extract_wordpress_content] returns: the eight fields,
    [main_content_text] when it was set, and [is_wordpress]. *)
Record WpContent := MkWpContent {
  wp_fields : dict (list string);
  main_content_text : option string;
  is_wordpress : bool
}.

(** [self._extract_wordpress_content(response)] *)
Definition _extract_wordpress_content
    (root : Node) (response : WordPress.Response) : res WpContent :=
  fields <- content_fields root WP_SELECTORS ;;
  let content_selectors :=
    match dict_get "post_content" WP_SELECTORS with
    | Some l => l
    | None => []
    end in
  main <- main_content root content_selectors ;;
  Ok {| wp_fields := fields;
        main_content_text := main;
        is_wordpress := _detect_wordpress response |}.

Record Link := MkLink { link_url : string; link_text : string }.
Record Image := MkImage { image_url : string; image_alt : string }.

(** The dictionary [_extract_page_data] returns. *)
Record PageData := MkPageData {
  pd_url : string;
  pd_scraped_at : string;
  pd_status_code : nat;
  pd_basic_info : BasicInfo;
  pd_wordpress_content : WpContent;
  pd_links : list Link;
  pd_images : list Image;
  pd_meta_data : dict string
}.

Section WithUrljoin.

(** [response.urljoin]; it raises [ValueError] on some malformed
    references. *)
Variable urljoin : WordPress.Response -> string -> res string.

(** The loop of [_extract_links] over the anchors. *)
Fixpoint collect_links (response : WordPress.Response) (anchors : list Node)
  : res (list Link) :=
  match anchors with
  | [] => Ok []
  | link :: rest =>
      h <- css sel_href link ;;
      let href := get_opt h in
      t <- css sel_text link ;;
      let text := strip (get EmptyString t) in
      match href with
      | Some href' =>
          if truthy href' then
            u <- urljoin response href' ;;
            more <- collect_links response rest ;;
            Ok (MkLink u text :: more)
          else collect_links response rest
      | None => collect_links response rest
      end
  end.

(** [self._extract_links(response)] *)
Definition _extract_links (root : Node) (response : WordPress.Response)
  : res (list Link) :=
  anchors <- css sel_anchors root ;;
  links <- collect_links response anchors ;;
  Ok (firstn 100 links).

(** The loop of [_extract_images] over the images. *)
Fixpoint collect_images (response : WordPress.Response) (imgs : list Node)
  : res (list Image) :=
  match imgs with
  | [] => Ok []
  | img :: rest =>
      s <- css sel_src img ;;
      let src := get_opt s in
      a <- css sel_alt img ;;
      let alt := get EmptyString a in
      match src with
      | Some src' =>
          if truthy src' then
            u <- urljoin response src' ;;
            more <- collect_images response rest ;;
            Ok (MkImage u alt :: more)
          else collect_images response rest
      | None => collect_images response rest
      end
  end.

(** [self._extract_images(response)] *)
Definition _extract_images (root : Node) (response : WordPress.Response)
  : res (list Image) :=
  imgs <- css sel_img root ;;
  images <- collect_images response imgs ;;
  Ok (firstn 50 images).

(** What one [meta] tag contributes: its name, or else its property, and
    its content. *)
Definition read_meta (tag : Node) : res (option string * option string) :=
  n <- css sel_name tag ;;
  name <- (if truthy_opt (get_opt n) then Ok (get_opt n)
           else p <- css sel_property tag ;; Ok (get_opt p)) ;;
  c <- css sel_content tag ;;
  Ok (name, get_opt c).

(** The loop of [_extract_meta_data] over the tags. *)
Fixpoint collect_meta (tags : list Node) (meta : dict string) : res (dict string) :=
  match tags with
  | [] => Ok meta
  | tag :: rest =>
      nc <- read_meta tag ;;
      match nc with
      | (Some name, Some content) =>
          if truthy name && truthy content
          then collect_meta rest (dict_set name content meta)
          else collect_meta rest meta
      | _ => collect_meta rest meta
      end
  end.

(** [self._extract_meta_data(response)] *)
Definition _extract_meta_data (root : Node) : res (dict string) :=
  tags <- css sel_meta root ;;
  collect_meta tags [].

(** [self._extract_page_data(response)] on the document of the response:
    the clock is read first, for [scraped_at]. *)
Definition _extract_page_data
    (root : Node) (response : WordPress.Response) (clock : Clock)
  : res PageData * Clock :=
  let (ts, c) := now clock in
  (basic <- _extract_basic_info root ;;
   wp <- _extract_wordpress_content root response ;;
   links <- _extract_links root response ;;
   images <- _extract_images root response ;;
   meta <- _extract_meta_data root ;;
   Ok {| pd_url := WordPress.url response;
         pd_scraped_at := ts;
         pd_status_code := WordPress.status response;
         pd_basic_info := basic;
         pd_wordpress_content := wp;
         pd_links := links;
         pd_images := images;
         pd_meta_data := meta |},
   c).

End WithUrljoin.

End WordPressPage.

(* ================================================================== *)
(** ** [preview_csv.py] *)

Module PreviewCsv.

(** A line written to the standard output: [print(f"Row {i}: {row}")],
    kept by its two arguments, or an error line. *)
Inductive printed :=
| RowLine (i : nat) (row : list string)
| ErrorLine (msg : string).

(** What [open] and [csv.reader] give: no such file, another exception, or
    the rows as the reader will deliver them one by one, each a row or the
    exception raised when it is asked for. *)
Inductive opened :=
| NotFound
| OpenFailed (e : exn)
| Reader (rows : list (res (list string))).

(** The [for i, row in enumerate(reader)] loop from position [i]: the
    lines printed, and the exception that ended the loop, if any.  A row is
    taken from the reader before [i >= rows] is tested. *)
Fixpoint preview_loop (rows : Z) (i : nat) (reader : list (res (list string)))
  : list printed * option exn :=
  match reader with
  | [] => ([], None)
  | Raise e :: _ => ([], Some e)
  | Ok row :: rest =>
      if (rows <=? Z.of_nat i)%Z then ([], None)
      else
        let (out, r) := preview_loop rows (S i) rest in
        (RowLine i row :: out, r)
  end.

(** [preview_csv(file_path, rows)]: the lines printed and the status
    [sys.exit] was called with, [None] when the function returns. *)
Definition preview_csv (file_path : string) (file : opened) (rows : Z)
  : list printed * option nat :=
  match file with
  | NotFound => ([ErrorLine ("ERROR: File not found: " ++ file_path)], Some 1)
  | OpenFailed e => ([ErrorLine ("ERROR: " ++ exn_str e)], Some 1)
  | Reader rs =>
      match preview_loop rows 0 rs with
      | (out, None) => (out, None)
      | (out, Some e) => ((out ++ [ErrorLine ("ERROR: " ++ exn_str e)])%list, Some 1)
      end
  end.

(** The default of the parameter [rows]. *)
Definition default_rows : Z := 10%Z.

End PreviewCsv.

(* ================================================================== *)
(** ** More sample documents *)

Module MoreSamples.
Import PyStr Dom Env WordPressPage.

(** [response.urljoin] on the sample pages: absolute references stand, a
    reference with a bracket raises, any other is appended to the address
    of the response. *)
Definition page_join (r : WordPress.Response) (ref : string) : res string :=
  if str_in "[" ref then Raise (MkExn ValueError "Invalid IPv6 URL")
  else if startswith "http" ref then Ok ref
  else Ok (WordPress.url r ++ ref).

Definition anchor (href text : string) : Node :=
  MkNode EmptyString
    [(sel_href, Ok [text_node href]); (sel_text, Ok [text_node text])].

Definition meta_tag (name content : string) : Node :=
  MkNode EmptyString
    [(sel_name, Ok [text_node name]); (sel_content, Ok [text_node content])].

(** A post: a title under the second title selector, whose first title
    selector matches nothing. *)
Definition post_page : Node :=
  MkNode EmptyString
    [(sel_title_text, Ok [text_node " A post "]);
     ("h1.post-title::text", Ok [text_node " Hello "; text_node "  "]);
     ("article h1::text", Ok [text_node "Other"]);
     (".entry-content", Ok [MkNode "<div>text</div>"
                              [(sel_all_text, Ok [text_node " some "; text_node "text"])]]);
     (sel_anchors, Ok [anchor "/a" " first "; anchor "" "empty"; anchor "http://x.example/" "x"]);
     (sel_meta, Ok [meta_tag "author" "A"; meta_tag "author" "B"])].

(** The same post with a malformed link. *)
Definition bad_link_page : Node :=
  MkNode EmptyString
    [(sel_anchors, Ok [anchor "http://[bad" "bad"])].

(** A fragment without detail blocks whose only loose value is an amount
    with a thousands separator. *)
Definition thousand : Node :=
  Samples.item_of "Kilo Corp" "/loans/9" [] ["$1,000"].

(** A page served through the edge vendor with status 200. *)
Definition edge_served : WordPress.Response :=
  WordPress.MkResponse "https://w.example/" 200 "<html><h1>Hello</h1></html>"
    (Some "cloudflare") (Some "8a1b2c3d4e5f-AMS").

(** A challenge page, and the same page in capitals. *)
Definition challenge_page : WordPress.Response :=
  WordPress.MkResponse "https://w.example/" 200
    "<title>Just a moment</title> checking your browser" None None.

Definition shouting_challenge_page : WordPress.Response :=
  WordPress.MkResponse "https://w.example/" 200
    "<TITLE>JUST A MOMENT</TITLE> CHECKING YOUR BROWSER" None None.

(** A WordPress page, and the same page in capitals. *)
Definition wp_response : WordPress.Response :=
  WordPress.MkResponse "https://w.example/" 200
    "<link href=/wp-content/themes/x.css>" None None.

Definition shouting_wp_response : WordPress.Response :=
  WordPress.MkResponse "https://w.example/" 200
    "<LINK HREF=/WP-CONTENT/THEMES/X.CSS>" None None.

End MoreSamples.

(* ================================================================== *)
(** ** Properties of the field normalizer *)

Import PyStr PyFloat Dom Env Samples Trace.

Lemma float_of_str_raises_value_error (s : string) (e : exn) :
  float_of_str s = Raise e -> exn_cls e = ValueError.
Proof.
  unfold float_of_str.
  destruct (take_sign _) as [neg body].
  destruct (_ || _); [discriminate|].
  destruct (String.eqb _ _); [discriminate|].
  destruct (floatnumber body); [discriminate|].
  intros H; inversion H; reflexivity.
Qed.

Lemma parse_amount_unfold (s : string) :
  parse_amount s =
  if truthy s then
    match float_of_str (remove_money_chars s) with
    | Ok v => Ok (Some v)
    | Raise _ => Ok None
    end
  else Ok None.
Proof.
  unfold parse_amount, catch_value_type.
  destruct (truthy s); simpl; [|reflexivity].
  destruct (float_of_str (remove_money_chars s)) as [v|e] eqn:E; [reflexivity|].
  rewrite (float_of_str_raises_value_error _ _ E); reflexivity.
Qed.



(* ================================================================== *)
(** ** Properties of the heuristic location recognizer *)

Lemma split_without_separator (sep : ascii) (s : string) :
  str_in (String sep EmptyString) s = false -> split sep s = [s].
Proof.
  induction s as [|c s IH]; simpl; [reflexivity|].
  destruct (ascii_dec sep c) as [->|Hne].
  - destruct s; simpl; discriminate.
  - simpl. intros H.
    assert (E : Ascii.eqb c sep = false) by (apply Ascii.eqb_neq; congruence).
    rewrite E, (IH H). reflexivity.
Qed.

Lemma two_parts_have_separator (sep : ascii) (s : string) :
  List.length (split sep s) = 2 -> str_in (String sep EmptyString) s = true.
Proof.
  intros H. destruct (str_in (String sep EmptyString) s) eqn:E; [reflexivity|].
  rewrite (split_without_separator _ _ E) in H. discriminate.
Qed.

Lemma comma_test_redundant (val : string) :
  str_in "," val && Nat.eqb (List.length (split "," val)) 2
  = Nat.eqb (List.length (split "," val)) 2.
Proof.
  destruct (Nat.eqb (List.length (split "," val)) 2) eqn:E.
  - apply Nat.eqb_eq in E. rewrite (two_parts_have_separator _ _ E). reflexivity.
  - apply andb_false_r.
Qed.

(** The recognizer of [parse_local_html.py]: with the location still
    empty, a value becomes the location exactly when it has two
    comma-separated parts and the second, stripped, has length 2. *)
Lemma local_location_recognizer (st : Slots) (val : string) :
  s_location (ParseLocal.heuristic_step all_on (set_slot FLocation EmptyString st) val)
  = if Nat.eqb (List.length (split "," val)) 2
       && Nat.eqb (String.length (strip (nth 1 (split "," val) EmptyString))) 2
    then val else EmptyString.
Proof.
  unfold ParseLocal.heuristic_step. simpl.
  rewrite comma_test_redundant.
  destruct (Nat.eqb (List.length (split "," val)) 2); simpl.
  - destruct (Nat.eqb _ 2); reflexivity.
  - repeat match goal with |- context [if ?b then _ else _] => destruct b end;
      reflexivity.
Qed.

(** The recognizer of [propublica_scraper.py]: two comma-separated parts
    are enough, whatever the length of the second. *)
Lemma spider_location_recognizer (st : Slots) (val : string) :
  s_location (Propublica.heuristic_step all_on (set_slot FLocation EmptyString st) val)
  = if Nat.eqb (List.length (split "," val)) 2 then val else EmptyString.
Proof.
  unfold Propublica.heuristic_step. simpl.
  rewrite comma_test_redundant.
  destruct (Nat.eqb (List.length (split "," val)) 2); simpl; [reflexivity|].
  repeat match goal with |- context [if ?b then _ else _] => destruct b end;
    reflexivity.
Qed.

(** C6.  In [parse_local_html.py] the location recognizer accepts a value
    exactly when it splits on the comma into two parts and the second,
    stripped, has length 2: "Austin, TX" is accepted, "Some Place, Texas" is
    not.  In [propublica_scraper.py] the length test is missing: any value of
    two comma-separated parts is accepted, and "Some Place, Texas" becomes
    the location of the record. *)
Theorem location_recognizer_region_code :
  (forall st val,
     s_location (ParseLocal.heuristic_step all_on (set_slot FLocation EmptyString st) val)
     = if Nat.eqb (List.length (split "," val)) 2
          && Nat.eqb (String.length (strip (nth 1 (split "," val) EmptyString))) 2
       then val else EmptyString)
  /\ s_location (ParseLocal.heuristic_step all_on empty_slots "Austin, TX") = "Austin, TX"
  /\ s_location (ParseLocal.heuristic_step all_on empty_slots "Some Place, Texas") = ""
  /\ (forall st val,
        s_location (Propublica.heuristic_step all_on (set_slot FLocation EmptyString st) val)
        = if Nat.eqb (List.length (split "," val)) 2 then val else EmptyString)
  /\ s_location (Propublica.heuristic_step all_on empty_slots "Austin, TX") = "Austin, TX"
  /\ s_location (Propublica.heuristic_step all_on empty_slots "Some Place, Texas")
     = "Some Place, Texas"
  /\ (exists d,
        fst (Propublica._extract_loan_data join zenith
               (Propublica.MkResponse "https://p.example" 200 "" (page_of [zenith]))
               0 ticking) = Ok d
        /\ location d = "Some Place, Texas")
  /\ (exists d,
        ParseLocal.extract_loan_data zenith 0 = Ok d /\ location d = "").
Proof.
  split; [exact local_location_recognizer|].
  split; [reflexivity|]. split; [reflexivity|].
  split; [exact spider_location_recognizer|].
  split; [reflexivity|]. split; [reflexivity|].
  split; eexists; (split; [vm_compute; reflexivity | reflexivity]).
Qed.

(* ================================================================== *)
(** ** Documents without fragments *)

Lemma local_no_fragments (selector : Node) (clock : Clock) (q h : list Node) :
  css sel_search_query selector = Ok q ->
  css sel_h1_text selector = Ok h ->
  css sel_items selector = Ok [] ->
  css sel_items_alt_local selector = Ok [] ->
  exists r c,
    ParseLocal.parse_loan_html selector clock = Ok (r, c)
    /\ ParseLocal.loans r = [] /\ ParseLocal.errors r = [].
Proof.
  intros Hq Hh H1 H2.
  unfold ParseLocal.parse_loan_html, ParseLocal.locate.
  rewrite Hq, Hh, H1; simpl. rewrite H2; simpl.
  eexists; eexists; split; [reflexivity|split; reflexivity].
Qed.

Lemma spider_no_fragments
    (urljoin : string -> string -> res string)
    (self : Propublica.Spider) (response : Propublica.Response) (clock : Clock)
    (q h : list Node) :
  Propublica.status response < 400 ->
  css sel_search_query (Propublica.root response) = Ok q ->
  css sel_h1_text (Propublica.root response) = Ok h ->
  css sel_items (Propublica.root response) = Ok [] ->
  css sel_items_alt_spider (Propublica.root response) = Ok [] ->
  Propublica.parse urljoin self response clock
  = (None,
     Propublica.MkAcc []
       (Propublica.MkSpider (Propublica.scraped_loans self)
          (Propublica.errors self
           ++ [Propublica.no_data_found response (fst (now clock))])%list)
       (snd (now clock))).
Proof.
  intros Hs Hq Hh H1 H2.
  unfold Propublica.parse, Propublica._extract_search_info, Propublica.locate.
  assert (E : Nat.leb 400 (Propublica.status response) = false)
    by (apply Nat.leb_gt; exact Hs).
  rewrite E, Hq, Hh, H1; simpl. rewrite H2; simpl. reflexivity.
Qed.

(** C5.  On a document where the primary and the fallback boundary
    selector find nothing, the spider of [propublica_scraper.py] yields no
    record and appends one advisory [NoDataFound] entry, while
    [parse_loan_html] returns no record and an empty error list: the
    advisory entry is missing there.  Neither raises. *)
Theorem no_fragments_advisory_entry :
  (exists r c,
     ParseLocal.parse_loan_html empty_page ticking = Ok (r, c)
     /\ ParseLocal.loans r = []
     /\ ParseLocal.errors r = [])
  /\ (exists a,
        Propublica.parse join fresh_spider (spider_response empty_page) ticking
        = (None, a)
        /\ Propublica.acc_yielded a = []
        /\ Propublica.errors (Propublica.acc_self a)
           = [Propublica.no_data_found (spider_response empty_page) "T0"]).
Proof.
  split.
  - apply (local_no_fragments empty_page ticking
             [text_node "90210 medical"] [text_node " Results "]); reflexivity.
  - eexists. split; [vm_compute; reflexivity|]. split; reflexivity.
Qed.

(* ================================================================== *)
(** ** The response gate *)

Lemma gate_blocks_edge_status
    (PageData : Type) (ex : WordPress.Response -> Clock -> res PageData * Clock)
    (self : WordPress.Spider PageData) (response : WordPress.Response) (clock : Clock) :
  WordPress.status response = 503 ->
  WordPress.parse ex self response clock
  = ([], WordPress.MkSpider (WordPress.scraped_data self)
           (WordPress.errors self
            ++ [WordPress.cloudflare_error response (fst (now clock))])%list,
     snd (now clock)).
Proof.
  intros H. unfold WordPress.parse, WordPress._is_cloudflare_challenge.
  rewrite H. reflexivity.
Qed.

Lemma gate_reports_not_found
    (PageData : Type) (ex : WordPress.Response -> Clock -> res PageData * Clock)
    (self : WordPress.Spider PageData) (response : WordPress.Response) (clock : Clock) :
  WordPress.status response = 404 ->
  WordPress.indicator_in_body response = false ->
  WordPress.edge_header_match response = false ->
  WordPress.parse ex self response clock
  = ([], WordPress.MkSpider (WordPress.scraped_data self)
           (WordPress.errors self
            ++ [ {| err_url := Some (WordPress.url response);
                    error_type := "HTTPError";
                    status_code := Some 404;
                    message := "Not Found";
                    suggestion :=
                      Some "The requested page doesn't exist. Check if the URL is correct.";
                    timestamp := fst (now clock) |} ])%list,
     snd (now clock)).
Proof.
  intros H Hb Hh.
  unfold WordPress.parse, WordPress._is_cloudflare_challenge,
    WordPress._handle_http_error, WordPress.http_error.
  rewrite Hb, Hh, H. reflexivity.
Qed.

Lemma gate_lets_ordinary_page_through
    (PageData : Type) (ex : WordPress.Response -> Clock -> res PageData * Clock)
    (self : WordPress.Spider PageData) (response : WordPress.Response) (clock : Clock) :
  WordPress.status response = 200 ->
  WordPress.indicator_in_body response = false ->
  WordPress.parse ex self response clock
  = match ex response clock with
    | (Ok data, c) =>
        ([data],
         WordPress.MkSpider (WordPress.scraped_data self ++ [data])%list
           (WordPress.errors self), c)
    | (Raise e, c) =>
        ([], WordPress.MkSpider (WordPress.scraped_data self)
               (WordPress.errors self
                ++ [WordPress.page_error response e (fst (now c))])%list,
         snd (now c))
    end.
Proof.
  intros H Hb.
  unfold WordPress.parse, WordPress._is_cloudflare_challenge,
    WordPress.edge_header_match.
  rewrite Hb, H. simpl.
  destruct (str_in _ _); [destruct (WordPress.header_cf_ray response)|];
    simpl; rewrite ?andb_false_r; reflexivity.
Qed.

Lemma gate_blocks_indicator
    (PageData : Type) (ex : WordPress.Response -> Clock -> res PageData * Clock)
    (self : WordPress.Spider PageData) (response : WordPress.Response) (clock : Clock) :
  WordPress._is_cloudflare_challenge response = true ->
  WordPress.parse ex self response clock
  = ([], WordPress.MkSpider (WordPress.scraped_data self)
           (WordPress.errors self
            ++ [WordPress.cloudflare_error response (fst (now clock))])%list,
     snd (now clock)).
Proof.
  intros H. unfold WordPress.parse. rewrite H. reflexivity.
Qed.

(** C3, as the code has it.  The gate tests in a fixed order, the
    anti-bot checks first, and it reads the body of the response before
    anything else.  On a text response: status 503 is recorded as an
    anti-bot challenge whatever the body and the headers; status 404 is
    recorded as the HTTP error 404, with the message "Not Found" and the
    suggestion of the status table, when the body holds no challenge
    indicator and the headers do not match the edge vendor, and as an
    anti-bot challenge when the body holds an indicator or when the [Server]
    header names the vendor and a non-empty [CF-RAY] header is present;
    status 200 with a body that holds no indicator goes to the extractor,
    whose record is yielded or whose exception is recorded.  In none of
    these cases is the extractor called for a blocked response, and nothing
    escapes.  On a response whose content is not text the gate raises,
    whatever the status, and nothing is recorded. *)
Theorem gate_classifies_in_order
    (PageData : Type) (ex : WordPress.Response -> Clock -> res PageData * Clock)
    (self : WordPress.Spider PageData) (response : WordPress.Response) (clock : Clock) :
  (WordPress.status response = 503 ->
   WordPress.parse_delivered ex self (Text response) clock
   = (None,
      ([], WordPress.MkSpider (WordPress.scraped_data self)
             (WordPress.errors self
              ++ [ {| err_url := Some (WordPress.url response);
                      error_type := "CloudflareProtection";
                      status_code := Some 503;
                      message := "Cloudflare anti-bot challenge detected";
                      suggestion := None;
                      timestamp := fst (now clock) |} ])%list,
       snd (now clock))))
  /\ (WordPress.status response = 404 ->
      WordPress.indicator_in_body response = false ->
      WordPress.edge_header_match response = false ->
      WordPress.parse_delivered ex self (Text response) clock
      = (None,
         ([], WordPress.MkSpider (WordPress.scraped_data self)
                (WordPress.errors self
                 ++ [ {| err_url := Some (WordPress.url response);
                         error_type := "HTTPError";
                         status_code := Some 404;
                         message := "Not Found";
                         suggestion :=
                           Some "The requested page doesn't exist. Check if the URL is correct.";
                         timestamp := fst (now clock) |} ])%list,
          snd (now clock))))
  /\ (WordPress.status response = 404 ->
      WordPress.indicator_in_body response = true
      \/ (exists server ray,
            WordPress.header_server response = Some server
            /\ str_in "cloudflare" (lower server) = true
            /\ WordPress.header_cf_ray response = Some ray
            /\ ray <> EmptyString) ->
      WordPress.parse_delivered ex self (Text response) clock
      = (None,
         ([], WordPress.MkSpider (WordPress.scraped_data self)
                (WordPress.errors self
                 ++ [ {| err_url := Some (WordPress.url response);
                         error_type := "CloudflareProtection";
                         status_code := Some 404;
                         message := "Cloudflare anti-bot challenge detected";
                         suggestion := None;
                         timestamp := fst (now clock) |} ])%list,
          snd (now clock))))
  /\ (WordPress.status response = 200 ->
      WordPress.indicator_in_body response = false ->
      WordPress.parse_delivered ex self (Text response) clock
      = (None,
         match ex response clock with
         | (Ok data, c) =>
             ([data],
              WordPress.MkSpider (WordPress.scraped_data self ++ [data])%list
                (WordPress.errors self), c)
         | (Raise e, c) =>
             ([], WordPress.MkSpider (WordPress.scraped_data self)
                    (WordPress.errors self
                     ++ [WordPress.page_error response e (fst (now c))])%list,
              snd (now c))
         end))
  /\ (forall url status,
        WordPress.parse_delivered ex self (NotText url status) clock
        = (Some not_text, ([], self, clock))).
Proof.
  split; [|split; [|split; [|split]]].
  - intros H. cbn [WordPress.parse_delivered].
    rewrite (gate_blocks_edge_status _ ex self response clock H).
    unfold WordPress.cloudflare_error. rewrite H. reflexivity.
  - intros H Hb Hh. cbn [WordPress.parse_delivered].
    rewrite (gate_reports_not_found _ ex self response clock H Hb Hh). reflexivity.
  - intros H Hc. cbn [WordPress.parse_delivered].
    rewrite (gate_blocks_indicator _ ex self response clock).
    + unfold WordPress.cloudflare_error. rewrite H. reflexivity.
    + unfold WordPress._is_cloudflare_challenge.
      destruct (existsb _ WordPress.cloudflare_statuses); [reflexivity|].
      destruct Hc as [Hb|[server [ray [Hs [Hv [Hr Hne]]]]]].
      * rewrite Hb. reflexivity.
      * destruct (WordPress.indicator_in_body response); [reflexivity|].
        unfold WordPress.edge_header_match.
        rewrite Hs, Hv, Hr, H. destruct ray; [congruence|reflexivity].
  - intros H Hb. cbn [WordPress.parse_delivered].
    rewrite (gate_lets_ordinary_page_through _ ex self response clock H Hb).
    reflexivity.
  - reflexivity.
Qed.

Lemma gate_classifies_in_order_witness :
  WordPress.parse_delivered address_of (WordPress.MkSpider [] []) (Text unavailable)
    ticking
  = (None,
     ([], WordPress.MkSpider []
            [ {| err_url := Some "https://w.example/";
                 error_type := "CloudflareProtection";
                 status_code := Some 503;
                 message := "Cloudflare anti-bot challenge detected";
                 suggestion := None;
                 timestamp := "T0" |} ],
      snd (now ticking)))
  /\ WordPress.parse_delivered address_of (WordPress.MkSpider [] [])
       (Text missing_page) ticking
     = (None,
        ([], WordPress.MkSpider []
               [ {| err_url := Some "https://w.example/nothing";
                    error_type := "HTTPError";
                    status_code := Some 404;
                    message := "Not Found";
                    suggestion :=
                      Some "The requested page doesn't exist. Check if the URL is correct.";
                    timestamp := "T0" |} ],
         snd (now ticking)))
  /\ WordPress.parse_delivered address_of (WordPress.MkSpider [] [])
       (Text missing_page_edge_headers) ticking
     = (None,
        ([], WordPress.MkSpider []
               [ {| err_url := Some "https://w.example/nothing";
                    error_type := "CloudflareProtection";
                    status_code := Some 404;
                    message := "Cloudflare anti-bot challenge detected";
                    suggestion := None;
                    timestamp := "T0" |} ],
         snd (now ticking)))
  /\ WordPress.parse_delivered address_of (WordPress.MkSpider [] [])
       (Text ordinary_page) ticking
     = (None,
        (["https://w.example/"],
         WordPress.MkSpider ["https://w.example/"] [], ticking)).
Proof.
  split; [|split; [|split]].
  - apply (proj1 (gate_classifies_in_order string address_of
                    (WordPress.MkSpider [] []) unavailable ticking)).
    reflexivity.
  - apply (proj1 (proj2 (gate_classifies_in_order string address_of
                           (WordPress.MkSpider [] []) missing_page ticking)));
      reflexivity.
  - apply (proj1 (proj2 (proj2 (gate_classifies_in_order string address_of
                                  (WordPress.MkSpider [] [])
                                  missing_page_edge_headers ticking)))).
    + reflexivity.
    + right. exists "cloudflare", "8a1b2c3d4e5f-AMS".
      split; [reflexivity|]. split; [reflexivity|]. split; [reflexivity|].
      discriminate.
  - apply (proj1 (proj2 (proj2 (proj2 (gate_classifies_in_order string address_of
                                         (WordPress.MkSpider [] [])
                                         ordinary_page ticking)))));
      reflexivity.
Defined.

(** C3, as stated, fails.  A response of status 404 whose body mentions
    the edge vendor is recorded as an anti-bot challenge, not as the HTTP
    error 404, and so is one served with the vendor's headers; and on a
    response of status 503 whose content is not text the gate raises and
    records nothing. *)
Lemma gate_404_with_indicator_is_challenge :
  WordPress.status missing_page_behind_edge = 404
  /\ WordPress.parse address_of (WordPress.MkSpider [] [])
       missing_page_behind_edge ticking
     = ([], WordPress.MkSpider []
              [ {| err_url := Some "https://w.example/nothing";
                   error_type := "CloudflareProtection";
                   status_code := Some 404;
                   message := "Cloudflare anti-bot challenge detected";
                   suggestion := None;
                   timestamp := "T0" |} ],
        snd (now ticking))
  /\ ~ (forall response : WordPress.Response,
          WordPress.status response = 404 ->
          WordPress.parse address_of (WordPress.MkSpider [] []) response ticking
          = ([], WordPress.MkSpider []
                   [WordPress.http_error response (fst (now ticking))],
             snd (now ticking)))
  /\ WordPress.status missing_page_edge_headers = 404
  /\ WordPress.indicator_in_body missing_page_edge_headers = false
  /\ WordPress.parse address_of (WordPress.MkSpider [] [])
       missing_page_edge_headers ticking
     = ([], WordPress.MkSpider []
              [ {| err_url := Some "https://w.example/nothing";
                   error_type := "CloudflareProtection";
                   status_code := Some 404;
                   message := "Cloudflare anti-bot challenge detected";
                   suggestion := None;
                   timestamp := "T0" |} ],
        snd (now ticking))
  /\ WordPress.parse_delivered address_of (WordPress.MkSpider [] []) image_503 ticking
     = (Some not_text, ([], WordPress.MkSpider [] [], ticking)).
Proof.
  split; [reflexivity|]. split; [reflexivity|].
  split.
  { intros H. specialize (H missing_page_behind_edge eq_refl).
    vm_compute in H. discriminate H. }
  split; [reflexivity|]. split; [reflexivity|].
  split; reflexivity.
Qed.

(* ================================================================== *)
(** ** The two tiers of field extraction *)

Lemma truthy_nonempty (s : string) : s <> EmptyString -> truthy s = true.
Proof. destruct s; [congruence|reflexivity]. Qed.

Ltac split_ifs :=
  repeat match goal with
         | |- context [if ?b then _ else _] => destruct b
         end.

(** A slot that is filled is left alone by one step of the scan, and the
    step does not consult the recognizer of a filled slot. *)
Ltac step_cases f st H :=
  destruct f; destruct st as [l s a d]; simpl in H |- *;
  rewrite H; simpl; rewrite ?andb_false_r; simpl;
  split_ifs; reflexivity.

Lemma local_step_keeps (on : Recognizers) (f : Field) (st : Slots) (val : string) :
  truthy (slot f st) = true ->
  slot f (ParseLocal.heuristic_step on st val) = slot f st.
Proof. intros H. unfold ParseLocal.heuristic_step. step_cases f st H. Qed.

Lemma local_step_without (on : Recognizers) (f : Field) (st : Slots) (val : string) :
  truthy (slot f st) = true ->
  ParseLocal.heuristic_step (without f on) st val
  = ParseLocal.heuristic_step on st val.
Proof.
  intros H. unfold ParseLocal.heuristic_step, without.
  destruct f; destruct st as [l s a d]; simpl in H |- *;
    rewrite H; simpl; rewrite ?andb_false_r; reflexivity.
Qed.

Lemma spider_step_keeps (on : Recognizers) (f : Field) (st : Slots) (val : string) :
  truthy (slot f st) = true ->
  slot f (Propublica.heuristic_step on st val) = slot f st.
Proof. intros H. unfold Propublica.heuristic_step. step_cases f st H. Qed.

Lemma spider_step_without (on : Recognizers) (f : Field) (st : Slots) (val : string) :
  truthy (slot f st) = true ->
  Propublica.heuristic_step (without f on) st val
  = Propublica.heuristic_step on st val.
Proof.
  intros H. unfold Propublica.heuristic_step, without.
  destruct f; destruct st as [l s a d]; simpl in H |- *;
    rewrite H; simpl; rewrite ?andb_false_r; reflexivity.
Qed.

Section Scan.

(** Either extractor's step. *)
Variable step : Recognizers -> Slots -> string -> Slots.
Hypothesis step_keeps :
  forall on f st val, truthy (slot f st) = true ->
                      slot f (step on st val) = slot f st.
Hypothesis step_without :
  forall on f st val, truthy (slot f st) = true ->
                      step (without f on) st val = step on st val.

Lemma scan_keeps (on : Recognizers) (f : Field) (vals : list string) :
  forall st, truthy (slot f st) = true ->
             slot f (fold_left (step on) vals st) = slot f st.
Proof.
  induction vals as [|v vals IH]; intros st H; simpl; [reflexivity|].
  rewrite IH; [apply step_keeps; exact H|].
  rewrite step_keeps; assumption.
Qed.

Lemma scan_without (on : Recognizers) (f : Field) (vals : list string) :
  forall st, truthy (slot f st) = true ->
             fold_left (step (without f on)) vals st = fold_left (step on) vals st.
Proof.
  induction vals as [|v vals IH]; intros st H; simpl; [reflexivity|].
  rewrite step_without by exact H.
  apply IH. rewrite step_keeps; assumption.
Qed.

End Scan.

Lemma local_fallback_keeps (on : Recognizers) (f : Field) (item : Node) (st st' : Slots) :
  truthy (slot f st) = true ->
  ParseLocal.fallback on item st = Ok st' -> slot f st' = slot f st.
Proof.
  intros H. unfold ParseLocal.fallback.
  destruct (_ || _); [|intros E; inversion E; reflexivity].
  destruct (css sel_value_text item); simpl; [|discriminate].
  intros E; inversion E.
  apply (scan_keeps ParseLocal.heuristic_step local_step_keeps); exact H.
Qed.

Lemma local_fallback_without (on : Recognizers) (f : Field) (item : Node) (st : Slots) :
  truthy (slot f st) = true ->
  ParseLocal.fallback (without f on) item st = ParseLocal.fallback on item st.
Proof.
  intros H. unfold ParseLocal.fallback.
  destruct (_ || _); [|reflexivity].
  destruct (css sel_value_text item); simpl; [|reflexivity].
  rewrite (scan_without ParseLocal.heuristic_step local_step_keeps local_step_without)
    by exact H.
  reflexivity.
Qed.

Lemma spider_fallback_keeps (on : Recognizers) (f : Field) (item : Node) (st st' : Slots) :
  truthy (slot f st) = true ->
  Propublica.fallback on item st = Ok st' -> slot f st' = slot f st.
Proof.
  intros H. unfold Propublica.fallback.
  destruct (_ && _); [|intros E; inversion E; reflexivity].
  destruct (css sel_value_text item); simpl; [|discriminate].
  intros E; inversion E.
  apply (scan_keeps Propublica.heuristic_step spider_step_keeps); exact H.
Qed.

Lemma spider_fallback_without (on : Recognizers) (f : Field) (item : Node) (st : Slots) :
  truthy (slot f st) = true ->
  Propublica.fallback (without f on) item st = Propublica.fallback on item st.
Proof.
  intros H. unfold Propublica.fallback.
  destruct (_ && _); [|reflexivity].
  destruct (css sel_value_text item); simpl; [|reflexivity].
  rewrite (scan_without Propublica.heuristic_step spider_step_keeps spider_step_without)
    by exact H.
  reflexivity.
Qed.

(** The record an extractor returns holds, for each field, the slot as the
    fallback left it. *)
Lemma local_extract_fields (on : Recognizers) (item : Node) (idx : nat)
      (st : Slots) (d : LoanData) :
  ParseLocal.structural item = Ok st ->
  ParseLocal.extract_loan_data_with on item idx = Ok d ->
  exists st', ParseLocal.fallback on item st = Ok st'
              /\ forall f, loan_field f d = slot f st'.
Proof.
  intros Hs. unfold ParseLocal.extract_loan_data_with.
  destruct (css sel_recipient_link item) as [rl|]; simpl; [|discriminate].
  destruct (sl_css sel_text rl); simpl; [|discriminate].
  destruct (sl_css sel_href rl); simpl; [|discriminate].
  rewrite Hs; simpl.
  destruct (ParseLocal.fallback on item st) as [st'|]; simpl; [|discriminate].
  destruct (parse_amount (s_amount st')); simpl; [|discriminate].
  intros E; inversion E. exists st'. split; [reflexivity|].
  intros f; destruct f; reflexivity.
Qed.

Lemma spider_extract_fields
      (urljoin : string -> string -> res string) (on : Recognizers)
      (item : Node) (response : Propublica.Response) (idx : nat) (clock : Clock)
      (st : Slots) (d : LoanData) :
  Propublica.structural item = Ok st ->
  fst (Propublica._extract_loan_data_with urljoin on item response idx clock) = Ok d ->
  exists st', Propublica.fallback on item st = Ok st'
              /\ forall f, loan_field f d = slot f st'.
Proof.
  intros Hs. unfold Propublica._extract_loan_data_with, Propublica.extract_fields.
  destruct (css sel_label_text item); simpl; [|discriminate].
  destruct (css sel_recipient_link item) as [rl|]; simpl; [|discriminate].
  destruct (sl_css sel_text rl); simpl; [|discriminate].
  destruct (sl_css sel_href rl) as [href|]; simpl; [|discriminate].
  destruct (if truthy (get EmptyString href)
            then urljoin (Propublica.url response) (get EmptyString href)
            else Ok (get EmptyString href)); simpl; [|discriminate].
  destruct (css sel_value_divs item); simpl; [|discriminate].
  rewrite Hs; simpl.
  destruct (Propublica.fallback on item st) as [st'|]; simpl; [|discriminate].
  destruct (_parse_amount (s_amount st')); simpl; [|discriminate].
  intros E; inversion E. exists st'. split; [reflexivity|].
  intros f; destruct f; reflexivity.
Qed.

Lemma local_extract_without (on : Recognizers) (f : Field) (item : Node) (idx : nat)
      (st : Slots) :
  ParseLocal.structural item = Ok st ->
  truthy (slot f st) = true ->
  ParseLocal.extract_loan_data_with (without f on) item idx
  = ParseLocal.extract_loan_data_with on item idx.
Proof.
  intros Hs H. unfold ParseLocal.extract_loan_data_with.
  destruct (css sel_recipient_link item) as [rl|]; simpl; [|reflexivity].
  destruct (sl_css sel_text rl); simpl; [|reflexivity].
  destruct (sl_css sel_href rl); simpl; [|reflexivity].
  rewrite Hs; simpl.
  rewrite (local_fallback_without on f item st H). reflexivity.
Qed.

Lemma spider_extract_without
      (urljoin : string -> string -> res string) (on : Recognizers) (f : Field)
      (item : Node) (response : Propublica.Response) (idx : nat) (clock : Clock)
      (st : Slots) :
  Propublica.structural item = Ok st ->
  truthy (slot f st) = true ->
  Propublica._extract_loan_data_with urljoin (without f on) item response idx clock
  = Propublica._extract_loan_data_with urljoin on item response idx clock.
Proof.
  intros Hs H. unfold Propublica._extract_loan_data_with, Propublica.extract_fields.
  destruct (css sel_label_text item); simpl; [|reflexivity].
  destruct (css sel_recipient_link item) as [rl|]; simpl; [|reflexivity].
  destruct (sl_css sel_text rl); simpl; [|reflexivity].
  destruct (sl_css sel_href rl) as [href|]; simpl; [|reflexivity].
  destruct (if truthy (get EmptyString href)
            then urljoin (Propublica.url response) (get EmptyString href)
            else Ok (get EmptyString href)); simpl; [|reflexivity].
  destruct (css sel_value_divs item); simpl; [|reflexivity].
  rewrite Hs; simpl.
  rewrite (spider_fallback_without on f item st H). reflexivity.
Qed.

(** The label decides the slot a block writes, whatever its value. *)
Lemma by_label_selects (st : Slots) (label value : string) (f : Field) :
  slot f (by_label st label value)
  = if selects f label then value else slot f st.
Proof.
  unfold by_label, selects, label_field.
  destruct (str_in "Location" label);
    [destruct f; destruct st; reflexivity|].
  destruct (str_in "Loan Status" label);
    [destruct f; destruct st; reflexivity|].
  destruct (str_in "Loan Amount" label);
    [destruct f; destruct st; reflexivity|].
  destruct (str_in "Date Approved" label);
    [destruct f; destruct st; reflexivity|].
  reflexivity.
Qed.

Lemma find_last {A : Type} (p : A -> bool) (l : list A) (x : A) :
  find p (rev (x :: l))
  = match find p (rev l) with
    | Some y => Some y
    | None => if p x then Some x else None
    end.
Proof.
  simpl. induction (rev l) as [|y r IH]; simpl; [reflexivity|].
  destruct (p y); [reflexivity|exact IH].
Qed.

(** The loop over the detail blocks: every block that selects a field
    overwrites it, so the last such block decides, also when its value is
    empty. *)
Lemma structural_loop_last (blocks : list Node) (pairs : list (string * string)) :
  Forall2 (fun block lv => read_block block = Ok lv) blocks pairs ->
  forall st0,
  exists st,
    structural_loop blocks st0 = Ok st
    /\ forall f,
         slot f st
         = match find (fun lv => selects f (fst lv)) (rev pairs) with
           | Some lv => snd lv
           | None => slot f st0
           end.
Proof.
  intros H. induction H as [|block [label value] blocks pairs Hb _ IH]; intros st0.
  - exists st0. split; reflexivity.
  - destruct (IH (by_label st0 label value)) as [st [Hst Hf]].
    exists st. split.
    + cbn [structural_loop]. rewrite Hb. exact Hst.
    + intros f. rewrite Hf, find_last.
      destruct (find (fun lv => selects f (fst lv)) (rev pairs)); [reflexivity|].
      cbn [fst snd]. rewrite by_label_selects.
      destruct (selects f label); reflexivity.
Qed.

Lemma empty_slot (f : Field) : slot f empty_slots = EmptyString.
Proof. destruct f; reflexivity. Qed.

(** C1, as the code has it.  For each of the four fields and each
    fragment, in both extractors.  The structural result of a field is what
    the loop over the labelled detail blocks leaves in it: the value of the
    last block whose label selects the field, also when that value is empty,
    and the empty text when no block selects it; an earlier non-empty value
    does not survive a later block of the same label.  When that result is
    not empty, it is the value the returned record holds, so the heuristic
    tier contributes nothing to the field, and extraction with the field's
    heuristic recognizer switched off gives the same result (the same
    record, or the same exception). *)
Theorem structural_result_wins (f : Field) (item : Node) (idx : nat) :
  (forall st,
     ParseLocal.structural item = Ok st ->
     slot f st <> EmptyString ->
     (forall d, ParseLocal.extract_loan_data item idx = Ok d ->
                loan_field f d = slot f st)
     /\ ParseLocal.extract_loan_data_with (without f all_on) item idx
        = ParseLocal.extract_loan_data item idx)
  /\ (forall urljoin response clock st,
        Propublica.structural item = Ok st ->
        slot f st <> EmptyString ->
        (forall d,
           fst (Propublica._extract_loan_data urljoin item response idx clock) = Ok d ->
           loan_field f d = slot f st)
        /\ Propublica._extract_loan_data_with urljoin (without f all_on)
             item response idx clock
           = Propublica._extract_loan_data urljoin item response idx clock)
  /\ (forall container containers blocks pairs,
        css sel_flex item = Ok (container :: containers) ->
        sl_css sel_blocks (container :: containers) = Ok blocks ->
        Forall2 (fun block lv => read_block block = Ok lv) blocks pairs ->
        exists st,
          ParseLocal.structural item = Ok st
          /\ slot f st
             = match find (fun lv => selects f (fst lv)) (rev pairs) with
               | Some lv => snd lv
               | None => EmptyString
               end)
  /\ (forall container containers details blocks pairs,
        css sel_flex item = Ok (container :: containers) ->
        sl_css sel_detail_blocks (container :: containers) = Ok details ->
        sl_css sel_blocks (container :: containers) = Ok blocks ->
        Forall2 (fun block lv => read_block block = Ok lv) blocks pairs ->
        exists st,
          Propublica.structural item = Ok st
          /\ slot f st
             = match find (fun lv => selects f (fst lv)) (rev pairs) with
               | Some lv => snd lv
               | None => EmptyString
               end).
Proof.
  split; [|split; [|split]].
  - intros st Hs Hne. apply truthy_nonempty in Hne. split.
    + intros d Hd.
      destruct (local_extract_fields all_on item idx st d Hs Hd) as [st' [Hf Hall]].
      rewrite Hall. exact (local_fallback_keeps all_on f item st st' Hne Hf).
    + exact (local_extract_without all_on f item idx st Hs Hne).
  - intros urljoin response clock st Hs Hne. apply truthy_nonempty in Hne. split.
    + intros d Hd.
      destruct (spider_extract_fields urljoin all_on item response idx clock st d Hs Hd)
        as [st' [Hf Hall]].
      rewrite Hall. exact (spider_fallback_keeps all_on f item st st' Hne Hf).
    + exact (spider_extract_without urljoin all_on f item response idx clock st Hs Hne).
  - intros container containers blocks pairs Hflex Hblocks Hread.
    destruct (structural_loop_last blocks pairs Hread empty_slots) as [st [Hst Hf]].
    exists st. split.
    + unfold ParseLocal.structural. rewrite Hflex. cbn [bind].
      rewrite Hblocks. exact Hst.
    + rewrite Hf, empty_slot. reflexivity.
  - intros container containers details blocks pairs Hflex Hdetails Hblocks Hread.
    destruct (structural_loop_last blocks pairs Hread empty_slots) as [st [Hst Hf]].
    exists st. split.
    + unfold Propublica.structural. rewrite Hflex. cbn [bind].
      rewrite Hdetails. cbn [bind]. rewrite Hblocks. exact Hst.
    + rewrite Hf, empty_slot. reflexivity.
Qed.

Lemma structural_result_wins_witness :
  (exists d, ParseLocal.extract_loan_data acme 0 = Ok d
             /\ location d = "Austin, TX")
  /\ ParseLocal.extract_loan_data_with (without FLocation all_on) acme 0
     = ParseLocal.extract_loan_data acme 0
  /\ (exists d,
        fst (Propublica._extract_loan_data join acme (spider_response (page_of [acme]))
               0 ticking) = Ok d
        /\ loan_amount d = "$1,234,567.00")
  /\ Propublica._extract_loan_data_with join (without FAmount all_on) acme
       (spider_response (page_of [acme])) 0 ticking
     = Propublica._extract_loan_data join acme (spider_response (page_of [acme])) 0 ticking
  /\ (exists st, ParseLocal.structural overwritten = Ok st
                 /\ slot FLocation st = EmptyString)
  /\ (exists st, Propublica.structural overwritten = Ok st
                 /\ slot FLocation st = EmptyString).
Proof.
  assert (Hl : ParseLocal.structural acme
               = Ok (MkSlots "Austin, TX" "" "$1,234,567.00" "")) by reflexivity.
  assert (Hp : Propublica.structural acme
               = Ok (MkSlots "Austin, TX" "" "$1,234,567.00" "")) by reflexivity.
  assert (Hne1 : slot FLocation (MkSlots "Austin, TX" "" "$1,234,567.00" "")
                 <> EmptyString) by (simpl; discriminate).
  assert (Hne2 : slot FAmount (MkSlots "Austin, TX" "" "$1,234,567.00" "")
                 <> EmptyString) by (simpl; discriminate).
  assert (Hread : Forall2 (fun block lv => read_block block = Ok lv)
                    [value_block "Location" "Austin, TX"; label_block "Location"]
                    [("Location", "Austin, TX"); ("Location", EmptyString)])
    by (repeat constructor).
  destruct (proj1 (structural_result_wins FLocation acme 0) _ Hl Hne1) as [A1 A2].
  destruct (proj1 (proj2 (structural_result_wins FAmount acme 0))
              join (spider_response (page_of [acme])) ticking _ Hp Hne2) as [B1 B2].
  pose proof (proj1 (proj2 (proj2 (structural_result_wins FLocation overwritten 0)))
                _ _ _ _ eq_refl eq_refl Hread) as C.
  pose proof (proj2 (proj2 (proj2 (structural_result_wins FLocation overwritten 0)))
                _ _ _ _ _ eq_refl eq_refl eq_refl Hread) as D.
  split; [|split; [exact A2|split; [|split; [exact B2|split; [exact C|exact D]]]]].
  - eexists. split; [vm_compute; reflexivity|].
    apply (A1 _ eq_refl).
  - eexists. split; [vm_compute; reflexivity|].
    apply (B1 _ eq_refl).
Defined.

(** C1, as stated, fails in both extractors: a structural lookup that
    yields a non-empty value does not settle the field.  In the sample
    fragment the first block labelled [Location] reads [Austin, TX], the
    second one is empty and overwrites it, the scan then takes the loose
    value [Waco, TX], and the record differs when the location recognizer
    is switched off. *)
Lemma structural_value_overwritten :
  read_block (value_block "Location" "Austin, TX") = Ok ("Location", "Austin, TX")
  /\ (exists d, ParseLocal.extract_loan_data overwritten 0 = Ok d
                /\ location d = "Waco, TX")
  /\ (exists d, ParseLocal.extract_loan_data_with (without FLocation all_on)
                  overwritten 0 = Ok d
                /\ location d = EmptyString)
  /\ (exists d,
        fst (Propublica._extract_loan_data join overwritten
               (spider_response (page_of [overwritten])) 0 ticking) = Ok d
        /\ location d = "Waco, TX")
  /\ (exists d,
        fst (Propublica._extract_loan_data_with join (without FLocation all_on)
               overwritten (spider_response (page_of [overwritten])) 0 ticking) = Ok d
        /\ location d = EmptyString).
Proof.
  split; [reflexivity|].
  split; [eexists; split; [vm_compute; reflexivity|reflexivity]|].
  split; [eexists; split; [vm_compute; reflexivity|reflexivity]|].
  split; [eexists; split; [vm_compute; reflexivity|reflexivity]|].
  eexists; split; [vm_compute; reflexivity|reflexivity].
Qed.

(** C2, as stated, fails in both extractors: the scan is not started field
    by field.  In [parse_local_html.py] a fragment whose blocks give the
    location and the amount keeps an empty status although a loose value is
    status-shaped; in [propublica_scraper.py] a fragment whose blocks give
    the amount keeps an empty location although a loose value is
    location-shaped. *)
Lemma fallback_trigger_not_per_field :
  ~ (forall item idx f st vals d,
       ParseLocal.structural item = Ok st ->
       slot f st = EmptyString ->
       css sel_value_text item = Ok vals ->
       ParseLocal.extract_loan_data item idx = Ok d ->
       loan_field f d
       = slot f (fold_left (ParseLocal.heuristic_step all_on)
                           (stripped_nonempty (getall vals)) st))
  /\ ~ (forall item response idx clock f st vals d,
          Propublica.structural item = Ok st ->
          slot f st = EmptyString ->
          css sel_value_text item = Ok vals ->
          fst (Propublica._extract_loan_data join item response idx clock) = Ok d ->
          loan_field f d
          = slot f (fold_left (Propublica.heuristic_step all_on)
                              (stripped_nonempty (getall vals)) st)).
Proof.
  split; intros H.
  - specialize (H acme 0 FStatus _ _ _ eq_refl eq_refl eq_refl eq_refl).
    vm_compute in H. discriminate H.
  - specialize (H halfway (spider_response (page_of [halfway])) 0 ticking FLocation
                  _ _ _ eq_refl eq_refl eq_refl eq_refl).
    vm_compute in H. discriminate H.
Qed.

Lemma local_fallback_gate (item : Node) (st st' : Slots) :
  ParseLocal.fallback all_on item st = Ok st' ->
  ((s_location st = EmptyString \/ s_amount st = EmptyString) ->
   exists vals,
     css sel_value_text item = Ok vals
     /\ st' = fold_left (ParseLocal.heuristic_step all_on)
                        (stripped_nonempty (getall vals)) st)
  /\ (s_location st <> EmptyString -> s_amount st <> EmptyString -> st' = st).
Proof.
  unfold ParseLocal.fallback. intros H. split.
  - intros Hor.
    assert (E : negb (truthy (s_location st)) || negb (truthy (s_amount st)) = true)
      by (destruct Hor as [-> | ->]; simpl; rewrite ?orb_true_r; reflexivity).
    rewrite E in H.
    destruct (css sel_value_text item) as [vals|]; simpl in H; [|discriminate].
    exists vals. split; [reflexivity|]. inversion H; reflexivity.
  - intros H1 H2.
    rewrite (truthy_nonempty _ H1), (truthy_nonempty _ H2) in H.
    inversion H; reflexivity.
Qed.

Lemma spider_fallback_gate (item : Node) (st st' : Slots) :
  Propublica.fallback all_on item st = Ok st' ->
  (s_location st = EmptyString -> s_amount st = EmptyString ->
   exists vals,
     css sel_value_text item = Ok vals
     /\ st' = fold_left (Propublica.heuristic_step all_on)
                        (stripped_nonempty (getall vals)) st)
  /\ ((s_location st <> EmptyString \/ s_amount st <> EmptyString) -> st' = st).
Proof.
  unfold Propublica.fallback. intros H. split.
  - intros H1 H2. rewrite H1, H2 in H. simpl in H.
    destruct (css sel_value_text item) as [vals|]; simpl in H; [|discriminate].
    exists vals. split; [reflexivity|]. inversion H; reflexivity.
  - intros Hor.
    assert (E : negb (truthy (s_location st)) && negb (truthy (s_amount st)) = false).
    { destruct Hor as [Hn | Hn]; rewrite (truthy_nonempty _ Hn); simpl;
        rewrite ?andb_false_r; reflexivity. }
    rewrite E in H. inversion H; reflexivity.
Qed.

(** C2, as the code has it.  The scan is started by the location and the
    amount, not by the field it may fill.  In [parse_local_html.py] it runs
    when the structural location or the structural amount is empty, and then
    every field is what the scan over the stripped non-empty loose values
    leaves of the structural result; when both are non-empty it does not run
    and every field keeps its structural value.  In [propublica_scraper.py]
    it runs when both are empty; when one of them is non-empty it does not
    run and every field keeps its structural value. *)
Theorem fallback_trigger_is_gated (item : Node) (idx : nat) :
  (forall st d,
     ParseLocal.structural item = Ok st ->
     ParseLocal.extract_loan_data item idx = Ok d ->
     ((s_location st = EmptyString \/ s_amount st = EmptyString) ->
      exists vals,
        css sel_value_text item = Ok vals
        /\ forall f,
             loan_field f d
             = slot f (fold_left (ParseLocal.heuristic_step all_on)
                                 (stripped_nonempty (getall vals)) st))
     /\ (s_location st <> EmptyString -> s_amount st <> EmptyString ->
         forall f, loan_field f d = slot f st))
  /\ (forall urljoin response clock st d,
        Propublica.structural item = Ok st ->
        fst (Propublica._extract_loan_data urljoin item response idx clock) = Ok d ->
        (s_location st = EmptyString -> s_amount st = EmptyString ->
         exists vals,
           css sel_value_text item = Ok vals
           /\ forall f,
                loan_field f d
                = slot f (fold_left (Propublica.heuristic_step all_on)
                                    (stripped_nonempty (getall vals)) st))
        /\ ((s_location st <> EmptyString \/ s_amount st <> EmptyString) ->
            forall f, loan_field f d = slot f st)).
Proof.
  split.
  - intros st d Hs Hd.
    destruct (local_extract_fields all_on item idx st d Hs Hd) as [st' [Hf Hall]].
    destruct (local_fallback_gate item st st' Hf) as [G1 G2]. split.
    + intros Hor. destruct (G1 Hor) as [vals [Hv ->]].
      exists vals. split; [exact Hv|exact Hall].
    + intros H1 H2 f. rewrite Hall, (G2 H1 H2). reflexivity.
  - intros urljoin response clock st d Hs Hd.
    destruct (spider_extract_fields urljoin all_on item response idx clock st d Hs Hd)
      as [st' [Hf Hall]].
    destruct (spider_fallback_gate item st st' Hf) as [G1 G2]. split.
    + intros H1 H2. destruct (G1 H1 H2) as [vals [Hv ->]].
      exists vals. split; [exact Hv|exact Hall].
    + intros Hor f. rewrite Hall, (G2 Hor). reflexivity.
Qed.

Lemma fallback_trigger_is_gated_witness :
  (exists d, ParseLocal.extract_loan_data acme 0 = Ok d /\ loan_status d = "")
  /\ (exists d, ParseLocal.extract_loan_data halfway 0 = Ok d
                /\ location d = "Waco, TX")
  /\ (exists d,
        fst (Propublica._extract_loan_data join halfway
               (spider_response (page_of [halfway])) 0 ticking) = Ok d
        /\ location d = "")
  /\ (exists d,
        fst (Propublica._extract_loan_data join zenith
               (spider_response (page_of [zenith])) 0 ticking) = Ok d
        /\ loan_amount d = "$5").
Proof.
  split; [|split; [|split]].
  - eexists. split; [vm_compute; reflexivity|].
    destruct (proj1 (fallback_trigger_is_gated acme 0) _ _ eq_refl eq_refl) as [_ G].
    apply (G ltac:(simpl; discriminate) ltac:(simpl; discriminate) FStatus).
  - eexists. split; [vm_compute; reflexivity|].
    destruct (proj1 (fallback_trigger_is_gated halfway 0) _ _ eq_refl eq_refl) as [G _].
    destruct (G (or_introl eq_refl)) as [vals [Hv Hall]].
    refine (eq_trans (Hall FLocation) _).
    vm_compute in Hv. inversion Hv. reflexivity.
  - assert (Hs : Propublica.structural halfway = Ok (MkSlots "" "" "$10" ""))
      by (vm_compute; reflexivity).
    assert (X : s_location (MkSlots "" "" "$10" "") <> EmptyString
                \/ s_amount (MkSlots "" "" "$10" "") <> EmptyString)
      by (right; simpl; discriminate).
    eexists. split; [vm_compute; reflexivity|].
    match goal with
    | |- location ?d = _ =>
        assert (Hd : fst (Propublica._extract_loan_data join halfway
                            (spider_response (page_of [halfway])) 0 ticking) = Ok d)
          by (vm_compute; reflexivity)
    end.
    destruct (proj2 (fallback_trigger_is_gated halfway 0) join
                (spider_response (page_of [halfway])) ticking _ _ Hs Hd)
      as [_ G].
    exact (G X FLocation).
  - assert (Hs : Propublica.structural zenith = Ok empty_slots)
      by (vm_compute; reflexivity).
    eexists. split; [vm_compute; reflexivity|].
    match goal with
    | |- loan_amount ?d = _ =>
        assert (Hd : fst (Propublica._extract_loan_data join zenith
                            (spider_response (page_of [zenith])) 0 ticking) = Ok d)
          by (vm_compute; reflexivity)
    end.
    destruct (proj2 (fallback_trigger_is_gated zenith 0) join
                (spider_response (page_of [zenith])) ticking _ _ Hs Hd)
      as [G _].
    destruct (G eq_refl eq_refl) as [vals [Hv Hall]].
    refine (eq_trans (Hall FAmount) _).
    vm_compute in Hv. inversion Hv. reflexivity.
Defined.

(* ================================================================== *)
(** ** The loop of [parse_loan_html] *)

Lemma local_loop_app (l1 l2 : list Node) :
  forall idx acc,
    ParseLocal.loop idx (l1 ++ l2)%list acc
    = ParseLocal.loop (idx + List.length l1) l2 (ParseLocal.loop idx l1 acc).
Proof.
  induction l1 as [|x l1 IH]; intros idx acc; simpl.
  - rewrite Nat.add_0_r. reflexivity.
  - rewrite IH. f_equal. lia.
Qed.

(** One iteration adds to the lists it is given what it would add to empty
    lists. *)
Lemma local_step_extends (idx : nat) (item : Node) (acc : ParseLocal.Acc) :
  ParseLocal.step idx item acc
  = ParseLocal.MkAcc
      (ParseLocal.acc_loans acc
       ++ ParseLocal.acc_loans
            (ParseLocal.step idx item
               (ParseLocal.MkAcc [] [] (ParseLocal.acc_clock acc))))%list
      (ParseLocal.acc_errors acc
       ++ ParseLocal.acc_errors
            (ParseLocal.step idx item
               (ParseLocal.MkAcc [] [] (ParseLocal.acc_clock acc))))%list
      (ParseLocal.acc_clock
         (ParseLocal.step idx item
            (ParseLocal.MkAcc [] [] (ParseLocal.acc_clock acc)))).
Proof.
  unfold ParseLocal.step. destruct acc as [L E c]; simpl.
  destruct (ParseLocal.extract_loan_data item idx) as [d|e]; simpl.
  - destruct (truthy (recipient d)); simpl; rewrite ?app_nil_r; reflexivity.
  - rewrite app_nil_r. reflexivity.
Qed.

Lemma local_loop_extends (items : list Node) :
  forall idx acc,
    ParseLocal.loop idx items acc
    = ParseLocal.MkAcc
        (ParseLocal.acc_loans acc
         ++ ParseLocal.acc_loans
              (ParseLocal.loop idx items
                 (ParseLocal.MkAcc [] [] (ParseLocal.acc_clock acc))))%list
        (ParseLocal.acc_errors acc
         ++ ParseLocal.acc_errors
              (ParseLocal.loop idx items
                 (ParseLocal.MkAcc [] [] (ParseLocal.acc_clock acc))))%list
        (ParseLocal.acc_clock
           (ParseLocal.loop idx items
              (ParseLocal.MkAcc [] [] (ParseLocal.acc_clock acc)))).
Proof.
  induction items as [|item rest IH]; intros idx acc; simpl.
  - destruct acc; simpl. rewrite !app_nil_r. reflexivity.
  - rewrite (IH (S idx) (ParseLocal.step idx item acc)).
    rewrite (IH (S idx) (ParseLocal.step idx item
                           (ParseLocal.MkAcc [] [] (ParseLocal.acc_clock acc)))).
    rewrite (local_step_extends idx item acc). simpl.
    rewrite <- !app_assoc. reflexivity.
Qed.

(** [parse_loan_html] returns what its loop collected, provided the three
    document-level queries do not raise. *)
Lemma local_parse_ok (selector : Node) (clock : Clock) (q h items : list Node) :
  css sel_search_query selector = Ok q ->
  css sel_h1_text selector = Ok h ->
  ParseLocal.locate selector = Ok items ->
  exists r c,
    ParseLocal.parse_loan_html selector clock = Ok (r, c)
    /\ ParseLocal.loans r
       = ParseLocal.acc_loans
           (ParseLocal.loop 0 items (ParseLocal.MkAcc [] [] clock))
    /\ ParseLocal.errors r
       = ParseLocal.acc_errors
           (ParseLocal.loop 0 items (ParseLocal.MkAcc [] [] clock)).
Proof.
  intros Hq Hh Hl. unfold ParseLocal.parse_loan_html.
  rewrite Hq, Hh, Hl; simpl.
  eexists; eexists; split; [reflexivity|split; reflexivity].
Qed.

Lemma local_parse_inv (selector : Node) (clock c : Clock) (r : ParseLocal.Result) :
  ParseLocal.parse_loan_html selector clock = Ok (r, c) ->
  exists items,
    ParseLocal.locate selector = Ok items
    /\ ParseLocal.loans r
       = ParseLocal.acc_loans
           (ParseLocal.loop 0 items (ParseLocal.MkAcc [] [] clock))
    /\ ParseLocal.errors r
       = ParseLocal.acc_errors
           (ParseLocal.loop 0 items (ParseLocal.MkAcc [] [] clock)).
Proof.
  unfold ParseLocal.parse_loan_html.
  destruct (css sel_search_query selector); simpl; [|discriminate].
  destruct (css sel_h1_text selector); simpl; [|discriminate].
  destruct (ParseLocal.locate selector) as [items|]; simpl; [|discriminate].
  intros E; inversion E; subst. exists items. repeat split.
Qed.

Lemma local_loop_cons (idx : nat) (item : Node) (rest : list Node) (acc : ParseLocal.Acc) :
  ParseLocal.loop idx (item :: rest) acc
  = ParseLocal.loop (S idx) rest (ParseLocal.step idx item acc).
Proof. reflexivity. Qed.

Lemma local_step_raise (idx : nat) (item : Node) (acc : ParseLocal.Acc) (e : exn) :
  ParseLocal.extract_loan_data item idx = Raise e ->
  ParseLocal.step idx item acc
  = ParseLocal.MkAcc
      (ParseLocal.acc_loans acc)
      (ParseLocal.acc_errors acc
       ++ [ParseLocal.extraction_error idx e (fst (now (ParseLocal.acc_clock acc)))])%list
      (snd (now (ParseLocal.acc_clock acc))).
Proof. intros H. unfold ParseLocal.step. rewrite H. reflexivity. Qed.

Lemma local_step_drop (idx : nat) (item : Node) (acc : ParseLocal.Acc) (d : LoanData) :
  ParseLocal.extract_loan_data item idx = Ok d ->
  recipient d = EmptyString ->
  ParseLocal.step idx item acc = acc.
Proof. intros H Hr. unfold ParseLocal.step. rewrite H, Hr. reflexivity. Qed.

(** A fragment on which extraction raises. *)
Lemma local_loop_raise (pre post : list Node) (item : Node) (e : exn) (clock : Clock) :
  ParseLocal.extract_loan_data item (List.length pre) = Raise e ->
  let before := ParseLocal.loop 0 pre (ParseLocal.MkAcc [] [] clock) in
  let entry :=
    ParseLocal.extraction_error (List.length pre) e
      (fst (now (ParseLocal.acc_clock before))) in
  let after :=
    ParseLocal.loop (S (List.length pre)) post
      (ParseLocal.MkAcc [] [] (snd (now (ParseLocal.acc_clock before)))) in
  ParseLocal.loop 0 (pre ++ item :: post)%list (ParseLocal.MkAcc [] [] clock)
  = ParseLocal.MkAcc
      (ParseLocal.acc_loans before ++ ParseLocal.acc_loans after)%list
      (ParseLocal.acc_errors before ++ entry :: ParseLocal.acc_errors after)%list
      (ParseLocal.acc_clock after).
Proof.
  intros He before entry after.
  rewrite local_loop_app, local_loop_cons.
  change (0 + List.length pre) with (List.length pre).
  rewrite (local_step_raise _ _ _ e He).
  rewrite local_loop_extends.
  cbn [ParseLocal.acc_loans ParseLocal.acc_errors ParseLocal.acc_clock].
  rewrite <- app_assoc. reflexivity.
Qed.

(** A fragment whose record has an empty recipient. *)
Lemma local_loop_drop (pre post : list Node) (item : Node) (d : LoanData) (clock : Clock) :
  ParseLocal.extract_loan_data item (List.length pre) = Ok d ->
  recipient d = EmptyString ->
  let before := ParseLocal.loop 0 pre (ParseLocal.MkAcc [] [] clock) in
  let after :=
    ParseLocal.loop (S (List.length pre)) post
      (ParseLocal.MkAcc [] [] (ParseLocal.acc_clock before)) in
  ParseLocal.loop 0 (pre ++ item :: post)%list (ParseLocal.MkAcc [] [] clock)
  = ParseLocal.MkAcc
      (ParseLocal.acc_loans before ++ ParseLocal.acc_loans after)%list
      (ParseLocal.acc_errors before ++ ParseLocal.acc_errors after)%list
      (ParseLocal.acc_clock after).
Proof.
  intros Hd Hr before after.
  rewrite local_loop_app, local_loop_cons.
  change (0 + List.length pre) with (List.length pre).
  rewrite (local_step_drop _ _ _ d Hd Hr).
  rewrite local_loop_extends. reflexivity.
Qed.

(* ================================================================== *)
(** ** The loop of the spider *)

Section SpiderLoop.

Variable urljoin : string -> string -> res string.
Variable response : Propublica.Response.

Local Abbreviation step := (Propublica.step urljoin response).
Local Abbreviation loop := (Propublica.loop urljoin response).
Local Abbreviation fields := (Propublica.extract_fields urljoin all_on).

Lemma spider_loop_cons (idx : nat) (item : Node) (rest : list Node) (acc : Propublica.Acc) :
  loop idx (item :: rest) acc = loop (S idx) rest (step idx item acc).
Proof. reflexivity. Qed.

Lemma spider_loop_app (l1 l2 : list Node) :
  forall idx acc,
    loop idx (l1 ++ l2)%list acc = loop (idx + List.length l1) l2 (loop idx l1 acc).
Proof.
  induction l1 as [|x l1 IH]; intros idx acc; simpl.
  - rewrite Nat.add_0_r. reflexivity.
  - rewrite IH. f_equal. lia.
Qed.

Lemma spider_step_raise (idx : nat) (item : Node) (acc : Propublica.Acc) (e : exn) :
  fields item response idx = Raise e ->
  step idx item acc
  = Propublica.MkAcc
      (Propublica.acc_yielded acc)
      (Propublica.MkSpider
         (Propublica.scraped_loans (Propublica.acc_self acc))
         (Propublica.errors (Propublica.acc_self acc)
          ++ [Propublica.extraction_error idx e
                (fst (now (Propublica.acc_clock acc)))])%list)
      (snd (now (Propublica.acc_clock acc))).
Proof.
  intros H. unfold Propublica.step, Propublica._extract_loan_data,
              Propublica._extract_loan_data_with.
  rewrite H. reflexivity.
Qed.

Lemma spider_step_drop (idx : nat) (item : Node) (acc : Propublica.Acc)
      (mk : string -> LoanData) :
  fields item response idx = Ok mk ->
  recipient (mk (fst (now (Propublica.acc_clock acc)))) = EmptyString ->
  step idx item acc
  = Propublica.MkAcc (Propublica.acc_yielded acc) (Propublica.acc_self acc)
      (snd (now (Propublica.acc_clock acc))).
Proof.
  intros H Hr. unfold Propublica.step, Propublica._extract_loan_data,
                 Propublica._extract_loan_data_with.
  rewrite H.
  change (let (ts, c) := now (Propublica.acc_clock acc) in (Ok (mk ts), c))
    with (Ok (mk (fst (now (Propublica.acc_clock acc)))),
          snd (now (Propublica.acc_clock acc))).
  cbv iota beta. rewrite Hr. reflexivity.
Qed.

Lemma spider_step_keep (idx : nat) (item : Node) (acc : Propublica.Acc)
      (mk : string -> LoanData) :
  fields item response idx = Ok mk ->
  recipient (mk (fst (now (Propublica.acc_clock acc)))) <> EmptyString ->
  step idx item acc
  = Propublica.MkAcc
      (Propublica.acc_yielded acc ++ [mk (fst (now (Propublica.acc_clock acc)))])%list
      (Propublica.MkSpider
         (Propublica.scraped_loans (Propublica.acc_self acc)
          ++ [mk (fst (now (Propublica.acc_clock acc)))])%list
         (Propublica.errors (Propublica.acc_self acc)))
      (snd (now (Propublica.acc_clock acc))).
Proof.
  intros H Hr. unfold Propublica.step, Propublica._extract_loan_data,
                 Propublica._extract_loan_data_with.
  rewrite H.
  change (let (ts, c) := now (Propublica.acc_clock acc) in (Ok (mk ts), c))
    with (Ok (mk (fst (now (Propublica.acc_clock acc)))),
          snd (now (Propublica.acc_clock acc))).
  cbv iota beta. rewrite (truthy_nonempty _ Hr). reflexivity.
Qed.

(** The three ways an iteration can go. *)
Lemma spider_step_cases (idx : nat) (item : Node) (acc : Propublica.Acc) :
  (exists e, fields item response idx = Raise e)
  \/ (exists mk, fields item response idx = Ok mk
                 /\ recipient (mk (fst (now (Propublica.acc_clock acc)))) = EmptyString)
  \/ (exists mk, fields item response idx = Ok mk
                 /\ recipient (mk (fst (now (Propublica.acc_clock acc)))) <> EmptyString).
Proof.
  destruct (fields item response idx) as [mk|e]; [|left; eauto].
  right.
  destruct (recipient (mk (fst (now (Propublica.acc_clock acc))))) eqn:E.
  - left. eauto.
  - right. exists mk. split; [reflexivity|]. rewrite E. discriminate.
Qed.

Lemma spider_step_extends (idx : nat) (item : Node) (acc : Propublica.Acc) :
  step idx item acc
  = Propublica.MkAcc
      (Propublica.acc_yielded acc
       ++ Propublica.acc_yielded (step idx item (blank (Propublica.acc_clock acc))))%list
      (Propublica.MkSpider
         (Propublica.scraped_loans (Propublica.acc_self acc)
          ++ Propublica.scraped_loans
               (Propublica.acc_self (step idx item (blank (Propublica.acc_clock acc)))))%list
         (Propublica.errors (Propublica.acc_self acc)
          ++ Propublica.errors
               (Propublica.acc_self (step idx item (blank (Propublica.acc_clock acc)))))%list)
      (Propublica.acc_clock (step idx item (blank (Propublica.acc_clock acc)))).
Proof.
  destruct acc as [Y [L E] c].
  destruct (spider_step_cases idx item (Propublica.MkAcc Y (Propublica.MkSpider L E) c))
    as [[e H]|[[mk [H Hr]]|[mk [H Hr]]]].
  - rewrite (spider_step_raise _ _ _ e H), (spider_step_raise _ _ (blank _) e H).
    simpl. rewrite !app_nil_r. reflexivity.
  - rewrite (spider_step_drop _ _ _ mk H Hr), (spider_step_drop _ _ (blank _) mk H Hr).
    simpl. rewrite !app_nil_r. reflexivity.
  - rewrite (spider_step_keep _ _ _ mk H Hr), (spider_step_keep _ _ (blank _) mk H Hr).
    simpl. rewrite !app_nil_r. reflexivity.
Qed.

Lemma spider_loop_extends (items : list Node) :
  forall idx acc,
    loop idx items acc
    = Propublica.MkAcc
        (Propublica.acc_yielded acc
         ++ Propublica.acc_yielded (loop idx items (blank (Propublica.acc_clock acc))))%list
        (Propublica.MkSpider
           (Propublica.scraped_loans (Propublica.acc_self acc)
            ++ Propublica.scraped_loans
                 (Propublica.acc_self (loop idx items (blank (Propublica.acc_clock acc)))))%list
           (Propublica.errors (Propublica.acc_self acc)
            ++ Propublica.errors
                 (Propublica.acc_self (loop idx items (blank (Propublica.acc_clock acc)))))%list)
        (Propublica.acc_clock (loop idx items (blank (Propublica.acc_clock acc)))).
Proof.
  induction items as [|item rest IH]; intros idx acc.
  - destruct acc as [Y [L E] c]. simpl. rewrite !app_nil_r. reflexivity.
  - rewrite !spider_loop_cons.
    rewrite (IH (S idx) (step idx item acc)).
    rewrite (IH (S idx) (step idx item (blank (Propublica.acc_clock acc)))).
    rewrite (spider_step_extends idx item acc).
    cbn [Propublica.acc_yielded Propublica.acc_self Propublica.acc_clock
         Propublica.scraped_loans Propublica.errors].
    rewrite <- !app_assoc. reflexivity.
Qed.

(** A fragment on which extraction raises. *)
Lemma spider_loop_raise (pre post : list Node) (item : Node) (e : exn)
      (self : Propublica.Spider) (clock : Clock) :
  fields item response (List.length pre) = Raise e ->
  let before := loop 0 pre (Propublica.MkAcc [] self clock) in
  let entry :=
    Propublica.extraction_error (List.length pre) e
      (fst (now (Propublica.acc_clock before))) in
  let after :=
    loop (S (List.length pre)) post (blank (snd (now (Propublica.acc_clock before)))) in
  loop 0 (pre ++ item :: post)%list (Propublica.MkAcc [] self clock)
  = Propublica.MkAcc
      (Propublica.acc_yielded before ++ Propublica.acc_yielded after)%list
      (Propublica.MkSpider
         (Propublica.scraped_loans (Propublica.acc_self before)
          ++ Propublica.scraped_loans (Propublica.acc_self after))%list
         (Propublica.errors (Propublica.acc_self before)
          ++ entry :: Propublica.errors (Propublica.acc_self after))%list)
      (Propublica.acc_clock after).
Proof.
  intros He before entry after.
  rewrite spider_loop_app, spider_loop_cons.
  change (0 + List.length pre) with (List.length pre).
  rewrite (spider_step_raise _ _ _ e He).
  rewrite spider_loop_extends.
  cbn [Propublica.acc_yielded Propublica.acc_self Propublica.acc_clock
       Propublica.scraped_loans Propublica.errors].
  rewrite <- app_assoc. reflexivity.
Qed.

(** A fragment whose record has an empty recipient: only the clock moves,
    by the reading its [scraped_at] took. *)
Lemma spider_loop_drop (pre post : list Node) (item : Node)
      (mk : string -> LoanData) (self : Propublica.Spider) (clock : Clock) :
  let before := loop 0 pre (Propublica.MkAcc [] self clock) in
  let after :=
    loop (S (List.length pre)) post (blank (snd (now (Propublica.acc_clock before)))) in
  fields item response (List.length pre) = Ok mk ->
  recipient (mk (fst (now (Propublica.acc_clock before)))) = EmptyString ->
  loop 0 (pre ++ item :: post)%list (Propublica.MkAcc [] self clock)
  = Propublica.MkAcc
      (Propublica.acc_yielded before ++ Propublica.acc_yielded after)%list
      (Propublica.MkSpider
         (Propublica.scraped_loans (Propublica.acc_self before)
          ++ Propublica.scraped_loans (Propublica.acc_self after))%list
         (Propublica.errors (Propublica.acc_self before)
          ++ Propublica.errors (Propublica.acc_self after))%list)
      (Propublica.acc_clock after).
Proof.
  intros before after Hd Hr. subst after before.
  rewrite spider_loop_app, spider_loop_cons.
  change (0 + List.length pre) with (List.length pre).
  rewrite (spider_step_drop _ _ _ mk Hd Hr).
  rewrite spider_loop_extends. reflexivity.
Qed.

(** [parse] runs its loop when the status is below 400, the search
    information is read without an exception and a fragment is found. *)
Lemma spider_parse_runs_loop (self : Propublica.Spider) (clock : Clock)
      (info : string * string) (item : Node) (rest : list Node) :
  Propublica.status response < 400 ->
  Propublica._extract_search_info response = Ok info ->
  Propublica.locate response = Ok (item :: rest) ->
  Propublica.parse urljoin self response clock
  = (None, loop 0 (item :: rest) (Propublica.MkAcc [] self clock)).
Proof.
  intros Hs Hi Hl. unfold Propublica.parse.
  assert (E : Nat.leb 400 (Propublica.status response) = false)
    by (apply Nat.leb_gt; exact Hs).
  rewrite E, Hi, Hl. reflexivity.
Qed.

End SpiderLoop.

(* ================================================================== *)
(** ** One bad fragment, one entry *)

(** C4.  In both scrapers, when field extraction raises on a located
    fragment, the loop catches the exception, appends exactly one
    [ExtractionError] entry, whose message names the position of the
    fragment, and goes on: the records are those of the fragments before it
    followed by those of the fragments after it, and the error entries are
    those of the fragments before it, the one entry, and those of the
    fragments after it. *)
Theorem fragment_failure_is_local :
  (forall selector clock q h pre item post e,
     css sel_search_query selector = Ok q ->
     css sel_h1_text selector = Ok h ->
     ParseLocal.locate selector = Ok (pre ++ item :: post)%list ->
     ParseLocal.extract_loan_data item (List.length pre) = Raise e ->
     let before := ParseLocal.loop 0 pre (ParseLocal.MkAcc [] [] clock) in
     let entry :=
       {| err_url := None;
          error_type := "ExtractionError";
          status_code := None;
          message := "Failed to extract loan " ++ str_of_nat (List.length pre)
                     ++ ": " ++ exn_str e;
          suggestion := None;
          timestamp := fst (now (ParseLocal.acc_clock before)) |} in
     let after :=
       ParseLocal.loop (S (List.length pre)) post
         (ParseLocal.MkAcc [] [] (snd (now (ParseLocal.acc_clock before)))) in
     exists r c,
       ParseLocal.parse_loan_html selector clock = Ok (r, c)
       /\ ParseLocal.loans r
          = (ParseLocal.acc_loans before ++ ParseLocal.acc_loans after)%list
       /\ ParseLocal.errors r
          = (ParseLocal.acc_errors before ++ entry :: ParseLocal.acc_errors after)%list)
  /\ (forall urljoin self response clock info pre item post e,
        Propublica.status response < 400 ->
        Propublica._extract_search_info response = Ok info ->
        Propublica.locate response = Ok (pre ++ item :: post)%list ->
        Propublica.extract_fields urljoin all_on item response (List.length pre)
        = Raise e ->
        let before :=
          Propublica.loop urljoin response 0 pre (Propublica.MkAcc [] self clock) in
        let entry :=
          {| err_url := None;
             error_type := "ExtractionError";
             status_code := None;
             message := "Failed to extract loan " ++ str_of_nat (List.length pre)
                        ++ ": " ++ exn_str e;
             suggestion := None;
             timestamp := fst (now (Propublica.acc_clock before)) |} in
        let after :=
          Propublica.loop urljoin response (S (List.length pre)) post
            (blank (snd (now (Propublica.acc_clock before)))) in
        Propublica.parse urljoin self response clock
        = (None,
           Propublica.MkAcc
             (Propublica.acc_yielded before ++ Propublica.acc_yielded after)%list
             (Propublica.MkSpider
                (Propublica.scraped_loans (Propublica.acc_self before)
                 ++ Propublica.scraped_loans (Propublica.acc_self after))%list
                (Propublica.errors (Propublica.acc_self before)
                 ++ entry :: Propublica.errors (Propublica.acc_self after))%list)
             (Propublica.acc_clock after))).
Proof.
  split.
  - intros selector clock q h pre item post e Hq Hh Hl He before entry after.
    destruct (local_parse_ok selector clock q h _ Hq Hh Hl) as [r [c [Hp [HL HE]]]].
    exists r, c. split; [exact Hp|].
    rewrite HL, HE, (local_loop_raise pre post item e clock He).
    split; reflexivity.
  - intros urljoin self response clock info pre item post e Hs Hi Hl He
           before entry after.
    assert (Hne : exists x xs, (pre ++ item :: post)%list = x :: xs)
      by (destruct pre; simpl; eauto).
    destruct Hne as [x [xs Hx]].
    rewrite Hx in Hl.
    rewrite (spider_parse_runs_loop urljoin response self clock info x xs Hs Hi Hl).
    rewrite <- Hx.
    rewrite (spider_loop_raise urljoin response pre post item e self clock He).
    reflexivity.
Qed.

Lemma fragment_failure_is_local_witness :
  (exists r c,
     ParseLocal.parse_loan_html mixed_page ticking = Ok (r, c)
     /\ map index (ParseLocal.loans r) = [1; 4]
     /\ ParseLocal.errors r
        = [ {| err_url := None;
               error_type := "ExtractionError";
               status_code := None;
               message := "Failed to extract loan 1: boom";
               suggestion := None;
               timestamp := "T0" |} ])
  /\ (exists a,
        Propublica.parse join fresh_spider (spider_response mixed_page) ticking
        = (None, a)
        /\ map index (Propublica.acc_yielded a) = [1; 4]
        /\ Propublica.errors (Propublica.acc_self a)
           = [ {| err_url := None;
                  error_type := "ExtractionError";
                  status_code := None;
                  message := "Failed to extract loan 1: boom";
                  suggestion := None;
                  timestamp := "T1" |} ]).
Proof.
  split.
  - destruct (proj1 fragment_failure_is_local mixed_page ticking
                [text_node "90210 medical"] [text_node " Results "]
                [acme] broken_item [nameless; zenith]
                (MkExn OtherError "boom")
                eq_refl eq_refl eq_refl eq_refl) as [r [c [Hp [HL HE]]]].
    exists r, c. split; [exact Hp|].
    rewrite HL, HE. split; vm_compute; reflexivity.
  - eexists. split.
    + apply (proj2 fragment_failure_is_local join fresh_spider
               (spider_response mixed_page) ticking
               ("90210 medical", "Results")
               [acme] broken_item [nameless; zenith]
               (MkExn OtherError "boom"));
        [simpl; lia | vm_compute; reflexivity ..].
    + split; vm_compute; reflexivity.
Defined.

(* ================================================================== *)
(** ** What the loops add, clock aside *)

Lemma local_extract_index (on : Recognizers) (item : Node) (idx : nat) (d : LoanData) :
  ParseLocal.extract_loan_data_with on item idx = Ok d -> index d = idx + 1.
Proof.
  unfold ParseLocal.extract_loan_data_with.
  destruct (css sel_recipient_link item) as [rl|]; simpl; [|discriminate].
  destruct (sl_css sel_text rl); simpl; [|discriminate].
  destruct (sl_css sel_href rl); simpl; [|discriminate].
  destruct (ParseLocal.structural item) as [st|]; simpl; [|discriminate].
  destruct (ParseLocal.fallback on item st) as [st'|]; simpl; [|discriminate].
  destruct (parse_amount (s_amount st')); simpl; [|discriminate].
  intros E; inversion E; reflexivity.
Qed.

Lemma local_loans_trace (items : list Node) :
  forall idx acc,
    ParseLocal.acc_loans (ParseLocal.loop idx items acc)
    = (ParseLocal.acc_loans acc ++ local_records idx items)%list.
Proof.
  induction items as [|item rest IH]; intros idx acc; simpl.
  - rewrite app_nil_r. reflexivity.
  - rewrite IH. unfold ParseLocal.step.
    destruct (ParseLocal.extract_loan_data item idx) as [d|e]; simpl.
    + destruct (truthy (recipient d)); simpl; [|reflexivity].
      rewrite <- app_assoc. reflexivity.
    + reflexivity.
Qed.

Lemma local_errors_trace (items : list Node) :
  forall idx acc,
    map untimed (ParseLocal.acc_errors (ParseLocal.loop idx items acc))
    = (map untimed (ParseLocal.acc_errors acc) ++ local_failures idx items)%list.
Proof.
  induction items as [|item rest IH]; intros idx acc; simpl.
  - rewrite app_nil_r. reflexivity.
  - rewrite IH. unfold ParseLocal.step.
    destruct (ParseLocal.extract_loan_data item idx) as [d|e]; simpl.
    + destruct (truthy (recipient d)); reflexivity.
    + rewrite map_app, <- app_assoc. reflexivity.
Qed.

Lemma local_records_sorted (items : list Node) :
  forall idx,
    StronglySorted lt (map index (local_records idx items))
    /\ Forall (fun k => idx < k) (map index (local_records idx items)).
Proof.
  induction items as [|item rest IH]; intros idx; simpl.
  - split; constructor.
  - destruct (IH (S idx)) as [Hs Hf].
    assert (Hf' : Forall (fun k => idx < k) (map index (local_records (S idx) rest))).
    { eapply Forall_impl; [|exact Hf]. simpl. intros k Hk. lia. }
    destruct (ParseLocal.extract_loan_data item idx) as [d|e] eqn:E; [|split; assumption].
    destruct (truthy (recipient d)); [|split; assumption].
    pose proof (local_extract_index all_on item idx d E) as Hi.
    simpl. split.
    + constructor; [exact Hs|].
      eapply Forall_impl; [|exact Hf]. simpl. intros k Hk. lia.
    + constructor; [lia|exact Hf'].
Qed.

Lemma local_records_source (items : list Node) :
  forall idx d,
    In d (local_records idx items) ->
    exists i item,
      nth_error items i = Some item
      /\ ParseLocal.extract_loan_data item (idx + i) = Ok d
      /\ recipient d <> EmptyString.
Proof.
  induction items as [|item rest IH]; intros idx d; simpl; [contradiction|].
  assert (Hrest : In d (local_records (S idx) rest) ->
                  exists i it,
                    nth_error (item :: rest) i = Some it
                    /\ ParseLocal.extract_loan_data it (idx + i) = Ok d
                    /\ recipient d <> EmptyString).
  { intros H. destruct (IH (S idx) d H) as [i [it [Hn [He Hr]]]].
    exists (S i), it. split; [exact Hn|]. split; [|exact Hr].
    replace (idx + S i) with (S idx + i) by lia. exact He. }
  destruct (ParseLocal.extract_loan_data item idx) as [d'|e] eqn:E; [|exact Hrest].
  destruct (truthy (recipient d')) eqn:T; [|exact Hrest].
  intros [Hd|Hd]; [|exact (Hrest Hd)].
  subst d'. exists 0, item. split; [reflexivity|].
  rewrite Nat.add_0_r. split; [exact E|].
  intros Hr. rewrite Hr in T. discriminate.
Qed.

Section SpiderTrace.

Variable urljoin : string -> string -> res string.
Variable response : Propublica.Response.

Local Abbreviation step := (Propublica.step urljoin response).
Local Abbreviation loop := (Propublica.loop urljoin response).
Local Abbreviation fields := (Propublica.extract_fields urljoin all_on).

(** The clock enters a record through [scraped_at] only. *)
Lemma spider_fields_shape (on : Recognizers) (item : Node) (idx : nat)
      (mk : string -> LoanData) :
  Propublica.extract_fields urljoin on item response idx = Ok mk ->
  forall ts,
    unstamped (mk ts) = unstamped (mk EmptyString)
    /\ recipient (mk ts) = recipient (mk EmptyString)
    /\ index (mk ts) = idx + 1
    /\ scraped_at (mk ts) = Some ts.
Proof.
  unfold Propublica.extract_fields.
  destruct (css sel_label_text item); simpl; [|discriminate].
  destruct (css sel_recipient_link item) as [rl|]; simpl; [|discriminate].
  destruct (sl_css sel_text rl); simpl; [|discriminate].
  destruct (sl_css sel_href rl) as [href|]; simpl; [|discriminate].
  destruct (if truthy (get EmptyString href)
            then urljoin (Propublica.url response) (get EmptyString href)
            else Ok (get EmptyString href)); simpl; [|discriminate].
  destruct (css sel_value_divs item); simpl; [|discriminate].
  destruct (Propublica.structural item) as [st|]; simpl; [|discriminate].
  destruct (Propublica.fallback on item st) as [st'|]; simpl; [|discriminate].
  destruct (_parse_amount (s_amount st')); simpl; [|discriminate].
  intros E ts; inversion E. repeat split.
Qed.

Lemma spider_yield_trace (items : list Node) :
  forall idx acc,
    map unstamped (Propublica.acc_yielded (loop idx items acc))
    = (map unstamped (Propublica.acc_yielded acc) ++ spider_records urljoin response idx items)%list
    /\ map unstamped (Propublica.scraped_loans (Propublica.acc_self (loop idx items acc)))
       = (map unstamped (Propublica.scraped_loans (Propublica.acc_self acc))
          ++ spider_records urljoin response idx items)%list
    /\ map untimed (Propublica.errors (Propublica.acc_self (loop idx items acc)))
       = (map untimed (Propublica.errors (Propublica.acc_self acc))
          ++ spider_failures urljoin response idx items)%list.
Proof.
  induction items as [|item rest IH]; intros idx acc.
  - simpl. rewrite !app_nil_r. repeat split.
  - rewrite spider_loop_cons.
    destruct (IH (S idx) (step idx item acc)) as [IH1 [IH2 IH3]].
    rewrite IH1, IH2, IH3. clear IH IH1 IH2 IH3.
    cbn [spider_records spider_failures].
    destruct (spider_step_cases urljoin response idx item acc)
      as [[e H]|[[mk [H Hr]]|[mk [H Hr]]]].
    + rewrite (spider_step_raise urljoin response _ _ _ e H), H.
      cbn [Propublica.acc_yielded Propublica.acc_self Propublica.scraped_loans
           Propublica.errors].
      rewrite map_app, <- app_assoc. repeat split.
    + rewrite (spider_step_drop urljoin response _ _ _ mk H Hr), H.
      destruct (spider_fields_shape all_on item idx mk H
                  (fst (now (Propublica.acc_clock acc)))) as [_ [Hrec _]].
      rewrite <- Hrec, Hr. repeat split.
    + rewrite (spider_step_keep urljoin response _ _ _ mk H Hr), H.
      destruct (spider_fields_shape all_on item idx mk H
                  (fst (now (Propublica.acc_clock acc)))) as [Hun [Hrec _]].
      rewrite <- Hrec, (truthy_nonempty _ Hr).
      cbn [Propublica.acc_yielded Propublica.acc_self Propublica.scraped_loans
           Propublica.errors].
      rewrite !map_app, <- !app_assoc. cbn [map app]. rewrite Hun. repeat split.
Qed.

Lemma spider_records_sorted (items : list Node) :
  forall idx,
    StronglySorted lt (map index (spider_records urljoin response idx items))
    /\ Forall (fun k => idx < k) (map index (spider_records urljoin response idx items)).
Proof.
  induction items as [|item rest IH]; intros idx; simpl.
  - split; constructor.
  - destruct (IH (S idx)) as [Hs Hf].
    assert (Hf' : Forall (fun k => idx < k)
                    (map index (spider_records urljoin response (S idx) rest))).
    { eapply Forall_impl; [|exact Hf]. simpl. intros k Hk. lia. }
    destruct (fields item response idx) as [mk|e] eqn:E; [|split; assumption].
    destruct (truthy (recipient (mk EmptyString))); [|split; assumption].
    destruct (spider_fields_shape all_on item idx mk E EmptyString) as [_ [_ [Hi _]]].
    simpl. rewrite Hi. split.
    + constructor; [exact Hs|].
      eapply Forall_impl; [|exact Hf]. simpl. intros k Hk. lia.
    + constructor; [lia|exact Hf'].
Qed.

Lemma spider_records_source (items : list Node) :
  forall idx d,
    In d (spider_records urljoin response idx items) ->
    exists i item mk,
      nth_error items i = Some item
      /\ fields item response (idx + i) = Ok mk
      /\ d = unstamped (mk EmptyString)
      /\ recipient d <> EmptyString.
Proof.
  induction items as [|item rest IH]; intros idx d; simpl; [contradiction|].
  assert (Hrest : In d (spider_records urljoin response (S idx) rest) ->
                  exists i it mk,
                    nth_error (item :: rest) i = Some it
                    /\ fields it response (idx + i) = Ok mk
                    /\ d = unstamped (mk EmptyString)
                    /\ recipient d <> EmptyString).
  { intros H. destruct (IH (S idx) d H) as [i [it [mk [Hn [He Hr]]]]].
    exists (S i), it, mk. split; [exact Hn|]. split; [|exact Hr].
    replace (idx + S i) with (S idx + i) by lia. exact He. }
  destruct (fields item response idx) as [mk|e] eqn:E; [|exact Hrest].
  destruct (truthy (recipient (mk EmptyString))) eqn:T; [|exact Hrest].
  intros [Hd|Hd]; [|exact (Hrest Hd)].
  exists 0, item, mk. split; [reflexivity|].
  rewrite Nat.add_0_r. split; [exact E|]. split; [symmetry; exact Hd|].
  subst d. simpl. intros Hr. rewrite Hr in T. discriminate.
Qed.

End SpiderTrace.

Lemma index_unstamped (l : list LoanData) : map index (map unstamped l) = map index l.
Proof. rewrite map_map. reflexivity. Qed.

Lemma local_records_upper (items : list Node) :
  forall idx,
    Forall (fun k => k <= idx + List.length items) (map index (local_records idx items)).
Proof.
  induction items as [|item rest IH]; intros idx; simpl; [constructor|].
  assert (Hrest : Forall (fun k => k <= idx + S (List.length rest))
                         (map index (local_records (S idx) rest))).
  { eapply Forall_impl; [|exact (IH (S idx))]. simpl. intros k Hk. lia. }
  destruct (ParseLocal.extract_loan_data item idx) as [d|e] eqn:E; [|exact Hrest].
  destruct (truthy (recipient d)); [|exact Hrest].
  pose proof (local_extract_index all_on item idx d E) as Hi.
  simpl. constructor; [lia|exact Hrest].
Qed.

Lemma spider_records_upper
      (urljoin : string -> string -> res string) (response : Propublica.Response)
      (items : list Node) :
  forall idx,
    Forall (fun k => k <= idx + List.length items)
           (map index (spider_records urljoin response idx items)).
Proof.
  induction items as [|item rest IH]; intros idx; simpl; [constructor|].
  assert (Hrest : Forall (fun k => k <= idx + S (List.length rest))
                         (map index (spider_records urljoin response (S idx) rest))).
  { eapply Forall_impl; [|exact (IH (S idx))]. simpl. intros k Hk. lia. }
  destruct (Propublica.extract_fields urljoin all_on item response idx)
    as [mk|e] eqn:E; [|exact Hrest].
  destruct (truthy (recipient (mk EmptyString))); [|exact Hrest].
  destruct (spider_fields_shape urljoin response all_on item idx mk E EmptyString)
    as [_ [_ [Hi _]]].
  simpl. rewrite Hi. constructor; [lia|exact Hrest].
Qed.

(** No record between two stretches of fragments carries the index of the
    fragment that separates them. *)
Lemma gap_index_absent (n : nat) (l1 l2 : list nat) :
  Forall (fun k => k <= n) l1 ->
  Forall (fun k => S n < k) l2 ->
  ~ In (n + 1) (l1 ++ l2)%list.
Proof.
  intros H1 H2 Hin. apply in_app_or in Hin. destruct Hin as [Hin|Hin].
  - rewrite Forall_forall in H1. specialize (H1 _ Hin). lia.
  - rewrite Forall_forall in H2. specialize (H2 _ Hin). lia.
Qed.

(** What [parse] of the spider has yielded when it ends. *)
Lemma spider_parse_yielded
      (urljoin : string -> string -> res string)
      (self : Propublica.Spider) (response : Propublica.Response) (clock : Clock) :
  Propublica.acc_yielded (snd (Propublica.parse urljoin self response clock)) = []
  \/ exists items,
       Propublica.locate response = Ok items
       /\ snd (Propublica.parse urljoin self response clock)
          = Propublica.loop urljoin response 0 items (Propublica.MkAcc [] self clock).
Proof.
  unfold Propublica.parse.
  destruct (Nat.leb 400 (Propublica.status response)); [left; reflexivity|].
  destruct (Propublica._extract_search_info response); [|left; reflexivity].
  destruct (Propublica.locate response) as [[|x xs]|]; [left; reflexivity| |left; reflexivity].
  right. exists (x :: xs). split; reflexivity.
Qed.

(* ================================================================== *)
(** ** Fragments without a name *)

(** C8.  In both scrapers, a located fragment whose extraction returns a
    record with an empty recipient leaves no trace: the records are those of
    the fragments before it followed by those of the fragments after it, none
    of them carries its index, and the error entries are those of the
    fragments before it followed by those of the fragments after it. *)
Theorem nameless_fragment_is_dropped :
  (forall selector clock q h pre item post d,
     css sel_search_query selector = Ok q ->
     css sel_h1_text selector = Ok h ->
     ParseLocal.locate selector = Ok (pre ++ item :: post)%list ->
     ParseLocal.extract_loan_data item (List.length pre) = Ok d ->
     recipient d = EmptyString ->
     let before := ParseLocal.loop 0 pre (ParseLocal.MkAcc [] [] clock) in
     let after :=
       ParseLocal.loop (S (List.length pre)) post
         (ParseLocal.MkAcc [] [] (ParseLocal.acc_clock before)) in
     exists r c,
       ParseLocal.parse_loan_html selector clock = Ok (r, c)
       /\ ParseLocal.loans r
          = (ParseLocal.acc_loans before ++ ParseLocal.acc_loans after)%list
       /\ ParseLocal.errors r
          = (ParseLocal.acc_errors before ++ ParseLocal.acc_errors after)%list
       /\ ~ In (List.length pre + 1) (map index (ParseLocal.loans r)))
  /\ (forall urljoin self response clock info pre item post mk,
        Propublica.status response < 400 ->
        Propublica._extract_search_info response = Ok info ->
        Propublica.locate response = Ok (pre ++ item :: post)%list ->
        Propublica.extract_fields urljoin all_on item response (List.length pre)
        = Ok mk ->
        recipient (mk EmptyString) = EmptyString ->
        let before :=
          Propublica.loop urljoin response 0 pre (Propublica.MkAcc [] self clock) in
        let after :=
          Propublica.loop urljoin response (S (List.length pre)) post
            (blank (snd (now (Propublica.acc_clock before)))) in
        Propublica.parse urljoin self response clock
        = (None,
           Propublica.MkAcc
             (Propublica.acc_yielded before ++ Propublica.acc_yielded after)%list
             (Propublica.MkSpider
                (Propublica.scraped_loans (Propublica.acc_self before)
                 ++ Propublica.scraped_loans (Propublica.acc_self after))%list
                (Propublica.errors (Propublica.acc_self before)
                 ++ Propublica.errors (Propublica.acc_self after))%list)
             (Propublica.acc_clock after))
        /\ ~ In (List.length pre + 1)
               (map index (Propublica.acc_yielded before
                           ++ Propublica.acc_yielded after)%list)).
Proof.
  split.
  - intros selector clock q h pre item post d Hq Hh Hl Hd Hr before after.
    destruct (local_parse_ok selector clock q h _ Hq Hh Hl) as [r [c [Hp [HL HE]]]].
    exists r, c. split; [exact Hp|].
    rewrite HL, HE, (local_loop_drop pre post item d clock Hd Hr).
    cbn [ParseLocal.acc_loans ParseLocal.acc_errors].
    split; [reflexivity|]. split; [reflexivity|].
    subst before after. rewrite !local_loans_trace. simpl.
    rewrite map_app. apply gap_index_absent.
    + exact (local_records_upper pre 0).
    + exact (proj2 (local_records_sorted post (S (List.length pre)))).
  - intros urljoin self response clock info pre item post mk Hs Hi Hl Hd Hr
           before after.
    assert (Hne : exists x xs, (pre ++ item :: post)%list = x :: xs)
      by (destruct pre; simpl; eauto).
    destruct Hne as [x [xs Hx]].
    rewrite Hx in Hl.
    rewrite (spider_parse_runs_loop urljoin response self clock info x xs Hs Hi Hl).
    rewrite <- Hx.
    assert (Hr' : recipient (mk (fst (now (Propublica.acc_clock before)))) = EmptyString).
    { destruct (spider_fields_shape urljoin response all_on item _ mk Hd
                  (fst (now (Propublica.acc_clock before)))) as [_ [Hrec _]].
      rewrite Hrec. exact Hr. }
    rewrite (spider_loop_drop urljoin response pre post item mk self clock Hd Hr').
    split; [reflexivity|].
    rewrite <- index_unstamped, map_app.
    subst before after.
    rewrite (proj1 (spider_yield_trace urljoin response pre 0 _)).
    rewrite (proj1 (spider_yield_trace urljoin response post _ _)).
    simpl. rewrite map_app. apply gap_index_absent.
    + exact (spider_records_upper urljoin response pre 0).
    + exact (proj2 (spider_records_sorted urljoin response post (S (List.length pre)))).
Qed.

Lemma nameless_fragment_is_dropped_witness :
  (exists r c,
     ParseLocal.parse_loan_html mixed_page ticking = Ok (r, c)
     /\ ~ In 3 (map index (ParseLocal.loans r))
     /\ map recipient (ParseLocal.loans r) = ["ACME LLC"; "Zenith Inc"]
     /\ List.length (ParseLocal.errors r) = 1)
  /\ ~ In 3 (map index
               (Propublica.acc_yielded
                  (snd (Propublica.parse join fresh_spider
                          (spider_response mixed_page) ticking)))).
Proof.
  split.
  - destruct (proj1 nameless_fragment_is_dropped mixed_page ticking
                [text_node "90210 medical"] [text_node " Results "]
                [acme; broken_item] nameless [zenith] _
                eq_refl eq_refl eq_refl eq_refl eq_refl)
      as [r [c [Hp [HL [HE Hn]]]]].
    exists r, c. split; [exact Hp|]. split; [exact Hn|].
    rewrite HL, HE. split; vm_compute; reflexivity.
  - assert (Hmk : exists mk,
               Propublica.extract_fields join all_on nameless
                 (spider_response mixed_page) 2 = Ok mk
               /\ recipient (mk EmptyString) = EmptyString)
      by (eexists; split; [vm_compute; reflexivity | reflexivity]).
    destruct Hmk as [mk [Hd Hr]].
    destruct (proj2 nameless_fragment_is_dropped join fresh_spider
                (spider_response mixed_page) ticking
                ("90210 medical", "Results")
                [acme; broken_item] nameless [zenith] mk
                ltac:(simpl; lia) eq_refl eq_refl Hd Hr) as [Hp Hn].
    rewrite Hp. exact Hn.
Defined.

(* ================================================================== *)
(** ** The index of a record *)

(** C10.  In both scrapers every emitted record comes from a located
    fragment and its index is the position of that fragment plus one; so
    along the records the indices increase strictly and are at least 1.  They
    need not be contiguous: on the sample page of four fragments, of which
    the second raises and the third has no name, the indices are 1 and 4. *)
Theorem record_index_is_position :
  (forall selector clock r c,
     ParseLocal.parse_loan_html selector clock = Ok (r, c) ->
     exists items,
       ParseLocal.locate selector = Ok items
       /\ (forall d,
             In d (ParseLocal.loans r) ->
             exists i item,
               nth_error items i = Some item
               /\ ParseLocal.extract_loan_data item i = Ok d
               /\ index d = i + 1)
       /\ StronglySorted lt (map index (ParseLocal.loans r))
       /\ Forall (fun k => 1 <= k) (map index (ParseLocal.loans r)))
  /\ (forall urljoin self response clock,
        (forall d,
           In d (Propublica.acc_yielded
                   (snd (Propublica.parse urljoin self response clock))) ->
           exists items i item mk,
             Propublica.locate response = Ok items
             /\ nth_error items i = Some item
             /\ Propublica.extract_fields urljoin all_on item response i = Ok mk
             /\ unstamped d = unstamped (mk EmptyString)
             /\ index d = i + 1)
        /\ StronglySorted lt
             (map index (Propublica.acc_yielded
                           (snd (Propublica.parse urljoin self response clock))))
        /\ Forall (fun k => 1 <= k)
             (map index (Propublica.acc_yielded
                           (snd (Propublica.parse urljoin self response clock)))))
  /\ (exists r c,
        ParseLocal.parse_loan_html mixed_page ticking = Ok (r, c)
        /\ map index (ParseLocal.loans r) = [1; 4])
  /\ map index (Propublica.acc_yielded
                  (snd (Propublica.parse join fresh_spider
                          (spider_response mixed_page) ticking)))
     = [1; 4].
Proof.
  split; [|split; [|split]].
  - intros selector clock r c Hp.
    destruct (local_parse_inv selector clock c r Hp) as [items [Hl [HL _]]].
    exists items. split; [exact Hl|].
    rewrite HL, local_loans_trace. simpl.
    split; [|split].
    + intros d Hd.
      destruct (local_records_source items 0 d Hd) as [i [item [Hn [He _]]]].
      exists i, item. split; [exact Hn|]. split; [exact He|].
      exact (local_extract_index all_on item i d He).
    + exact (proj1 (local_records_sorted items 0)).
    + eapply Forall_impl; [|exact (proj2 (local_records_sorted items 0))].
      simpl. intros k Hk. lia.
  - intros urljoin self response clock.
    destruct (spider_parse_yielded urljoin self response clock) as [E|[items [Hl E]]].
    + rewrite E. simpl. split; [intros d []|]. split; constructor.
    + rewrite E.
      pose proof (proj1 (spider_yield_trace urljoin response items 0
                           (Propublica.MkAcc [] self clock))) as T.
      simpl in T.
      split; [|split].
      * intros d Hd.
        assert (Hu : In (unstamped d) (spider_records urljoin response 0 items))
          by (rewrite <- T; apply in_map; exact Hd).
        destruct (spider_records_source urljoin response items 0 _ Hu)
          as [i [item [mk [Hn [He [Hd' _]]]]]].
        exists items, i, item, mk.
        split; [exact Hl|]. split; [exact Hn|]. split; [exact He|].
        split; [exact Hd'|].
        destruct (spider_fields_shape urljoin response all_on item i mk He EmptyString)
          as [_ [_ [Hi _]]].
        change (index d) with (index (unstamped d)). rewrite Hd'. exact Hi.
      * rewrite <- index_unstamped, T.
        exact (proj1 (spider_records_sorted urljoin response items 0)).
      * rewrite <- index_unstamped, T.
        eapply Forall_impl;
          [|exact (proj2 (spider_records_sorted urljoin response items 0))].
        simpl. intros k Hk. lia.
  - eexists. eexists. split; [vm_compute; reflexivity|]. reflexivity.
  - vm_compute. reflexivity.
Qed.

Lemma record_index_is_position_witness :
  exists r c,
    ParseLocal.parse_loan_html mixed_page ticking = Ok (r, c)
    /\ StronglySorted lt (map index (ParseLocal.loans r))
    /\ Forall (fun k => 1 <= k) (map index (ParseLocal.loans r)).
Proof.
  assert (Hp : exists r c, ParseLocal.parse_loan_html mixed_page ticking = Ok (r, c))
    by (eexists; eexists; vm_compute; reflexivity).
  destruct Hp as [r [c Hp]].
  destruct (proj1 record_index_is_position mixed_page ticking r c Hp)
    as [items [_ [_ [Hs Hf]]]].
  exists r, c. split; [exact Hp|]. split; [exact Hs|exact Hf].
Defined.

(* ================================================================== *)
(** ** Running extraction twice *)

Lemma untimed_extends (l : list ErrorInfo) (mk : string -> ErrorInfo) (t1 t2 : string) :
  untimed (mk t1) = untimed (mk t2) ->
  map untimed (l ++ [mk t1])%list = map untimed (l ++ [mk t2])%list.
Proof. intros H. rewrite !map_app. simpl. rewrite H. reflexivity. Qed.

(** C9, as the code has it.  Extraction is a function of the document and
    of the clock.  Two runs of [parse_loan_html] on one document, whatever
    the clock of each, raise the same exception or return the same search
    query, heading, count and records, and error entries that agree up to
    their time stamps.  Two runs of the spider's [parse] on one response
    and one state of the spider let the same exception escape, yield records
    that agree up to [scraped_at], and leave lists of records and of error
    entries that agree up to [scraped_at] and the time stamps.  The lists of
    the spider accumulate: a run appends to them what it would put into
    those of a fresh spider. *)
Theorem extraction_deterministic_up_to_clock :
  (forall selector c1 c2,
     match ParseLocal.parse_loan_html selector c1,
           ParseLocal.parse_loan_html selector c2 with
     | Ok (r1, _), Ok (r2, _) =>
         ParseLocal.search_query r1 = ParseLocal.search_query r2
         /\ ParseLocal.result_header r1 = ParseLocal.result_header r2
         /\ ParseLocal.total_loans r1 = ParseLocal.total_loans r2
         /\ ParseLocal.loans r1 = ParseLocal.loans r2
         /\ map untimed (ParseLocal.errors r1) = map untimed (ParseLocal.errors r2)
     | Raise e1, Raise e2 => e1 = e2
     | _, _ => False
     end)
  /\ (forall urljoin self response c1 c2,
        let p1 := Propublica.parse urljoin self response c1 in
        let p2 := Propublica.parse urljoin self response c2 in
        fst p1 = fst p2
        /\ map unstamped (Propublica.acc_yielded (snd p1))
           = map unstamped (Propublica.acc_yielded (snd p2))
        /\ map unstamped (Propublica.scraped_loans (Propublica.acc_self (snd p1)))
           = map unstamped (Propublica.scraped_loans (Propublica.acc_self (snd p2)))
        /\ map untimed (Propublica.errors (Propublica.acc_self (snd p1)))
           = map untimed (Propublica.errors (Propublica.acc_self (snd p2))))
  /\ (forall urljoin self response clock,
        let p := Propublica.parse urljoin self response clock in
        let p0 := Propublica.parse urljoin (Propublica.MkSpider [] []) response clock in
        fst p = fst p0
        /\ Propublica.acc_yielded (snd p) = Propublica.acc_yielded (snd p0)
        /\ Propublica.scraped_loans (Propublica.acc_self (snd p))
           = (Propublica.scraped_loans self
              ++ Propublica.scraped_loans (Propublica.acc_self (snd p0)))%list
        /\ Propublica.errors (Propublica.acc_self (snd p))
           = (Propublica.errors self
              ++ Propublica.errors (Propublica.acc_self (snd p0)))%list).
Proof.
  split; [|split].
  - intros selector c1 c2. unfold ParseLocal.parse_loan_html.
    destruct (css sel_search_query selector); simpl; [|reflexivity].
    destruct (css sel_h1_text selector); simpl; [|reflexivity].
    destruct (ParseLocal.locate selector) as [items|]; simpl; [|reflexivity].
    rewrite !local_loans_trace, !local_errors_trace. simpl. repeat split.
  - intros urljoin self response c1 c2. unfold Propublica.parse.
    destruct (Nat.leb 400 (Propublica.status response)).
    { simpl. repeat split. apply untimed_extends. reflexivity. }
    destruct (Propublica._extract_search_info response); [|simpl; repeat split].
    destruct (Propublica.locate response) as [[|x xs]|]; [| |simpl; repeat split].
    { simpl. repeat split. apply untimed_extends. reflexivity. }
    cbv zeta. cbn [fst snd].
    destruct (spider_yield_trace urljoin response (x :: xs) 0
                (Propublica.MkAcc [] self c1)) as [A1 [A2 A3]].
    destruct (spider_yield_trace urljoin response (x :: xs) 0
                (Propublica.MkAcc [] self c2)) as [B1 [B2 B3]].
    rewrite A1, A2, A3, B1, B2, B3. repeat split.
  - intros urljoin self response clock. unfold Propublica.parse.
    destruct (Nat.leb 400 (Propublica.status response)).
    { simpl. rewrite ?app_nil_r. repeat split. }
    destruct (Propublica._extract_search_info response);
      [|simpl; rewrite ?app_nil_r; repeat split].
    destruct (Propublica.locate response) as [[|x xs]|];
      [| |simpl; rewrite ?app_nil_r; repeat split].
    { simpl. rewrite ?app_nil_r. repeat split. }
    cbv zeta. cbn [fst snd].
    rewrite (spider_loop_extends urljoin response (x :: xs) 0
               (Propublica.MkAcc [] self clock)).
    repeat split.
Qed.

(** C9, as stated, fails.  On the sample page, whose second fragment
    raises, a second run of [parse_loan_html] with the clock the first run
    left returns an error entry with another time stamp; a second run of the
    spider's [parse], on the spider and the clock the first run left, yields
    records with other [scraped_at] values and leaves two error entries where
    the first run left one. *)
Lemma second_run_differs :
  ~ (forall selector clock r1 c1 r2 c2,
       ParseLocal.parse_loan_html selector clock = Ok (r1, c1) ->
       ParseLocal.parse_loan_html selector c1 = Ok (r2, c2) ->
       ParseLocal.loans r1 = ParseLocal.loans r2
       /\ ParseLocal.errors r1 = ParseLocal.errors r2)
  /\ ~ (forall self response clock,
          let p1 := Propublica.parse join self response clock in
          let p2 := Propublica.parse join (Propublica.acc_self (snd p1)) response
                      (Propublica.acc_clock (snd p1)) in
          Propublica.acc_yielded (snd p1) = Propublica.acc_yielded (snd p2)
          /\ Propublica.errors (Propublica.acc_self (snd p1))
             = Propublica.errors (Propublica.acc_self (snd p2))).
Proof.
  split; intros H.
  - assert (E : exists r1 c1 r2 c2,
               ParseLocal.parse_loan_html mixed_page ticking = Ok (r1, c1)
               /\ ParseLocal.parse_loan_html mixed_page c1 = Ok (r2, c2)
               /\ ParseLocal.errors r1 <> ParseLocal.errors r2).
    { eexists. eexists. eexists. eexists.
      split; [vm_compute; reflexivity|].
      split; [vm_compute; reflexivity|].
      vm_compute. intros D. discriminate D. }
    destruct E as [r1 [c1 [r2 [c2 [E1 [E2 D]]]]]].
    exact (D (proj2 (H _ _ _ _ _ _ E1 E2))).
  - specialize (H fresh_spider (spider_response mixed_page) ticking).
    destruct H as [_ H]. vm_compute in H. discriminate H.
Qed.

(* ================================================================== *)
(** ** More on the amount normalizer *)

From Stdlib Require Import DecimalNat.
Import WordPressPage PreviewCsv MoreSamples.

Lemma remove_money_chars_app (a b : string) :
  remove_money_chars (a ++ b) = remove_money_chars a ++ remove_money_chars b.
Proof.
  induction a as [|c a IH]; simpl; [reflexivity|].
  destruct (Ascii.eqb c "$" || Ascii.eqb c "," || is_space c); simpl;
    rewrite IH; reflexivity.
Qed.

Lemma truthy_app_cons (a b : string) (c : ascii) : truthy (a ++ String c b) = true.
Proof. destruct a; reflexivity. Qed.

(** X1.  A dollar sign, a comma or a whitespace character may be put
    anywhere into an amount, or taken out of it, without changing what
    [parse_amount] returns. *)
Theorem parse_amount_ignores_money_chars (a b : string) (c : ascii) :
  (Ascii.eqb c "$" || Ascii.eqb c "," || is_space c) = true ->
  parse_amount (a ++ String c b) = parse_amount (a ++ b).
Proof.
  intros Hc. rewrite !parse_amount_unfold, truthy_app_cons.
  rewrite !remove_money_chars_app. simpl. rewrite Hc.
  rewrite <- remove_money_chars_app.
  destruct (a ++ b) eqn:E; [reflexivity|]. reflexivity.
Qed.

Lemma parse_amount_ignores_money_chars_witness :
  parse_amount ("$1" ++ String "," "000") = parse_amount ("$1" ++ "000")
  /\ parse_amount ("$1" ++ "000") = Ok (Some (FFinite (1000 # 1))).
Proof.
  split.
  - apply parse_amount_ignores_money_chars. reflexivity.
  - reflexivity.
Defined.

(** A text made of decimal digits only. *)
Lemma digits_of_uint (d : Decimal.uint) :
  Forall (fun c => is_digit c = true)
         (list_ascii_of_string (NilEmpty.string_of_uint d)).
Proof. induction d; simpl; constructor; auto. Qed.

Lemma digits_value_of_uint (d : Decimal.uint) :
  forall a : nat,
    fold_left (fun acc c => 10 * acc + digit_val c)%Z
              (list_ascii_of_string (NilEmpty.string_of_uint d)) (Z.of_nat a)
    = Z.of_nat (Nat.of_uint_acc d a).
Proof.
  induction d; intros a;
    cbn [NilEmpty.string_of_uint list_ascii_of_string fold_left Nat.of_uint_acc];
    [reflexivity| ..];
    rewrite Nat.tail_mul_spec, <- IHd; f_equal;
    match goal with
    | |- context [digit_val ?c] =>
        let v := eval vm_compute in (digit_val c) in
        change (digit_val c) with v
    end; lia.
Qed.

Lemma digits_tail_all (l : list ascii) :
  Forall (fun c => is_digit c = true) l -> digits_tail l = (l, []).
Proof.
  induction 1 as [|c l Hc _ IH]; simpl; [reflexivity|].
  rewrite Hc, IH. reflexivity.
Qed.

Lemma digit_is_plain (c : ascii) :
  is_digit c = true ->
  is_space c = false
  /\ Ascii.eqb c "$" = false /\ Ascii.eqb c "," = false
  /\ Ascii.eqb c "-" = false /\ Ascii.eqb c "+" = false
  /\ Ascii.eqb c "." = false
  /\ lower_char c = c
  /\ Ascii.eqb c "i" = false /\ Ascii.eqb c "n" = false.
Proof.
  destruct c as [[] [] [] [] [] [] [] []]; intros H;
    try discriminate H; repeat split.
Qed.

Lemma digits_unchanged (s : string) :
  Forall (fun c => is_digit c = true) (list_ascii_of_string s) ->
  remove_money_chars s = s /\ rstrip s = s.
Proof.
  induction s as [|c s IH]; simpl; intros H; [split; reflexivity|].
  inversion H as [|? ? Hc Hs]; subst.
  destruct (IH Hs) as [IH1 IH2].
  destruct (digit_is_plain c Hc) as [E1 [E2 [E3 _]]].
  rewrite E1, E2, E3, IH1, IH2. split; reflexivity.
Qed.

Lemma Qred_integer (z : Z) : Qred (Qmake z 1) = Qmake z 1.
Proof.
  unfold Qred.
  pose proof (Z.ggcd_gcd z 1) as Hg.
  pose proof (Z.ggcd_correct_divisors z 1) as Hd.
  destruct (Z.ggcd z 1) as [g [aa bb]]. simpl in *.
  rewrite Z.gcd_1_r in Hg. subst g.
  destruct Hd as [H1 H2]. rewrite Z.mul_1_l in H1, H2. subst. reflexivity.
Qed.

(** [float] on a non-empty text of decimal digits: the number they
    write. *)
Lemma float_of_digits (s : string) :
  s <> EmptyString ->
  Forall (fun c => is_digit c = true) (list_ascii_of_string s) ->
  float_of_str s
  = Ok (FFinite (digits_value (list_ascii_of_string s) # 1)).
Proof.
  intros Hne Hd. destruct s as [|c s]; [congruence|]. clear Hne.
  unfold float_of_str, strip.
  pose proof Hd as Hd'. simpl in Hd'.
  inversion Hd' as [|? ? Hc Hs]; subst.
  destruct (digit_is_plain c Hc) as [E1 [_ [_ [E4 [E5 [E6 [E7 [E8 E9]]]]]]]].
  assert (Hl : lstrip (String c s) = String c s) by (simpl; rewrite E1; reflexivity).
  rewrite Hl, (proj2 (digits_unchanged _ Hd)).
  simpl list_ascii_of_string. unfold take_sign. rewrite E4, E5.
  simpl string_of_list_ascii. simpl lower. rewrite E7.
  assert (W1 : String.eqb (String c (lower (string_of_list_ascii (list_ascii_of_string s))))
                          "inf" = false) by (simpl; rewrite E8; reflexivity).
  assert (W2 : String.eqb (String c (lower (string_of_list_ascii (list_ascii_of_string s))))
                          "infinity" = false) by (simpl; rewrite E8; reflexivity).
  assert (W3 : String.eqb (String c (lower (string_of_list_ascii (list_ascii_of_string s))))
                          "nan" = false) by (simpl; rewrite E9; reflexivity).
  rewrite W1, W2, W3. simpl orb. cbv iota.
  unfold floatnumber, digitpart. rewrite Hc, (digits_tail_all _ Hs).
  cbv iota beta. simpl exponent_then_end. cbv iota beta.
  rewrite app_nil_r. simpl List.length. simpl Z.of_nat.
  unfold scale10. simpl Z.leb. cbv iota.
  rewrite Z.pow_0_r, Z.mul_1_r.
  f_equal. f_equal. apply Qred_integer.
Qed.

Lemma str_of_nat_digits (n : nat) :
  str_of_nat n <> EmptyString
  /\ Forall (fun c => is_digit c = true) (list_ascii_of_string (str_of_nat n))
  /\ digits_value (list_ascii_of_string (str_of_nat n)) = Z.of_nat n.
Proof.
  unfold str_of_nat. split; [|split].
  - pose proof (Unsigned.of_to n) as H.
    destruct (Nat.to_uint n) eqn:E; simpl; try discriminate.
    simpl in H. subst n. discriminate E.
  - apply digits_of_uint.
  - unfold digits_value. change 0%Z with (Z.of_nat 0).
    rewrite (digits_value_of_uint (Nat.to_uint n) 0).
    change (Nat.of_uint_acc (Nat.to_uint n) 0) with (Nat.of_uint (Nat.to_uint n)).
    rewrite Unsigned.of_to. reflexivity.
Qed.

(** X2.  Reading back a printed number: for every natural number [n] up
    to 2^53, the range in which every integer is a binary64 number so that
    [float] does not round, [parse_amount] of a dollar sign followed by
    [str(n)] is [n]. *)
Theorem parse_amount_of_printed_number (n : nat) :
  (Z.of_nat n <= 2 ^ 53)%Z ->
  parse_amount ("$" ++ str_of_nat n) = Ok (Some (FFinite (Z.of_nat n # 1))).
Proof.
  intros _.
  destruct (str_of_nat_digits n) as [Hne [Hd Hv]].
  rewrite parse_amount_unfold. simpl.
  rewrite (proj1 (digits_unchanged _ Hd)).
  rewrite (float_of_digits _ Hne Hd), Hv. reflexivity.
Qed.

Lemma parse_amount_of_printed_number_witness :
  parse_amount "$1200" = Ok (Some (FFinite (1200 # 1))).
Proof.
  apply (parse_amount_of_printed_number 1200).
  vm_compute. discriminate.
Defined.

(* ================================================================== *)
(** ** More on the heuristic scan *)

Ltac fills_cases f st :=
  destruct st as [l s a d]; destruct f; destruct l, s, a, d;
  simpl; rewrite ?andb_false_r; simpl; split_ifs; simpl; auto.

Lemma local_step_fills (on : Recognizers) (f : Field) (st : Slots) (val : string) :
  slot f (ParseLocal.heuristic_step on st val) = slot f st
  \/ (slot f st = EmptyString /\ slot f (ParseLocal.heuristic_step on st val) = val).
Proof. unfold ParseLocal.heuristic_step. fills_cases f st. Qed.

Lemma spider_step_fills (on : Recognizers) (f : Field) (st : Slots) (val : string) :
  slot f (Propublica.heuristic_step on st val) = slot f st
  \/ (slot f st = EmptyString /\ slot f (Propublica.heuristic_step on st val) = val).
Proof. unfold Propublica.heuristic_step. fills_cases f st. Qed.

Section ScanFills.

Variable step : Recognizers -> Slots -> string -> Slots.
Hypothesis step_fills :
  forall on f st val,
    slot f (step on st val) = slot f st
    \/ (slot f st = EmptyString /\ slot f (step on st val) = val).

Lemma scan_fills (on : Recognizers) (f : Field) (vals : list string) :
  forall st,
    slot f (fold_left (step on) vals st) = slot f st
    \/ (slot f st = EmptyString /\ In (slot f (fold_left (step on) vals st)) vals).
Proof.
  induction vals as [|v vals IH]; intros st; simpl; [left; reflexivity|].
  destruct (IH (step on st v)) as [E|[E Hin]];
    destruct (step_fills on f st v) as [S|[S1 S2]].
  - left. rewrite E. exact S.
  - right. split; [exact S1|]. left. rewrite E, S2. reflexivity.
  - right. split; [rewrite <- S; exact E|]. right. exact Hin.
  - right. split; [exact S1|]. right. exact Hin.
Qed.

End ScanFills.

(** X3.  The heuristic tier never invents a value and never touches a
    filled field: in both extractors each of the four fields of a returned
    record holds its structural value, or, that value being empty, one of
    the stripped loose values of the fragment. *)
Theorem scan_never_invents (f : Field) (item : Node) (idx : nat) :
  (forall st d,
     ParseLocal.structural item = Ok st ->
     ParseLocal.extract_loan_data item idx = Ok d ->
     loan_field f d = slot f st
     \/ (slot f st = EmptyString
         /\ exists vals,
              css sel_value_text item = Ok vals
              /\ In (loan_field f d) (stripped_nonempty (getall vals))))
  /\ (forall urljoin response clock st d,
        Propublica.structural item = Ok st ->
        fst (Propublica._extract_loan_data urljoin item response idx clock) = Ok d ->
        loan_field f d = slot f st
        \/ (slot f st = EmptyString
            /\ exists vals,
                 css sel_value_text item = Ok vals
                 /\ In (loan_field f d) (stripped_nonempty (getall vals)))).
Proof.
  split.
  - intros st d Hs Hd.
    destruct (local_extract_fields all_on item idx st d Hs Hd) as [st' [Hf Hall]].
    rewrite Hall. unfold ParseLocal.fallback in Hf.
    destruct (_ || _); [|inversion Hf; left; reflexivity].
    destruct (css sel_value_text item) as [vals|]; simpl in Hf; [|discriminate].
    inversion Hf; subst st'.
    destruct (scan_fills ParseLocal.heuristic_step local_step_fills all_on f
                (stripped_nonempty (getall vals)) st) as [E|[E Hin]].
    + left. exact E.
    + right. split; [exact E|]. exists vals. split; [reflexivity|exact Hin].
  - intros urljoin response clock st d Hs Hd.
    destruct (spider_extract_fields urljoin all_on item response idx clock st d Hs Hd)
      as [st' [Hf Hall]].
    rewrite Hall. unfold Propublica.fallback in Hf.
    destruct (_ && _); [|inversion Hf; left; reflexivity].
    destruct (css sel_value_text item) as [vals|]; simpl in Hf; [|discriminate].
    inversion Hf; subst st'.
    destruct (scan_fills Propublica.heuristic_step spider_step_fills all_on f
                (stripped_nonempty (getall vals)) st) as [E|[E Hin]].
    + left. exact E.
    + right. split; [exact E|]. exists vals. split; [reflexivity|exact Hin].
Qed.

Lemma scan_never_invents_witness :
  (exists d,
     ParseLocal.extract_loan_data halfway 0 = Ok d
     /\ (location d = EmptyString
         \/ (EmptyString = EmptyString
             /\ exists vals,
                  css sel_value_text halfway = Ok vals
                  /\ In (location d) (stripped_nonempty (getall vals)))))
  /\ (exists d,
        fst (Propublica._extract_loan_data Samples.join zenith
               (spider_response (page_of [zenith])) 0 ticking) = Ok d
        /\ (loan_amount d = EmptyString
            \/ (EmptyString = EmptyString
                /\ exists vals,
                     css sel_value_text zenith = Ok vals
                     /\ In (loan_amount d) (stripped_nonempty (getall vals))))).
Proof.
  split.
  - assert (Hs : ParseLocal.structural halfway = Ok (MkSlots "" "" "$10" ""))
      by (vm_compute; reflexivity).
    assert (Hd : exists d, ParseLocal.extract_loan_data halfway 0 = Ok d)
      by (eexists; vm_compute; reflexivity).
    destruct Hd as [d Hd]. exists d. split; [exact Hd|].
    exact (proj1 (scan_never_invents FLocation halfway 0) _ d Hs Hd).
  - assert (Hs : Propublica.structural zenith = Ok (MkSlots "" "" "" ""))
      by (vm_compute; reflexivity).
    assert (Hd : exists d,
               fst (Propublica._extract_loan_data Samples.join zenith
                      (spider_response (page_of [zenith])) 0 ticking) = Ok d)
      by (eexists; vm_compute; reflexivity).
    destruct Hd as [d Hd]. exists d. split; [exact Hd|].
    exact (proj2 (scan_never_invents FAmount zenith 0) Samples.join
             (spider_response (page_of [zenith])) ticking _ d Hs Hd).
Defined.

(** The location test of each extractor. *)
Lemma two_parts_nonempty (val : string) :
  Nat.eqb (List.length (split "," val)) 2 = true -> truthy val = true.
Proof. destruct val; [discriminate|reflexivity]. Qed.

Lemma empty_location_slot (st : Slots) :
  s_location st = EmptyString -> set_slot FLocation EmptyString st = st.
Proof. destruct st; simpl; intros ->; reflexivity. Qed.

Lemma local_scan_location (vals : list string) :
  forall st,
    s_location st = EmptyString ->
    s_location (fold_left (ParseLocal.heuristic_step all_on) vals st)
    = match find (fun v =>
                    Nat.eqb (List.length (split "," v)) 2
                    && Nat.eqb (String.length (strip (nth 1 (split "," v) EmptyString))) 2)
                 vals with
      | Some v => v
      | None => EmptyString
      end.
Proof.
  induction vals as [|v vals IH]; intros st H; simpl; [exact H|].
  pose proof (local_location_recognizer st v) as R.
  rewrite (empty_location_slot st H) in R.
  destruct (Nat.eqb (List.length (split "," v)) 2
            && Nat.eqb (String.length (strip (nth 1 (split "," v) EmptyString))) 2)
    eqn:C.
  - apply andb_prop in C. destruct C as [C _].
    rewrite (scan_keeps ParseLocal.heuristic_step local_step_keeps all_on FLocation);
      simpl; rewrite R; [reflexivity|].
    exact (two_parts_nonempty v C).
  - apply IH. exact R.
Qed.

Lemma spider_scan_location (vals : list string) :
  forall st,
    s_location st = EmptyString ->
    s_location (fold_left (Propublica.heuristic_step all_on) vals st)
    = match find (fun v => Nat.eqb (List.length (split "," v)) 2) vals with
      | Some v => v
      | None => EmptyString
      end.
Proof.
  induction vals as [|v vals IH]; intros st H; simpl; [exact H|].
  pose proof (spider_location_recognizer st v) as R.
  rewrite (empty_location_slot st H) in R.
  destruct (Nat.eqb (List.length (split "," v)) 2) eqn:C.
  - rewrite (scan_keeps Propublica.heuristic_step spider_step_keeps all_on FLocation);
      simpl; rewrite R; [reflexivity|].
    exact (two_parts_nonempty v C).
  - apply IH. exact R.
Qed.

(** The fields of a record when the scan ran. *)
Lemma fields_after_scan (item : Node) (idx : nat) :
  (forall st d,
     ParseLocal.structural item = Ok st ->
     ParseLocal.extract_loan_data item idx = Ok d ->
     (s_location st = EmptyString \/ s_amount st = EmptyString) ->
     exists vals,
       css sel_value_text item = Ok vals
       /\ forall f,
            loan_field f d
            = slot f (fold_left (ParseLocal.heuristic_step all_on)
                                (stripped_nonempty (getall vals)) st))
  /\ (forall urljoin response clock st d,
        Propublica.structural item = Ok st ->
        fst (Propublica._extract_loan_data urljoin item response idx clock) = Ok d ->
        s_location st = EmptyString -> s_amount st = EmptyString ->
        exists vals,
          css sel_value_text item = Ok vals
          /\ forall f,
               loan_field f d
               = slot f (fold_left (Propublica.heuristic_step all_on)
                                   (stripped_nonempty (getall vals)) st)).
Proof.
  split.
  - intros st d Hs Hd Hor.
    destruct (local_extract_fields all_on item idx st d Hs Hd) as [st' [Hf Hall]].
    destruct (proj1 (local_fallback_gate item st st' Hf) Hor) as [vals [Hv ->]].
    exists vals. split; [exact Hv|exact Hall].
  - intros urljoin response clock st d Hs Hd H1 H2.
    destruct (spider_extract_fields urljoin all_on item response idx clock st d Hs Hd)
      as [st' [Hf Hall]].
    destruct (proj1 (spider_fallback_gate item st st' Hf) H1 H2) as [vals [Hv ->]].
    exists vals. split; [exact Hv|exact Hall].
Qed.

(** X4.  First match wins for the location.  When the structural tier
    leaves the location empty, [extract_loan_data] returns as location the
    first stripped non-empty loose value that has two comma-separated parts
    the second of which, stripped, has length 2, and the empty text when
    there is none.  [_extract_loan_data] of the spider does so when the
    structural amount is empty as well, with the first loose value of two
    comma-separated parts. *)
Theorem location_is_first_match (item : Node) (idx : nat) :
  (forall st d,
     ParseLocal.structural item = Ok st ->
     s_location st = EmptyString ->
     ParseLocal.extract_loan_data item idx = Ok d ->
     exists vals,
       css sel_value_text item = Ok vals
       /\ location d
          = match find (fun v =>
                          Nat.eqb (List.length (split "," v)) 2
                          && Nat.eqb (String.length
                                        (strip (nth 1 (split "," v) EmptyString))) 2)
                       (stripped_nonempty (getall vals)) with
            | Some v => v
            | None => EmptyString
            end)
  /\ (forall urljoin response clock st d,
        Propublica.structural item = Ok st ->
        s_location st = EmptyString ->
        s_amount st = EmptyString ->
        fst (Propublica._extract_loan_data urljoin item response idx clock) = Ok d ->
        exists vals,
          css sel_value_text item = Ok vals
          /\ location d
             = match find (fun v => Nat.eqb (List.length (split "," v)) 2)
                          (stripped_nonempty (getall vals)) with
               | Some v => v
               | None => EmptyString
               end).
Proof.
  split.
  - intros st d Hs Hl Hd.
    destruct (proj1 (fields_after_scan item idx) st d Hs Hd (or_introl Hl))
      as [vals [Hv Hall]].
    exists vals. split; [exact Hv|].
    refine (eq_trans (Hall FLocation) _). apply local_scan_location. exact Hl.
  - intros urljoin response clock st d Hs Hl Ha Hd.
    destruct (proj2 (fields_after_scan item idx)
                urljoin response clock st d Hs Hd Hl Ha) as [vals [Hv Hall]].
    exists vals. split; [exact Hv|].
    refine (eq_trans (Hall FLocation) _). apply spider_scan_location. exact Hl.
Qed.

Lemma location_is_first_match_witness :
  (exists d, ParseLocal.extract_loan_data halfway 0 = Ok d
             /\ location d = "Waco, TX")
  /\ (exists d,
        fst (Propublica._extract_loan_data Samples.join zenith
               (spider_response (page_of [zenith])) 0 ticking) = Ok d
        /\ location d = "Some Place, Texas").
Proof.
  split.
  - assert (Hs : ParseLocal.structural halfway = Ok (MkSlots "" "" "$10" ""))
      by (vm_compute; reflexivity).
    assert (Hd : exists d, ParseLocal.extract_loan_data halfway 0 = Ok d)
      by (eexists; vm_compute; reflexivity).
    destruct Hd as [d Hd]. exists d. split; [exact Hd|].
    destruct (proj1 (location_is_first_match halfway 0) _ d Hs eq_refl Hd)
      as [vals [Hv Hl]].
    rewrite Hl. vm_compute in Hv. inversion Hv. reflexivity.
  - assert (Hs : Propublica.structural zenith = Ok (MkSlots "" "" "" ""))
      by (vm_compute; reflexivity).
    assert (Hd : exists d,
               fst (Propublica._extract_loan_data Samples.join zenith
                      (spider_response (page_of [zenith])) 0 ticking) = Ok d)
      by (eexists; vm_compute; reflexivity).
    destruct Hd as [d Hd]. exists d. split; [exact Hd|].
    destruct (proj2 (location_is_first_match zenith 0) Samples.join
                (spider_response (page_of [zenith])) ticking _ d Hs eq_refl eq_refl Hd)
      as [vals [Hv Hl]].
    rewrite Hl. vm_compute in Hv. inversion Hv. reflexivity.
Defined.

(** X5.  While the location is empty, a loose value with exactly one
    comma is taken by the location test and never becomes the amount, also
    when it starts with a dollar sign: in [parse_local_html.py] the amount
    is left as it was, in [propublica_scraper.py] the value becomes the
    location. *)
Theorem one_comma_value_is_not_an_amount (st : Slots) (val : string) :
  s_location st = EmptyString ->
  List.length (split "," val) = 2 ->
  s_amount (ParseLocal.heuristic_step all_on st val) = s_amount st
  /\ Propublica.heuristic_step all_on st val = set_slot FLocation val st.
Proof.
  intros Hl H2.
  pose proof (two_parts_have_separator _ _ H2) as Hc.
  apply Nat.eqb_eq in H2.
  unfold ParseLocal.heuristic_step, Propublica.heuristic_step.
  destruct st as [l s a d]. simpl in Hl. subst l. simpl.
  rewrite Hc, H2. simpl. split; [|reflexivity].
  split_ifs; reflexivity.
Qed.

Lemma one_comma_value_is_not_an_amount_witness :
  s_amount (ParseLocal.heuristic_step all_on empty_slots "$1,000") = ""
  /\ Propublica.heuristic_step all_on empty_slots "$1,000"
     = MkSlots "$1,000" "" "" ""
  /\ (exists d, ParseLocal.extract_loan_data thousand 0 = Ok d
                /\ loan_amount d = "" /\ location d = "")
  /\ (exists d,
        fst (Propublica._extract_loan_data Samples.join thousand
               (spider_response (page_of [thousand])) 0 ticking) = Ok d
        /\ loan_amount d = "" /\ location d = "$1,000").
Proof.
  destruct (one_comma_value_is_not_an_amount empty_slots "$1,000" eq_refl eq_refl)
    as [A B].
  split; [exact A|]. split; [exact B|].
  split; eexists; (split; [vm_compute; reflexivity|split; reflexivity]).
Defined.

(* ================================================================== *)
(** ** More on the two loops *)

Lemma local_trace_count (items : list Node) :
  forall idx,
    List.length (local_records idx items) + List.length (local_failures idx items)
    <= List.length items.
Proof.
  induction items as [|item rest IH]; intros idx; simpl; [lia|].
  specialize (IH (S idx)).
  destruct (ParseLocal.extract_loan_data item idx) as [d|e]; simpl; [|lia].
  destruct (truthy (recipient d)); simpl; lia.
Qed.

Lemma spider_trace_count
      (urljoin : string -> string -> res string) (response : Propublica.Response)
      (items : list Node) :
  forall idx,
    List.length (spider_records urljoin response idx items)
    + List.length (spider_failures urljoin response idx items)
    <= List.length items.
Proof.
  induction items as [|item rest IH]; intros idx; simpl; [lia|].
  specialize (IH (S idx)).
  destruct (Propublica.extract_fields urljoin all_on item response idx) as [mk|e];
    simpl; [|lia].
  destruct (truthy (recipient (mk EmptyString))); simpl; lia.
Qed.

(** X6.  A fragment gives at most one record or one error entry, never
    both.  [parse_loan_html] returns no more records and error entries
    together than it located fragments, and [total_loans] counts the
    records.  The spider's [parse], on a text response of status below 400
    on which it locates at least one fragment, yields no more records and
    appends no more error entries together than it located fragments; when
    it locates none, and when the status is 400 or more, it yields nothing
    and appends exactly one entry, which stands for the response and not
    for a fragment. *)
Theorem records_and_errors_bounded :
  (forall selector clock r c,
     ParseLocal.parse_loan_html selector clock = Ok (r, c) ->
     exists items,
       ParseLocal.locate selector = Ok items
       /\ List.length (ParseLocal.loans r) + List.length (ParseLocal.errors r)
          <= List.length items
       /\ ParseLocal.total_loans r = List.length (ParseLocal.loans r))
  /\ (forall urljoin self response clock info item rest,
        Propublica.status response < 400 ->
        Propublica._extract_search_info response = Ok info ->
        Propublica.locate response = Ok (item :: rest) ->
        List.length (Propublica.acc_yielded
                       (snd (Propublica.parse urljoin self response clock)))
        + List.length (Propublica.errors
                         (Propublica.acc_self
                            (snd (Propublica.parse urljoin self response clock))))
        <= List.length (Propublica.errors self) + List.length (item :: rest))
  /\ (forall urljoin self response clock info,
        Propublica.status response < 400 ->
        Propublica._extract_search_info response = Ok info ->
        Propublica.locate response = Ok [] ->
        Propublica.acc_yielded (snd (Propublica.parse urljoin self response clock)) = []
        /\ Propublica.errors
             (Propublica.acc_self (snd (Propublica.parse urljoin self response clock)))
           = (Propublica.errors self
              ++ [Propublica.no_data_found response (fst (now clock))])%list)
  /\ (forall urljoin self response clock,
        400 <= Propublica.status response ->
        Propublica.acc_yielded (snd (Propublica.parse urljoin self response clock)) = []
        /\ Propublica.errors
             (Propublica.acc_self (snd (Propublica.parse urljoin self response clock)))
           = (Propublica.errors self
              ++ [Propublica.http_error response (fst (now clock))])%list).
Proof.
  split; [|split; [|split]].
  - intros selector clock r c Hp.
    destruct (local_parse_inv selector clock c r Hp) as [items [Hl [HL HE]]].
    exists items. split; [exact Hl|]. split.
    + rewrite HL, HE, local_loans_trace.
      rewrite <- (length_map untimed), local_errors_trace. simpl.
      apply local_trace_count.
    + unfold ParseLocal.parse_loan_html in Hp.
      destruct (css sel_search_query selector); simpl in Hp; [|discriminate].
      destruct (css sel_h1_text selector); simpl in Hp; [|discriminate].
      destruct (ParseLocal.locate selector); simpl in Hp; [|discriminate].
      inversion Hp; reflexivity.
  - intros urljoin self response clock info item rest Hs Hi Hl.
    rewrite (spider_parse_runs_loop urljoin response self clock info item rest Hs Hi Hl).
    cbn [snd].
    destruct (spider_yield_trace urljoin response (item :: rest) 0
                (Propublica.MkAcc [] self clock)) as [T1 [_ T3]].
    rewrite <- (length_map unstamped), T1.
    rewrite <- (length_map untimed
                  (Propublica.errors
                     (Propublica.acc_self
                        (Propublica.loop urljoin response 0 (item :: rest)
                           (Propublica.MkAcc [] self clock))))), T3.
    cbn [Propublica.acc_yielded Propublica.acc_self map app].
    rewrite length_app, length_map.
    pose proof (spider_trace_count urljoin response (item :: rest) 0). lia.
  - intros urljoin self response clock info Hs Hi Hl.
    unfold Propublica.parse.
    replace (Nat.leb 400 (Propublica.status response)) with false
      by (symmetry; apply Nat.leb_gt; exact Hs).
    rewrite Hi, Hl. split; reflexivity.
  - intros urljoin self response clock Hs.
    unfold Propublica.parse.
    replace (Nat.leb 400 (Propublica.status response)) with true
      by (symmetry; apply Nat.leb_le; exact Hs).
    split; reflexivity.
Qed.

Lemma records_and_errors_bounded_witness :
  (exists r c,
     ParseLocal.parse_loan_html mixed_page ticking = Ok (r, c)
     /\ List.length (ParseLocal.loans r) + List.length (ParseLocal.errors r) <= 4
     /\ ParseLocal.total_loans r = 2)
  /\ List.length (Propublica.acc_yielded
                    (snd (Propublica.parse Samples.join fresh_spider
                            (spider_response mixed_page) ticking)))
     + List.length (Propublica.errors
                      (Propublica.acc_self
                         (snd (Propublica.parse Samples.join fresh_spider
                                 (spider_response mixed_page) ticking))))
     <= 0 + 4
  /\ Propublica.errors
       (Propublica.acc_self
          (snd (Propublica.parse Samples.join fresh_spider
                  (spider_response empty_page) ticking)))
     = [Propublica.no_data_found (spider_response empty_page) "T0"]
  /\ Propublica.errors
       (Propublica.acc_self
          (snd (Propublica.parse Samples.join fresh_spider
                  (Propublica.MkResponse "https://p.example/search" 500
                     EmptyString empty_page) ticking)))
     = [Propublica.http_error
          (Propublica.MkResponse "https://p.example/search" 500
             EmptyString empty_page) "T0"].
Proof.
  split; [|split; [|split]].
  - assert (Hp : exists r c, ParseLocal.parse_loan_html mixed_page ticking = Ok (r, c))
      by (eexists; eexists; vm_compute; reflexivity).
    destruct Hp as [r [c Hp]].
    destruct (proj1 records_and_errors_bounded mixed_page ticking r c Hp)
      as [items [Hl [Hle Ht]]].
    exists r, c. split; [exact Hp|].
    vm_compute in Hl. inversion Hl; subst items. split; [exact Hle|].
    rewrite Ht. vm_compute in Hp. inversion Hp. reflexivity.
  - apply (proj1 (proj2 records_and_errors_bounded) Samples.join fresh_spider
             (spider_response mixed_page) ticking ("90210 medical", "Results")
             acme [broken_item; nameless; zenith]);
      [simpl; lia | vm_compute; reflexivity ..].
  - apply (proj2 (proj1 (proj2 (proj2 records_and_errors_bounded))
                    Samples.join fresh_spider (spider_response empty_page) ticking
                    ("90210 medical", "Results")
                    ltac:(simpl; lia) eq_refl eq_refl)).
  - apply (proj2 (proj2 (proj2 (proj2 records_and_errors_bounded))
                    Samples.join fresh_spider
                    (Propublica.MkResponse "https://p.example/search" 500
                       EmptyString empty_page) ticking
                    ltac:(simpl; lia))).
Defined.

Lemma local_records_complete (items : list Node) :
  forall idx i item d,
    nth_error items i = Some item ->
    ParseLocal.extract_loan_data item (idx + i) = Ok d ->
    recipient d <> EmptyString ->
    In d (local_records idx items).
Proof.
  induction items as [|x rest IH]; intros idx i item d Hn He Hr.
  - destruct i; discriminate.
  - destruct i as [|i]; simpl in Hn.
    + inversion Hn; subst x. rewrite Nat.add_0_r in He. simpl.
      rewrite He, (truthy_nonempty _ Hr). left; reflexivity.
    + assert (Hin : In d (local_records (S idx) rest)).
      { apply (IH (S idx) i item d Hn); [|exact Hr].
        replace (S idx + i) with (idx + S i) by lia. exact He. }
      simpl. destruct (ParseLocal.extract_loan_data x idx) as [d'|]; [|exact Hin].
      destruct (truthy (recipient d')); [right|]; exact Hin.
Qed.

Lemma spider_records_complete
      (urljoin : string -> string -> res string) (response : Propublica.Response)
      (items : list Node) :
  forall idx i item mk,
    nth_error items i = Some item ->
    Propublica.extract_fields urljoin all_on item response (idx + i) = Ok mk ->
    recipient (mk EmptyString) <> EmptyString ->
    In (unstamped (mk EmptyString)) (spider_records urljoin response idx items).
Proof.
  induction items as [|x rest IH]; intros idx i item mk Hn He Hr.
  - destruct i; discriminate.
  - destruct i as [|i]; simpl in Hn.
    + inversion Hn; subst x. rewrite Nat.add_0_r in He. simpl.
      rewrite He, (truthy_nonempty _ Hr). left; reflexivity.
    + assert (Hin : In (unstamped (mk EmptyString))
                       (spider_records urljoin response (S idx) rest)).
      { apply (IH (S idx) i item mk Hn); [|exact Hr].
        replace (S idx + i) with (idx + S i) by lia. exact He. }
      simpl.
      destruct (Propublica.extract_fields urljoin all_on x response idx) as [mk'|];
        [|exact Hin].
      destruct (truthy (recipient (mk' EmptyString))); [right|]; exact Hin.
Qed.

(** X7.  No named fragment is lost: in both scrapers, a located fragment
    whose extraction returns a record with a non-empty recipient is among
    the records ([parse_loan_html]) or among the records yielded, up to its
    [scraped_at] stamp (the spider), whatever happens on the other
    fragments. *)
Theorem named_fragment_is_emitted :
  (forall selector clock q h items i item d,
     css sel_search_query selector = Ok q ->
     css sel_h1_text selector = Ok h ->
     ParseLocal.locate selector = Ok items ->
     nth_error items i = Some item ->
     ParseLocal.extract_loan_data item i = Ok d ->
     recipient d <> EmptyString ->
     exists r c,
       ParseLocal.parse_loan_html selector clock = Ok (r, c)
       /\ In d (ParseLocal.loans r))
  /\ (forall urljoin self response clock info items i item mk,
        Propublica.status response < 400 ->
        Propublica._extract_search_info response = Ok info ->
        Propublica.locate response = Ok items ->
        nth_error items i = Some item ->
        Propublica.extract_fields urljoin all_on item response i = Ok mk ->
        recipient (mk EmptyString) <> EmptyString ->
        exists d,
          In d (Propublica.acc_yielded
                  (snd (Propublica.parse urljoin self response clock)))
          /\ unstamped d = unstamped (mk EmptyString)).
Proof.
  split.
  - intros selector clock q h items i item d Hq Hh Hl Hn He Hr.
    destruct (local_parse_ok selector clock q h items Hq Hh Hl) as [r [c [Hp [HL _]]]].
    exists r, c. split; [exact Hp|].
    rewrite HL, local_loans_trace. simpl.
    exact (local_records_complete items 0 i item d Hn He Hr).
  - intros urljoin self response clock info items i item mk Hs Hi Hl Hn He Hr.
    destruct items as [|x xs]; [destruct i; discriminate|].
    rewrite (spider_parse_runs_loop urljoin response self clock info x xs Hs Hi Hl).
    cbn [snd].
    assert (T : map unstamped
                  (Propublica.acc_yielded
                     (Propublica.loop urljoin response 0 (x :: xs)
                        (Propublica.MkAcc [] self clock)))
                = spider_records urljoin response 0 (x :: xs))
      by exact (proj1 (spider_yield_trace urljoin response (x :: xs) 0
                         (Propublica.MkAcc [] self clock))).
    pose proof (spider_records_complete urljoin response (x :: xs) 0 i item mk Hn He Hr)
      as Hin.
    rewrite <- T in Hin. apply in_map_iff in Hin.
    destruct Hin as [d [Hd Hin]]. exists d. split; [exact Hin|exact Hd].
Qed.

Lemma named_fragment_is_emitted_witness :
  (exists r c,
     ParseLocal.parse_loan_html mixed_page ticking = Ok (r, c)
     /\ exists d, In d (ParseLocal.loans r) /\ recipient d = "Zenith Inc")
  /\ (exists d,
        In d (Propublica.acc_yielded
                (snd (Propublica.parse Samples.join fresh_spider
                        (spider_response mixed_page) ticking)))
        /\ recipient d = "Zenith Inc").
Proof.
  split.
  - assert (Hd : exists d, ParseLocal.extract_loan_data zenith 3 = Ok d
                           /\ recipient d = "Zenith Inc")
      by (eexists; split; [vm_compute; reflexivity|reflexivity]).
    destruct Hd as [d [Hd Hr]].
    destruct (proj1 named_fragment_is_emitted mixed_page ticking
                [text_node "90210 medical"] [text_node " Results "]
                [acme; broken_item; nameless; zenith] 3 zenith d
                eq_refl eq_refl eq_refl eq_refl Hd
                ltac:(rewrite Hr; discriminate)) as [r [c [Hp Hin]]].
    exists r, c. split; [exact Hp|]. exists d. split; [exact Hin|exact Hr].
  - assert (Hmk : exists mk,
               Propublica.extract_fields Samples.join all_on zenith
                 (spider_response mixed_page) 3 = Ok mk
               /\ recipient (mk EmptyString) = "Zenith Inc")
      by (eexists; split; [vm_compute; reflexivity|reflexivity]).
    destruct Hmk as [mk [Hmk Hr]].
    destruct (proj2 named_fragment_is_emitted Samples.join fresh_spider
                (spider_response mixed_page) ticking ("90210 medical", "Results")
                [acme; broken_item; nameless; zenith] 3 zenith mk
                ltac:(simpl; lia) eq_refl eq_refl eq_refl Hmk
                ltac:(rewrite Hr; discriminate)) as [d [Hin Hu]].
    exists d. split; [exact Hin|].
    change (recipient d) with (recipient (unstamped d)). rewrite Hu. exact Hr.
Defined.

(** X8.  What can make a run fail as a whole.  [parse_loan_html] raises
    exactly when the search box query, the heading query or the boundary
    location raises, and then that exception.  The spider's [parse] lets an
    exception escape exactly when the response has no text, which the first
    lines of [parse] read whatever the status, or when the response is text
    of status below 400 and reading the search information or locating the
    fragments raises; whenever an exception escapes, nothing was yielded
    and nothing recorded.  No fragment makes either raise. *)
Theorem only_document_queries_escape :
  (forall selector clock e,
     ParseLocal.parse_loan_html selector clock = Raise e
     <-> (css sel_search_query selector = Raise e
          \/ (exists q, css sel_search_query selector = Ok q
                        /\ css sel_h1_text selector = Raise e)
          \/ (exists q h, css sel_search_query selector = Ok q
                          /\ css sel_h1_text selector = Ok h
                          /\ ParseLocal.locate selector = Raise e)))
  /\ (forall urljoin self delivered clock e,
        fst (Propublica.parse_delivered urljoin self delivered clock) = Some e
        <-> ((exists url status, delivered = NotText url status /\ e = not_text)
             \/ (exists response,
                   delivered = Text response
                   /\ Propublica.status response < 400
                   /\ (Propublica._extract_search_info response = Raise e
                       \/ (exists info,
                             Propublica._extract_search_info response = Ok info
                             /\ Propublica.locate response = Raise e)))))
  /\ (forall urljoin self delivered clock e,
        fst (Propublica.parse_delivered urljoin self delivered clock) = Some e ->
        snd (Propublica.parse_delivered urljoin self delivered clock)
        = Propublica.MkAcc [] self clock).
Proof.
  split; [|split].
  - intros selector clock e. unfold ParseLocal.parse_loan_html.
    destruct (css sel_search_query selector) as [q|e1]; simpl.
    2:{ split.
        - intros H; left; congruence.
        - intros [H|[[q [H _]]|[q [h [H _]]]]]; congruence. }
    destruct (css sel_h1_text selector) as [h|e2]; simpl.
    2:{ split.
        - intros H; right; left; exists q; split; congruence.
        - intros [H|[[q' [_ H]]|[q' [h [_ [H _]]]]]]; congruence. }
    destruct (ParseLocal.locate selector) as [items|e3]; simpl.
    + split; [discriminate|].
      intros [H|[[q' [_ H]]|[q' [h' [_ [_ H]]]]]]; discriminate H.
    + split.
      * intros H; right; right; exists q, h. repeat split. congruence.
      * intros [H|[[q' [_ H]]|[q' [h' [_ [_ H]]]]]]; congruence.
  - intros urljoin self delivered clock e.
    destruct delivered as [response|url status]; cbn [Propublica.parse_delivered].
    2:{ cbn [fst]. split.
        - intros H; inversion H; subst. left. exists url, status.
          split; reflexivity.
        - intros [[u [s [_ H]]]|[response [H _]]]; [subst; reflexivity|discriminate H]. }
    assert (T : forall P : Propublica.Response -> Prop,
              ((exists u s, Text response = @NotText Propublica.Response u s
                            /\ e = not_text)
               \/ (exists r, Text response = Text r /\ P r))
              <-> P response).
    { intros P. split.
      - intros [[u [s [H _]]]|[r [H Hp]]]; [discriminate H|].
        inversion H; subst; exact Hp.
      - intros Hp. right. exists response. split; [reflexivity|exact Hp]. }
    rewrite (T (fun r => Propublica.status r < 400
                         /\ (Propublica._extract_search_info r = Raise e
                             \/ (exists info,
                                   Propublica._extract_search_info r = Ok info
                                   /\ Propublica.locate r = Raise e)))).
    clear T. unfold Propublica.parse.
    destruct (Nat.leb 400 (Propublica.status response)) eqn:L.
    { apply Nat.leb_le in L. simpl. split; [discriminate|]. intros [H _]. lia. }
    apply Nat.leb_gt in L.
    destruct (Propublica._extract_search_info response) as [info|e1].
    2:{ simpl. split.
        - intros H; inversion H; subst. split; [exact L|]. left; reflexivity.
        - intros [_ [H|[info [H _]]]]; [inversion H; reflexivity|discriminate H]. }
    destruct (Propublica.locate response) as [[|x xs]|e2]; simpl.
    + split; [discriminate|].
      intros [_ [H|[info' [_ H]]]]; discriminate H.
    + split; [discriminate|].
      intros [_ [H|[info' [_ H]]]]; discriminate H.
    + split.
      * intros H; inversion H; subst. split; [exact L|].
        right. exists info. split; reflexivity.
      * intros [_ [H|[info' [_ H]]]]; [discriminate H|inversion H; reflexivity].
  - intros urljoin self delivered clock e.
    destruct delivered as [response|url status]; cbn [Propublica.parse_delivered];
      [|reflexivity].
    unfold Propublica.parse.
    destruct (Nat.leb 400 (Propublica.status response)); [discriminate|].
    destruct (Propublica._extract_search_info response) as [info|e1];
      [|reflexivity].
    destruct (Propublica.locate response) as [[|x xs]|e2];
      [discriminate|discriminate|reflexivity].
Qed.

Lemma only_document_queries_escape_witness :
  fst (Propublica.parse_delivered Samples.join fresh_spider image_404 ticking)
  = Some not_text
  /\ snd (Propublica.parse_delivered Samples.join fresh_spider image_404 ticking)
     = Propublica.MkAcc [] fresh_spider ticking.
Proof.
  assert (H : fst (Propublica.parse_delivered Samples.join fresh_spider image_404
                     ticking) = Some not_text).
  { apply (proj2 (proj1 (proj2 only_document_queries_escape)
                    Samples.join fresh_spider image_404 ticking not_text)).
    left. exists "https://p.example/logo.png", 404. split; reflexivity. }
  split; [exact H|].
  exact (proj2 (proj2 only_document_queries_escape)
           Samples.join fresh_spider image_404 ticking not_text H).
Defined.

(* ================================================================== *)
(** ** More on the response gate *)

Section GateFacts.

Variable PageData : Type.
Variable ex : WordPress.Response -> Clock -> res PageData * Clock.

Lemma gate_cases (self : WordPress.Spider PageData)
      (response : WordPress.Response) (clock : Clock) :
  (WordPress._is_cloudflare_challenge response = true
   /\ WordPress.parse ex self response clock
      = ([], WordPress.MkSpider (WordPress.scraped_data self)
               (WordPress.errors self
                ++ [WordPress.cloudflare_error response (fst (now clock))])%list,
         snd (now clock)))
  \/ (WordPress._is_cloudflare_challenge response = false
      /\ 400 <= WordPress.status response
      /\ WordPress.parse ex self response clock
         = ([], WordPress.MkSpider (WordPress.scraped_data self)
                  (WordPress.errors self
                   ++ [WordPress.http_error response (fst (now clock))])%list,
            snd (now clock)))
  \/ (WordPress._is_cloudflare_challenge response = false
      /\ WordPress.status response < 400
      /\ exists e c,
           ex response clock = (Raise e, c)
           /\ WordPress.parse ex self response clock
              = ([], WordPress.MkSpider (WordPress.scraped_data self)
                       (WordPress.errors self
                        ++ [WordPress.page_error response e (fst (now c))])%list,
                 snd (now c)))
  \/ (WordPress._is_cloudflare_challenge response = false
      /\ WordPress.status response < 400
      /\ exists data c,
           ex response clock = (Ok data, c)
           /\ WordPress.parse ex self response clock
              = ([data],
                 WordPress.MkSpider (WordPress.scraped_data self ++ [data])%list
                   (WordPress.errors self), c)).
Proof.
  unfold WordPress.parse.
  destruct (WordPress._is_cloudflare_challenge response); [left; split; reflexivity|].
  right.
  destruct (Nat.leb 400 (WordPress.status response)) eqn:L.
  { apply Nat.leb_le in L. left. split; [reflexivity|]. split; [exact L|reflexivity]. }
  apply Nat.leb_gt in L. right.
  destruct (ex response clock) as [[data|e] c].
  - right. split; [reflexivity|]. split; [exact L|]. exists data, c. split; reflexivity.
  - left. split; [reflexivity|]. split; [exact L|]. exists e, c. split; reflexivity.
Qed.

End GateFacts.

(** X9.  One response, one outcome.  Whatever the extractor, [parse] of
    the WordPress spider on a text response lets nothing escape and adds
    exactly one thing to the spider: one error entry, or one page record,
    which is then also what it yields; it never both yields a record and
    records an error.  On a response whose content is not text it raises
    instead, and the spider is left as it was. *)
Theorem gate_one_outcome
    (PageData : Type) (ex : WordPress.Response -> Clock -> res PageData * Clock)
    (self : WordPress.Spider PageData) (delivered : Delivered WordPress.Response)
    (clock : Clock) :
  let escaped := fst (WordPress.parse_delivered ex self delivered clock) in
  let yielded := fst (fst (snd (WordPress.parse_delivered ex self delivered clock))) in
  let after := snd (fst (snd (WordPress.parse_delivered ex self delivered clock))) in
  ((exists url status, delivered = NotText url status)
   /\ escaped = Some not_text /\ yielded = [] /\ after = self)
  \/ ((exists response, delivered = Text response)
      /\ escaped = None
      /\ ((yielded = []
           /\ WordPress.scraped_data after = WordPress.scraped_data self
           /\ exists entry,
                WordPress.errors after = (WordPress.errors self ++ [entry])%list)
          \/ (exists data,
                yielded = [data]
                /\ WordPress.scraped_data after
                   = (WordPress.scraped_data self ++ [data])%list
                /\ WordPress.errors after = WordPress.errors self))).
Proof.
  cbv zeta.
  destruct delivered as [response|url status]; cbn [WordPress.parse_delivered fst snd].
  2:{ left. split; [exists url, status; reflexivity|]. repeat split. }
  right. split; [exists response; reflexivity|]. split; [reflexivity|].
  destruct (gate_cases PageData ex self response clock)
    as [[_ E]|[[_ [_ E]]|[[_ [_ [e [c [_ E]]]]]|[_ [_ [d [c [_ E]]]]]]]];
    rewrite E; simpl.
  - left. repeat split. eexists; reflexivity.
  - left. repeat split. eexists; reflexivity.
  - left. repeat split. eexists; reflexivity.
  - right. exists d. repeat split.
Qed.

Lemma status_table_message (status : nat) :
  status <> 503 ->
  fst (WordPress.lookup_message status) <> "Service Unavailable".
Proof.
  intros H. unfold WordPress.lookup_message, WordPress.error_messages.
  cbn [find fst].
  repeat match goal with
         | |- context [Nat.eqb ?k status] =>
             let E := fresh "E" in
             destruct (Nat.eqb k status) eqn:E;
             [cbn [fst]; first [discriminate | apply Nat.eqb_eq in E; congruence]|]
         end.
  simpl. discriminate.
Qed.

Lemma not_challenge_status (response : WordPress.Response) :
  WordPress._is_cloudflare_challenge response = false ->
  ~ In (WordPress.status response) WordPress.cloudflare_statuses.
Proof.
  unfold WordPress._is_cloudflare_challenge.
  destruct (existsb (Nat.eqb (WordPress.status response)) WordPress.cloudflare_statuses)
    eqn:E; [discriminate|].
  intros _ Hin.
  assert (T : existsb (Nat.eqb (WordPress.status response)) WordPress.cloudflare_statuses
              = true).
  { apply existsb_exists. exists (WordPress.status response).
    split; [exact Hin|apply Nat.eqb_refl]. }
  congruence.
Qed.

(** X10.  What an [HTTPError] entry can be.  When [parse] of the WordPress
    spider appends an entry of type [HTTPError], the status of the response
    is 400 or more and none of 503, 520, 521, 522, 523, 524; the entry
    carries that status, the name the status table gives it (for a status
    the table does not list, the text [HTTP Error] followed by the status)
    and a suggestion.  So the table's row for 503, [Service Unavailable], is
    never used. *)
Theorem http_error_entries
    (PageData : Type) (ex : WordPress.Response -> Clock -> res PageData * Clock)
    (self : WordPress.Spider PageData) (response : WordPress.Response) (clock : Clock)
    (entry : ErrorInfo) :
  WordPress.errors (snd (fst (WordPress.parse ex self response clock)))
  = (WordPress.errors self ++ [entry])%list ->
  error_type entry = "HTTPError" ->
  400 <= WordPress.status response
  /\ ~ In (WordPress.status response) [503; 520; 521; 522; 523; 524]
  /\ status_code entry = Some (WordPress.status response)
  /\ message entry
     = match find (fun kv => Nat.eqb (fst kv) (WordPress.status response))
                  WordPress.error_messages with
       | Some (_, (name, _)) => name
       | None => "HTTP Error " ++ str_of_nat (WordPress.status response)
       end
  /\ message entry <> "Service Unavailable"
  /\ suggestion entry <> None.
Proof.
  intros He Ht.
  destruct (gate_cases PageData ex self response clock)
    as [[_ E]|[[Hc [Hs E]]|[[_ [_ [e [c [_ E]]]]]|[_ [_ [d [c [_ E]]]]]]]];
    rewrite E in He; simpl in He.
  - apply app_inj_tail in He. destruct He as [_ He]. subst entry. discriminate Ht.
  - apply app_inj_tail in He. destruct He as [_ He]. subst entry.
    pose proof (not_challenge_status response Hc) as Hn.
    split; [exact Hs|]. split; [exact Hn|].
    unfold WordPress.http_error.
    assert (H503 : WordPress.status response <> 503)
      by (intros H; apply Hn; rewrite H; left; reflexivity).
    pose proof (status_table_message _ H503) as Hm.
    unfold WordPress.lookup_message in *.
    destruct (find _ WordPress.error_messages) as [[k [name sug]]|]; simpl in *.
    + repeat split; [exact Hm|discriminate].
    + repeat split; [exact Hm|discriminate].
  - apply app_inj_tail in He. destruct He as [_ He]. subst entry. discriminate Ht.
  - exfalso. apply (f_equal (@List.length ErrorInfo)) in He.
    rewrite length_app in He. simpl in He. lia.
Qed.

Lemma http_error_entries_witness :
  400 <= WordPress.status missing_page
  /\ ~ In (WordPress.status missing_page) [503; 520; 521; 522; 523; 524]
  /\ message (WordPress.http_error missing_page "T0") = "Not Found".
Proof.
  destruct (http_error_entries string address_of (WordPress.MkSpider [] [])
              missing_page ticking (WordPress.http_error missing_page "T0")
              eq_refl eq_refl) as [A [B [_ [C _]]]].
  split; [exact A|]. split; [exact B|]. rewrite C. reflexivity.
Defined.

(* ================================================================== *)
(** ** Substrings, letter case and the two detectors *)

Lemma prefix_of_empty (k : string) : String.prefix k EmptyString = true -> k = EmptyString.
Proof. destruct k; [reflexivity|discriminate]. Qed.

Lemma prefix_app_r (k : string) :
  forall s b, String.prefix k s = true -> String.prefix k (s ++ b) = true.
Proof.
  induction k as [|c k IH]; intros s b H; [destruct (s ++ b); reflexivity|].
  destruct s as [|c' s]; [discriminate|]. simpl in *.
  destruct (ascii_dec c c'); [apply IH; exact H|discriminate].
Qed.

Lemma str_in_app_r (k s b : string) :
  str_in k s = true -> str_in k (s ++ b) = true.
Proof.
  induction s as [|c s IH]; intros H.
  - simpl in H. rewrite orb_false_r in H. apply prefix_of_empty in H. subst k.
    destruct b; reflexivity.
  - change (str_in k (String c s))
      with (String.prefix k (String c s) || str_in k s) in H.
    change (str_in k (String c s ++ b))
      with (String.prefix k (String c s ++ b) || str_in k (s ++ b)).
    apply orb_true_iff in H. apply orb_true_iff. destruct H as [H|H].
    + left. apply prefix_app_r. exact H.
    + right. apply IH. exact H.
Qed.

Lemma str_in_app_l (k a s : string) :
  str_in k s = true -> str_in k (a ++ s) = true.
Proof.
  induction a as [|c a IH]; intros H; [exact H|].
  change (str_in k (String c a ++ s))
    with (String.prefix k (String c a ++ s) || str_in k (a ++ s)).
  rewrite (IH H). apply orb_true_r.
Qed.

Lemma str_in_wrapped (k a s b : string) :
  str_in k s = true -> str_in k (a ++ s ++ b) = true.
Proof. intros H. apply str_in_app_l, str_in_app_r, H. Qed.

Lemma lower_app (a b : string) : lower (a ++ b) = lower a ++ lower b.
Proof. induction a as [|c a IH]; simpl; [reflexivity|rewrite IH; reflexivity]. Qed.

Lemma lowered_or_empty (t : string) :
  (if truthy t then lower t else EmptyString) = lower t.
Proof. destruct t; reflexivity. Qed.

Lemma existsb_monotone {A : Type} (p q : A -> bool) (l : list A) :
  (forall x, p x = true -> q x = true) ->
  existsb p l = true -> existsb q l = true.
Proof.
  intros H. induction l as [|x l IH]; simpl; [discriminate|].
  intros E. apply orb_true_iff in E. apply orb_true_iff.
  destruct E as [E|E]; [left; apply H; exact E|right; apply IH; exact E].
Qed.

(** X11.  The challenge detector reads the body without regard to letter
    case, and more text around a body does not hide a challenge: two
    responses that agree on status and headers and whose bodies are equal
    once lowered get the same verdict, and a response judged a challenge is
    still one when text is put before and after its body. *)
Theorem challenge_detection_is_robust :
  (forall r1 r2,
     WordPress.status r1 = WordPress.status r2 ->
     WordPress.header_server r1 = WordPress.header_server r2 ->
     WordPress.header_cf_ray r1 = WordPress.header_cf_ray r2 ->
     lower (WordPress.text r1) = lower (WordPress.text r2) ->
     WordPress._is_cloudflare_challenge r1 = WordPress._is_cloudflare_challenge r2)
  /\ (forall r a b,
        WordPress._is_cloudflare_challenge r = true ->
        WordPress._is_cloudflare_challenge
          (WordPress.MkResponse (WordPress.url r) (WordPress.status r)
             (a ++ WordPress.text r ++ b)
             (WordPress.header_server r) (WordPress.header_cf_ray r))
        = true).
Proof.
  split.
  - intros r1 r2 Hs Hh Hc Ht.
    unfold WordPress._is_cloudflare_challenge, WordPress.indicator_in_body,
      WordPress.edge_header_match, WordPress.body_text.
    rewrite !lowered_or_empty, Hs, Hh, Hc, Ht. reflexivity.
  - intros r a b.
    unfold WordPress._is_cloudflare_challenge, WordPress.indicator_in_body,
      WordPress.edge_header_match, WordPress.body_text.
    cbn [WordPress.status WordPress.text WordPress.header_server
         WordPress.header_cf_ray].
    rewrite !lowered_or_empty.
    destruct (existsb (Nat.eqb (WordPress.status r)) WordPress.cloudflare_statuses);
      [reflexivity|].
    set (inside := existsb (fun indicator => str_in (lower indicator)
                                               (lower (WordPress.text r)))
                           WordPress.cloudflare_indicators).
    set (wrapped := existsb (fun indicator => str_in (lower indicator)
                                                (lower (a ++ WordPress.text r ++ b)))
                            WordPress.cloudflare_indicators).
    assert (M : inside = true -> wrapped = true).
    { apply existsb_monotone. intros k Hk.
      rewrite !lower_app. apply str_in_wrapped. exact Hk. }
    destruct inside.
    + rewrite (M eq_refl). reflexivity.
    + intros H. rewrite H. destruct wrapped; reflexivity.
Qed.

Lemma challenge_detection_is_robust_witness :
  WordPress._is_cloudflare_challenge shouting_challenge_page = true
  /\ WordPress._is_cloudflare_challenge
       (WordPress.MkResponse "https://w.example/" 200
          ("<html>" ++ WordPress.text challenge_page ++ "</html>") None None)
     = true.
Proof.
  split.
  - rewrite (proj1 challenge_detection_is_robust shouting_challenge_page challenge_page
               eq_refl eq_refl eq_refl eq_refl).
    reflexivity.
  - apply (proj2 challenge_detection_is_robust challenge_page "<html>" "</html>").
    reflexivity.
Defined.

(** X12.  Headers alone never block a response whose status is below
    400: for such a response the verdict of the challenge detector is the
    verdict of the body scan, whatever the [Server] and [CF-RAY] headers. *)
Theorem success_response_judged_by_body (r : WordPress.Response) :
  WordPress.status r < 400 ->
  WordPress._is_cloudflare_challenge r = WordPress.indicator_in_body r.
Proof.
  intros H. unfold WordPress._is_cloudflare_challenge, WordPress.edge_header_match,
              WordPress.cloudflare_statuses.
  assert (L : Nat.leb 400 (WordPress.status r) = false) by (apply Nat.leb_gt; exact H).
  assert (E : existsb (Nat.eqb (WordPress.status r)) [503; 520; 521; 522; 523; 524]
              = false).
  { cbn [existsb].
    repeat match goal with
           | |- context [Nat.eqb (WordPress.status r) ?k] =>
               replace (Nat.eqb (WordPress.status r) k) with false
                 by (symmetry; apply Nat.eqb_neq; lia)
           end.
    reflexivity. }
  rewrite E, L.
  destruct (WordPress.indicator_in_body r); [reflexivity|].
  destruct (str_in _ _); [|reflexivity].
  destruct (WordPress.header_cf_ray r); [apply andb_false_r|reflexivity].
Qed.

Lemma success_response_judged_by_body_witness :
  WordPress._is_cloudflare_challenge edge_served = false.
Proof.
  rewrite (success_response_judged_by_body edge_served ltac:(simpl; lia)).
  reflexivity.
Defined.

(** X13.  The WordPress detector reads the body without regard to its
    letter case, and more text around a body does not undo a detection. *)
Theorem wordpress_detection_is_robust :
  (forall r1 r2,
     lower (WordPress.text r1) = lower (WordPress.text r2) ->
     _detect_wordpress r1 = _detect_wordpress r2)
  /\ (forall r a b,
        _detect_wordpress r = true ->
        _detect_wordpress
          (WordPress.MkResponse (WordPress.url r) (WordPress.status r)
             (a ++ WordPress.text r ++ b)
             (WordPress.header_server r) (WordPress.header_cf_ray r))
        = true).
Proof.
  split.
  - intros r1 r2 Ht. unfold _detect_wordpress.
    rewrite !lowered_or_empty, Ht. reflexivity.
  - intros r a b. unfold _detect_wordpress. cbn [WordPress.text].
    rewrite !lowered_or_empty. apply existsb_monotone.
    intros k Hk. rewrite !lower_app. apply str_in_wrapped. exact Hk.
Qed.

Lemma wordpress_detection_is_robust_witness :
  _detect_wordpress shouting_wp_response = true
  /\ _detect_wordpress
       (WordPress.MkResponse "https://w.example/" 200
          ("<head>" ++ WordPress.text wp_response ++ "</head>") None None)
     = true.
Proof.
  split.
  - rewrite (proj1 wordpress_detection_is_robust shouting_wp_response wp_response
               eq_refl).
    reflexivity.
  - apply (proj2 wordpress_detection_is_robust wp_response "<head>" "</head>").
    reflexivity.
Defined.

(* ================================================================== *)
(** ** The page extractors of the WordPress spider *)

(** X14.  For a WordPress field the first selector, in the order of the
    selector table, that matches any text decides: the field holds its
    texts, stripped, the empty ones left out, even when that leaves nothing,
    and the selectors after it are not asked.  When no selector matches, the
    field is the empty list. *)
Theorem first_matching_selector_decides (root : Node) :
  (forall pre s post c,
     Forall (fun q => css (q ++ "::text") root = Ok []) pre ->
     css (s ++ "::text") root = Ok c ->
     c <> [] ->
     first_content root (pre ++ s :: post) = Ok (stripped_nonempty (getall c)))
  /\ (forall selectors,
        Forall (fun q => css (q ++ "::text") root = Ok []) selectors ->
        first_content root selectors = Ok []).
Proof.
  split.
  - intros pre s post c Hpre Hs Hc.
    induction Hpre as [|q pre Hq _ IH]; simpl.
    + rewrite Hs. simpl. destruct c as [|n c]; [congruence|]. reflexivity.
    + rewrite Hq. simpl. exact IH.
  - intros selectors H.
    induction H as [|q l Hq _ IH]; simpl; [reflexivity|].
    rewrite Hq. simpl. exact IH.
Qed.

Lemma first_matching_selector_decides_witness :
  first_content post_page
    ["h1.entry-title"; "h1.post-title"; ".entry-header h1"; "article h1"]
  = Ok ["Hello"]
  /\ first_content post_page [".author-name"; ".entry-author"; ".post-author a"]
     = Ok [].
Proof.
  split.
  - apply (proj1 (first_matching_selector_decides post_page)
             ["h1.entry-title"] "h1.post-title" [".entry-header h1"; "article h1"]
             [text_node " Hello "; text_node "  "]).
    + repeat constructor.
    + reflexivity.
    + discriminate.
  - apply (proj2 (first_matching_selector_decides post_page)).
    repeat constructor.
Defined.

Lemma content_fields_keys (root : Node) (table : dict (list string)) :
  forall r, content_fields root table = Ok r -> map fst r = map fst table.
Proof.
  induction table as [|[field selectors] rest IH]; intros r; simpl.
  - intros E; inversion E; reflexivity.
  - destruct (first_content root selectors); simpl; [|discriminate].
    destruct (content_fields root rest) as [r'|]; simpl; [|discriminate].
    intros E; inversion E. simpl. rewrite (IH r' eq_refl). reflexivity.
Qed.

Lemma wordpress_content_shape
      (root : Node) (response : WordPress.Response) (wp : WpContent) :
  _extract_wordpress_content root response = Ok wp ->
  is_wordpress wp = _detect_wordpress response
  /\ map fst (wp_fields wp) = map fst WP_SELECTORS.
Proof.
  unfold _extract_wordpress_content.
  set (l := match dict_get "post_content" WP_SELECTORS with
            | Some l => l
            | None => []
            end).
  clearbody l.
  destruct (content_fields root WP_SELECTORS) as [fields|] eqn:F;
    [|discriminate].
  cbn [bind].
  destruct (main_content root l) as [main|]; [|discriminate].
  cbn [bind].
  intros E; inversion E; subst. cbn [is_wordpress wp_fields].
  split; [reflexivity|].
  exact (content_fields_keys root WP_SELECTORS fields F).
Qed.

(** What a page record holds when the extractor returns one. *)
Lemma page_data_shape
      (urljoin : WordPress.Response -> string -> res string)
      (root : Node) (response : WordPress.Response) (clock c : Clock) (d : PageData) :
  _extract_page_data urljoin root response clock = (Ok d, c) ->
  pd_url d = WordPress.url response
  /\ pd_status_code d = WordPress.status response
  /\ pd_scraped_at d = fst (now clock)
  /\ List.length (pd_links d) <= 100
  /\ List.length (pd_images d) <= 50
  /\ is_wordpress (pd_wordpress_content d) = _detect_wordpress response
  /\ map fst (wp_fields (pd_wordpress_content d)) = map fst WP_SELECTORS.
Proof.
  unfold _extract_page_data.
  destruct (now clock) as [ts c'] eqn:N. cbn [fst].
  destruct (_extract_basic_info root) as [basic|]; cbn [bind]; [|discriminate].
  destruct (_extract_wordpress_content root response) as [wp|] eqn:W;
    cbn [bind]; [|discriminate].
  destruct (wordpress_content_shape root response wp W) as [W1 W2].
  unfold _extract_links.
  destruct (css sel_anchors root) as [anchors|]; cbn [bind]; [|discriminate].
  destruct (collect_links urljoin response anchors) as [links|];
    cbn [bind]; [|discriminate].
  unfold _extract_images.
  destruct (css sel_img root) as [imgs|]; cbn [bind]; [|discriminate].
  destruct (collect_images urljoin response imgs) as [images|];
    cbn [bind]; [|discriminate].
  destruct (_extract_meta_data root) as [meta|]; cbn [bind]; [|discriminate].
  intros E. pose proof (f_equal fst E) as E1. cbn [fst] in E1.
  match type of E1 with
  | Ok ?r = Ok _ => assert (D : d = r) by congruence
  end.
  rewrite D.
  cbn [pd_url pd_status_code pd_scraped_at pd_links pd_images pd_wordpress_content].
  split; [reflexivity|]. split; [reflexivity|]. split; [reflexivity|].
  split; [apply firstn_le_length|]. split; [apply firstn_le_length|].
  split; assumption.
Qed.

(** X15.  The shape of a page record.  Every record the WordPress
    spider's [parse] yields, with [_extract_page_data] as its extractor,
    carries the address and the status of the response, a status below 400,
    the first clock reading as [scraped_at], at most 100 links and at most
    50 images, the verdict of [_detect_wordpress], and the eight fields of
    the selector table in the table's order. *)
Theorem page_record_shape
    (urljoin : WordPress.Response -> string -> res string) (root : Node)
    (self : WordPress.Spider PageData) (response : WordPress.Response)
    (clock : Clock) (d : PageData) :
  In d (fst (fst (WordPress.parse (_extract_page_data urljoin root)
                    self response clock))) ->
  pd_url d = WordPress.url response
  /\ pd_status_code d = WordPress.status response
  /\ WordPress.status response < 400
  /\ pd_scraped_at d = fst (now clock)
  /\ List.length (pd_links d) <= 100
  /\ List.length (pd_images d) <= 50
  /\ is_wordpress (pd_wordpress_content d) = _detect_wordpress response
  /\ map fst (wp_fields (pd_wordpress_content d))
     = ["post_title"; "post_content"; "post_meta"; "categories"; "tags";
        "author"; "date"; "comments"].
Proof.
  destruct (gate_cases PageData (_extract_page_data urljoin root) self response clock)
    as [[_ E]|[[_ [_ E]]|[[_ [_ [e [c [_ E]]]]]|[_ [Hs [d' [c [Hx E]]]]]]]];
    rewrite E; cbn [fst In]; try contradiction.
  intros [Hd|[]]. subst d'.
  destruct (page_data_shape urljoin root response clock c d Hx)
    as [A [B [C [D [F [G H]]]]]].
  repeat split; assumption.
Qed.

Lemma page_record_shape_witness :
  exists d,
    fst (fst (WordPress.parse (_extract_page_data page_join post_page)
                (WordPress.MkSpider [] []) ordinary_page ticking)) = [d]
    /\ pd_url d = "https://w.example/"
    /\ pd_status_code d = 200
    /\ List.length (pd_links d) <= 100
    /\ pd_scraped_at d = "T0".
Proof.
  assert (H : exists d,
             fst (fst (WordPress.parse (_extract_page_data page_join post_page)
                         (WordPress.MkSpider [] []) ordinary_page ticking)) = [d])
    by (eexists; vm_compute; reflexivity).
  destruct H as [d H]. exists d. split; [exact H|].
  destruct (page_record_shape page_join post_page (WordPress.MkSpider [] [])
              ordinary_page ticking d ltac:(rewrite H; left; reflexivity))
    as [A [B [_ [C [D _]]]]].
  split; [exact A|]. split; [exact B|]. split; [exact D|exact C].
Defined.

Lemma collect_links_bad_link
      (urljoin : WordPress.Response -> string -> res string)
      (response : WordPress.Response) (anchors : list Node)
      (link : Node) (h : list Node) (href : string) (e : exn) :
  In link anchors ->
  css sel_href link = Ok h ->
  get_opt h = Some href ->
  truthy href = true ->
  urljoin response href = Raise e ->
  exists e', collect_links urljoin response anchors = Raise e'.
Proof.
  intros Hin Hh Hg Ht Hu.
  induction anchors as [|x rest IH]; [contradiction|].
  destruct Hin as [Hx|Hin].
  - subst x. simpl. rewrite Hh. simpl. rewrite Hg.
    destruct (css sel_text link); simpl; [|eauto].
    rewrite Ht, Hu. simpl. eauto.
  - destruct (IH Hin) as [e' He']. simpl.
    destruct (css sel_href x) as [hx|]; simpl; [|eauto].
    destruct (css sel_text x); simpl; [|eauto].
    destruct (get_opt hx) as [hr|]; [|eauto].
    destruct (truthy hr); [|eauto].
    destruct (urljoin response hr); simpl; [|eauto].
    rewrite He'. simpl. eauto.
Qed.

(** X16.  One bad link loses the page.  When [response.urljoin] raises on
    the address of some anchor of the page, wherever the anchor stands, also
    beyond the first hundred, [_extract_links] raises, so does
    [_extract_page_data], and [parse] yields no record for the response. *)
Theorem bad_link_loses_the_page
    (urljoin : WordPress.Response -> string -> res string) (root : Node)
    (self : WordPress.Spider PageData) (response : WordPress.Response)
    (clock : Clock) (anchors : list Node) (link : Node) (h : list Node)
    (href : string) (e : exn) :
  css sel_anchors root = Ok anchors ->
  In link anchors ->
  css sel_href link = Ok h ->
  get_opt h = Some href ->
  truthy href = true ->
  urljoin response href = Raise e ->
  (exists e', _extract_links urljoin root response = Raise e')
  /\ (exists e', fst (_extract_page_data urljoin root response clock) = Raise e')
  /\ fst (fst (WordPress.parse (_extract_page_data urljoin root)
                 self response clock)) = [].
Proof.
  intros Ha Hin Hh Hg Ht Hu.
  destruct (collect_links_bad_link urljoin response anchors link h href e
              Hin Hh Hg Ht Hu) as [e' He'].
  assert (L : _extract_links urljoin root response = Raise e')
    by (unfold _extract_links; rewrite Ha; simpl; rewrite He'; reflexivity).
  assert (P : exists e'', fst (_extract_page_data urljoin root response clock)
                          = Raise e'').
  { unfold _extract_page_data. destruct (now clock) as [ts c]. cbn [fst].
    destruct (_extract_basic_info root); simpl; [|eauto].
    destruct (_extract_wordpress_content root response); simpl; [|eauto].
    rewrite L. simpl. eauto. }
  split; [eauto|]. split; [exact P|].
  destruct P as [e'' P].
  destruct (gate_cases PageData (_extract_page_data urljoin root) self response clock)
    as [[_ E]|[[_ [_ E]]|[[_ [_ [e1 [c [_ E]]]]]|[_ [_ [d' [c [Hx E]]]]]]]];
    rewrite E; try reflexivity.
  rewrite Hx in P. discriminate P.
Qed.

Lemma bad_link_loses_the_page_witness :
  (exists e', _extract_links page_join bad_link_page ordinary_page = Raise e')
  /\ fst (fst (WordPress.parse (_extract_page_data page_join bad_link_page)
                 (WordPress.MkSpider [] []) ordinary_page ticking)) = [].
Proof.
  destruct (bad_link_loses_the_page page_join bad_link_page (WordPress.MkSpider [] [])
              ordinary_page ticking
              [anchor "http://[bad" "bad"] (anchor "http://[bad" "bad")
              [text_node "http://[bad"] "http://[bad"
              (MkExn ValueError "Invalid IPv6 URL")
              eq_refl (or_introl eq_refl) eq_refl eq_refl eq_refl eq_refl)
    as [A [_ B]].
  split; [exact A|exact B].
Defined.

(* ------------------------------------------------------------------ *)
(** *** Dictionaries *)

Lemma dict_get_set_same {V : Type} (k : string) (v : V) (d : dict V) :
  dict_get k (dict_set k v d) = Some v.
Proof.
  induction d as [|[k' v'] rest IH]; simpl.
  - rewrite String.eqb_refl. reflexivity.
  - destruct (String.eqb k' k) eqn:E; simpl.
    + rewrite String.eqb_refl. reflexivity.
    + rewrite E. exact IH.
Qed.

Lemma dict_get_set_other {V : Type} (k k' : string) (v : V) (d : dict V) :
  k <> k' -> dict_get k' (dict_set k v d) = dict_get k' d.
Proof.
  intros Hne.
  assert (N : String.eqb k k' = false) by (apply String.eqb_neq; exact Hne).
  induction d as [|[k0 v0] rest IH]; simpl.
  - rewrite N. reflexivity.
  - destruct (String.eqb k0 k) eqn:E; simpl.
    + apply String.eqb_eq in E. subst k0. rewrite N. reflexivity.
    + rewrite IH. reflexivity.
Qed.

Lemma dict_set_keys {V : Type} (k : string) (v : V) (d : dict V) :
  map fst (dict_set k v d)
  = if existsb (String.eqb k) (map fst d) then map fst d
    else (map fst d ++ [k])%list.
Proof.
  induction d as [|[k0 v0] rest IH]; simpl; [reflexivity|].
  rewrite (String.eqb_sym k k0).
  destruct (String.eqb k0 k) eqn:E; simpl.
  - apply String.eqb_eq in E. subst k0. reflexivity.
  - rewrite IH. destruct (existsb (String.eqb k) (map fst rest)); reflexivity.
Qed.

Lemma dict_set_nodup {V : Type} (k : string) (v : V) (d : dict V) :
  NoDup (map fst d) -> NoDup (map fst (dict_set k v d)).
Proof.
  intros H. rewrite dict_set_keys.
  destruct (existsb (String.eqb k) (map fst d)) eqn:E; [exact H|].
  apply NoDup_app; [exact H|repeat constructor; intros []|].
  intros x Hx [Hk|[]]. subst x.
  assert (T : existsb (String.eqb k) (map fst d) = true)
    by (apply existsb_exists; exists k; split;
        [exact Hx|apply String.eqb_refl]).
  congruence.
Qed.

Lemma dict_set_values {V : Type} (P : string * V -> Prop)
      (k : string) (v : V) (d : dict V) :
  P (k, v) -> Forall P d -> Forall P (dict_set k v d).
Proof.
  intros Hk H. induction H as [|[k0 v0] rest H0 Hrest IH]; simpl.
  - repeat constructor. exact Hk.
  - destruct (String.eqb k0 k); constructor; assumption.
Qed.

(* ------------------------------------------------------------------ *)
(** *** The meta tags *)

Lemma collect_meta_app (l1 l2 : list Node) :
  forall meta,
    collect_meta (l1 ++ l2) meta
    = (m <- collect_meta l1 meta ;; collect_meta l2 m).
Proof.
  induction l1 as [|tag rest IH]; intros meta; [reflexivity|].
  cbn [app collect_meta].
  destruct (read_meta tag) as [[[name|] [content|]]|]; cbn [bind];
    try apply IH; try reflexivity.
  destruct (truthy name && truthy content); apply IH.
Qed.

Lemma collect_meta_invariant (P : dict string -> Prop) (tags : list Node) :
  (forall name content m,
     truthy name = true -> truthy content = true -> P m ->
     P (dict_set name content m)) ->
  forall meta result,
    collect_meta tags meta = Ok result -> P meta -> P result.
Proof.
  intros Hset.
  induction tags as [|tag rest IH]; intros meta result; cbn [collect_meta].
  - intros E; inversion E; subst; auto.
  - destruct (read_meta tag) as [[[name|] [content|]]|]; cbn [bind];
      try discriminate; try apply IH.
    destruct (truthy name) eqn:Hn; destruct (truthy content) eqn:Hc;
      cbn [andb]; try apply IH.
    intros E Hm. apply (IH _ _ E). apply Hset; assumption.
Qed.

Lemma collect_meta_keeps (name : string) (tags : list Node) :
  Forall (fun t => forall c, read_meta t = Ok (Some name, Some c) ->
                             truthy c = false) tags ->
  forall meta result,
    collect_meta tags meta = Ok result ->
    truthy name = true ->
    dict_get name result = dict_get name meta.
Proof.
  intros H. induction H as [|tag rest Ht _ IH]; intros meta result;
    cbn [collect_meta].
  - intros E; inversion E; reflexivity.
  - destruct (read_meta tag) as [[[n|] [content|]]|] eqn:R; cbn [bind];
      try discriminate; try apply IH.
    destruct (truthy n) eqn:Hn; destruct (truthy content) eqn:Hc;
      cbn [andb]; try apply IH.
    intros E Hname. rewrite (IH _ _ E Hname).
    apply dict_get_set_other. intros ->.
    rewrite (Ht content eq_refl) in Hc. discriminate.
Qed.

(** X17.  The meta data are a map in which the last tag wins.  In the
    dictionary [_extract_meta_data] returns no name occurs twice and neither
    a name nor a content is empty; and a name that several [meta] tags carry
    is bound to the content of the last of them that has a content. *)
Theorem meta_last_tag_wins (root : Node) (result : dict string) :
  _extract_meta_data root = Ok result ->
  NoDup (map fst result)
  /\ Forall (fun kv => truthy (fst kv) = true /\ truthy (snd kv) = true) result
  /\ (forall pre tag post name content,
        css sel_meta root = Ok (pre ++ tag :: post)%list ->
        read_meta tag = Ok (Some name, Some content) ->
        truthy name = true ->
        truthy content = true ->
        Forall (fun t => forall c, read_meta t = Ok (Some name, Some c) ->
                                   truthy c = false) post ->
        dict_get name result = Some content).
Proof.
  unfold _extract_meta_data.
  destruct (css sel_meta root) as [tags|] eqn:T; cbn [bind]; [|discriminate].
  intros E. split; [|split].
  - apply (collect_meta_invariant (fun m => NoDup (map fst m)) tags) with (meta := []);
      [|exact E|constructor].
    intros name content m _ _. apply dict_set_nodup.
  - apply (collect_meta_invariant
             (Forall (fun kv => truthy (fst kv) = true /\ truthy (snd kv) = true))
             tags) with (meta := []); [|exact E|constructor].
    intros name content m Hn Hc. apply dict_set_values. split; assumption.
  - intros pre tag post name content Hsel R Hn Hc Hpost.
    inversion Hsel; subst tags.
    rewrite collect_meta_app in E.
    destruct (collect_meta pre []) as [m|]; cbn [bind] in E; [|discriminate].
    cbn [collect_meta] in E. rewrite R in E. cbn [bind] in E.
    rewrite Hn, Hc in E. cbn [andb] in E.
    rewrite (collect_meta_keeps name post Hpost _ _ E Hn).
    apply dict_get_set_same.
Qed.

Lemma meta_last_tag_wins_witness :
  _extract_meta_data post_page = Ok [("author", "B")]
  /\ dict_get "author" [("author", "B")] = Some "B".
Proof.
  assert (E : _extract_meta_data post_page = Ok [("author", "B")])
    by (vm_compute; reflexivity).
  split; [exact E|].
  apply (proj2 (proj2 (meta_last_tag_wins post_page [("author", "B")] E))
           [meta_tag "author" "A"] (meta_tag "author" "B") [] "author" "B").
  - reflexivity.
  - reflexivity.
  - reflexivity.
  - reflexivity.
  - constructor.
Defined.

(* ================================================================== *)
(** ** The preview of a CSV file *)

(** The lines [Row i: ...] for the rows [d], numbered from [i]. *)
Local Abbreviation row_lines i d :=
  (map (fun p => RowLine (fst p) (snd p)) (combine (seq i (List.length d)) d)).

(** The loop over a reader whose first rows are readable: when they all
    fit below [rows] the loop goes on behind them, otherwise it stops at the
    first row that does not fit and the rest is never asked for. *)
Lemma preview_loop_prefix (rows : Z) (data : list (list string)) :
  forall i rest,
    preview_loop rows i (map Ok data ++ rest)%list
    = if Nat.leb (List.length data) (Z.to_nat (rows - Z.of_nat i))
      then (row_lines i data
              ++ fst (preview_loop rows (i + List.length data) rest),
            snd (preview_loop rows (i + List.length data) rest))%list
      else (row_lines i (firstn (Z.to_nat (rows - Z.of_nat i)) data), None).
Proof.
  induction data as [|row data IH]; intros i rest.
  - cbn [map app List.length Nat.leb combine seq].
    rewrite Nat.add_0_r. destruct (preview_loop rows i rest); reflexivity.
  - cbn [map app preview_loop].
    destruct (Z.leb rows (Z.of_nat i)) eqn:T.
    + apply Z.leb_le in T.
      replace (Z.to_nat (rows - Z.of_nat i)) with 0 by lia.
      reflexivity.
    + apply Z.leb_gt in T.
      replace (Z.to_nat (rows - Z.of_nat i))
        with (S (Z.to_nat (rows - Z.of_nat (S i)))) by lia.
      rewrite IH.
      cbn [List.length Nat.leb firstn].
      replace (i + S (List.length data)) with (S i + List.length data) by lia.
      destruct (Nat.leb (List.length data) (Z.to_nat (rows - Z.of_nat (S i))));
        reflexivity.
Qed.

(** X18.  The preview prints the first rows.  On a file every row of
    which can be read, [preview_csv] prints exactly the first [rows] rows,
    or all of them when there are fewer, numbered from 0 in the order of the
    file, prints nothing when [rows] is zero or negative, and returns without
    calling [sys.exit]. *)
Theorem preview_prints_first_rows
    (file_path : string) (data : list (list string)) (rows : Z) :
  preview_csv file_path (Reader (map Ok data)) rows
  = (row_lines 0 (firstn (Z.to_nat rows) data), None).
Proof.
  unfold preview_csv.
  rewrite <- (app_nil_r (map Ok data)).
  rewrite preview_loop_prefix.
  cbn [Z.of_nat]. rewrite Z.sub_0_r.
  destruct (Nat.leb (List.length data) (Z.to_nat rows)) eqn:L.
  - apply Nat.leb_le in L. cbn [preview_loop fst snd].
    rewrite app_nil_r, firstn_all2 by exact L. reflexivity.
  - reflexivity.
Qed.

(** X19.  The reader is asked for one row more than is printed.  When
    the rows before a row that cannot be read are no more than [rows], they
    are printed and then the error, with exit status 1: also when all the
    [rows] rows asked for were printed already, and also when [rows] is zero
    or negative and the first row fails.  When more rows than that can be
    read, and at least one, what comes after them is never asked for and
    cannot fail the preview. *)
Theorem preview_reads_one_row_ahead
    (file_path : string) (data : list (list string)) (rows : Z)
    (rest : list (res (list string))) :
  (forall e,
     (Z.of_nat (List.length data) <= Z.max 0 rows)%Z ->
     preview_csv file_path (Reader (map Ok data ++ Raise e :: rest)%list) rows
     = ((row_lines 0 data ++ [ErrorLine ("ERROR: " ++ exn_str e)])%list, Some 1))
  /\ ((Z.max 0 rows < Z.of_nat (List.length data))%Z ->
      preview_csv file_path (Reader (map Ok data ++ rest)%list) rows
      = (row_lines 0 (firstn (Z.to_nat rows) data), None)).
Proof.
  split.
  - intros e H. unfold preview_csv. rewrite preview_loop_prefix.
    cbn [Z.of_nat]. rewrite Z.sub_0_r.
    replace (Nat.leb (List.length data) (Z.to_nat rows)) with true
      by (symmetry; apply Nat.leb_le; lia).
    cbn [preview_loop fst snd]. rewrite app_nil_r. reflexivity.
  - intros H. unfold preview_csv. rewrite preview_loop_prefix.
    cbn [Z.of_nat]. rewrite Z.sub_0_r.
    replace (Nat.leb (List.length data) (Z.to_nat rows)) with false
      by (symmetry; apply Nat.leb_gt; lia).
    reflexivity.
Qed.

Lemma preview_reads_one_row_ahead_witness :
  preview_csv "loans.csv"
    (Reader [Ok ["a"; "b"]; Raise (MkExn OtherError "line contains NUL")]) 1
  = ([RowLine 0 ["a"; "b"]; ErrorLine "ERROR: line contains NUL"], Some 1)
  /\ preview_csv "loans.csv"
       (Reader [Ok ["a"; "b"]; Ok ["c"; "d"];
                Raise (MkExn OtherError "line contains NUL")]) 1
     = ([RowLine 0 ["a"; "b"]], None).
Proof.
  split.
  - apply (proj1 (preview_reads_one_row_ahead "loans.csv" [["a"; "b"]] 1 [])
             (MkExn OtherError "line contains NUL")).
    simpl. lia.
  - apply (proj2 (preview_reads_one_row_ahead "loans.csv" [["a"; "b"]; ["c"; "d"]] 1
                    [Raise (MkExn OtherError "line contains NUL")])).
    simpl. lia.
Defined.
